(** * FUSEtoOPGEE: spreadsheet columns to OPGEE field nodes

    A shallow embedding of [FUSEtoOPGEE.py]: the row-range extraction
    ([extract_field_data]), the code-to-label conversion
    ([apply_conversions]), the assembly of a column's record in the loop of
    [main], the synthesis of a [<Field>] node ([create_field_element]) and
    the merge into the XML document at the end of [main] (the Analysis node,
    then the field nodes).

    Conventions of the embedding:
    - a Python exception is a value [Raise e] of type [result];
    - a Python [dict] is an association list in insertion order;
    - strings are ASCII text: digits and white space of other scripts, and
      the interpreter's limit on the length of integer strings, are not
      modelled;
    - a cell of the sheet is any type with the three operations of
      [PyCell], so that floats need no model of their own;
    - an XML element has a tag, attributes, a text and children; the white
      space between elements ([tail]) plays no part in what is modelled;
    - the names of the fields are strings that hold no double quote, so
      that the path expressions of [find] compare attributes literally. *)

From Stdlib Require Import String Ascii ZArith Lia Bool Arith PeanoNat List DecimalString.
Import ListNotations.

Set Implicit Arguments.
Open Scope string_scope.
Open Scope list_scope.
Open Scope nat_scope.

(** ** Exceptions *)

Inductive exn : Type :=
| IndexError
| KeyError
| TypeError
| ValueError
| AttributeError.

Inductive result (A : Type) : Type :=
| Ok (a : A)
| Raise (e : exn).

Arguments Ok {A} a.
Arguments Raise {A} e.

Definition bind {A B : Type} (r : result A) (k : A -> result B) : result B :=
  match r with
  | Ok a => k a
  | Raise e => Raise e
  end.

Notation "x <- r ;; k" := (bind r (fun x => k))
  (at level 61, r at next level, right associativity).

Definition is_ok {A : Type} (r : result A) : bool :=
  match r with Ok _ => true | Raise _ => false end.

(** ** The loaded sheet

    A pandas [DataFrame] is rectangular: [nrows] by [ncols] cells, read by
    position.  [cell] is consulted inside the bounds only. *)

Record DataFrame (A : Type) : Type := {
  nrows : nat;
  ncols : nat;
  cell : nat -> nat -> A
}.

Section Extraction.

Context {A : Type}.

(** [sheet.iloc[start:stop, col].tolist()]: a row slice is cut to the rows
    the sheet has, as Python slices are; a column position outside the sheet
    raises [IndexError]. *)
Definition iloc_rows (sheet : DataFrame A) (start stop col : nat) : list A :=
  map (fun r => cell sheet r col) (seq start (Nat.min stop (nrows sheet) - start)).

Definition iloc_slice (sheet : DataFrame A) (start stop col : nat) : result (list A) :=
  if col <? ncols sheet then Ok (iloc_rows sheet start stop col)
  else Raise IndexError.

(** Rows that contain data, 1-indexed and inclusive. *)
Definition ranges : list (nat * nat) :=
  [ (8, 16); (19, 30); (33, 33); (35, 41); (45, 50);
    (57, 58); (61, 67); (69, 71); (76, 76);
    (85, 87); (91, 93); (95, 97);
    (101, 105); (107, 112); (114, 114) ].

Definition extend_range (sheet : DataFrame A) (col : nat)
    (data : result (list A)) (rg : nat * nat) : result (list A) :=
  d <- data ;;
  s <- iloc_slice sheet (fst rg - 1) (snd rg) col ;;
  Ok (d ++ s).

Definition extract_field_data (sheet : DataFrame A) (col : nat) : result (list A) :=
  fold_left (extend_range sheet col) ranges (Ok []).

End Extraction.

(** Number of rows a range asks for, and the number a sheet of [n] rows
    gives it. *)
Definition range_size (rg : nat * nat) : nat := snd rg - (fst rg - 1).

Definition range_got (n : nat) (rg : nat * nat) : nat :=
  Nat.min (snd rg) n - (fst rg - 1).

Definition schema_length : nat := list_sum (map range_size ranges).

Definition extraction_length (n : nat) : nat := list_sum (map (range_got n) ranges).

(** ** Cells, record values and dictionaries

    A cell of the sheet is an arbitrary Python object (a number, a text, a
    missing value).  The pipeline asks three things of it: whether it is
    missing ([pd.isna]), its [str] form, and whether it compares equal to
    the integer [1]. *)

Class PyCell (A : Type) : Type := {
  isna : A -> bool;
  py_str : A -> string;
  eq_one : A -> bool
}.

(** Cells holding integers, texts or nothing. *)
Inductive xl_cell : Type :=
| NaN
| Int (z : Z)
| Text (s : string).

Definition str_of_int (z : Z) : string :=
  DecimalString.NilZero.string_of_int (Z.to_int z).

#[export] Instance xl_cell_PyCell : PyCell xl_cell := {
  isna c := match c with NaN => true | _ => false end;
  py_str c := match c with NaN => "nan" | Int z => str_of_int z | Text s => s end;
  eq_one c := match c with Int z => Z.eqb z 1 | _ => false end
}.

(** What a record holds under a parameter name: a string, or (for the two
    one-hot parameters, until converted) a list of raw cells. *)
Inductive value (A : Type) : Type :=
| VStr (s : string)
| VList (l : list A).

Arguments VStr {A} s.
Arguments VList {A} l.

(** A Python [dict] with string keys, in insertion order. *)
Definition dict (V : Type) : Type := list (string * V).

Fixpoint dict_get {V : Type} (k : string) (d : dict V) : option V :=
  match d with
  | [] => None
  | (k', v) :: d' => if String.eqb k k' then Some v else dict_get k d'
  end.

(** [d[k] = v]: an existing key keeps its place. *)
Fixpoint dict_set {V : Type} (k : string) (v : V) (d : dict V) : dict V :=
  match d with
  | [] => [(k, v)]
  | (k', v') :: d' =>
      if String.eqb k k' then (k', v) :: d' else (k', v') :: dict_set k v d'
  end.

(** [if k in d: del d[k]]. *)
Definition dict_del {V : Type} (k : string) (d : dict V) : dict V :=
  filter (fun kv => negb (String.eqb k (fst kv))) d.

Definition keys {V : Type} (d : dict V) : list string := map fst d.

Definition in_list (k : string) (l : list string) : bool :=
  existsb (String.eqb k) l.

(** A conversion table: integer code to label. *)
Definition table : Type := list (Z * string).

Fixpoint table_get (code : Z) (t : table) : option string :=
  match t with
  | [] => None
  | (c, label) :: t' => if Z.eqb code c then Some label else table_get code t'
  end.

(** ** Strings of digits *)

Definition is_digit (c : ascii) : bool :=
  (48 <=? nat_of_ascii c) && (nat_of_ascii c <=? 57).

Definition digit_val (c : ascii) : Z := Z.of_nat (nat_of_ascii c - 48).

Fixpoint all_digits (s : string) : bool :=
  match s with
  | EmptyString => true
  | String c s' => is_digit c && all_digits s'
  end.

(** [s.isdigit()]: at least one character, all of them digits. *)
Definition isdigit (s : string) : bool :=
  match s with
  | EmptyString => false
  | _ => all_digits s
  end.

Fixpoint int_digits (s : string) (acc : Z) : Z :=
  match s with
  | EmptyString => acc
  | String c s' => int_digits s' (10 * acc + digit_val c)%Z
  end.

(** [int(s)] for a string of digits. *)
Definition int_of_str (s : string) : Z := int_digits s 0.

(** ** apply_conversions *)

Definition one_hot_keys : list string :=
  ["ecosystem_richness"; "field_development_intensity"].

Section Conversions.

Context {A : Type} `{PyCell A}.

(** The variable [value] of the one-hot branch: the object read from the
    record until an element equal to 1 is met, then the position of the last
    such element. *)
Inductive selection : Type :=
| Unselected (v : value A)
| Index (i : Z).

(** [for index, val in enumerate(value, 1): if val == 1: value = index]. *)
Fixpoint scan_list (l : list A) (index : Z) (sel : selection) : selection :=
  match l with
  | [] => sel
  | val :: l' =>
      scan_list l' (index + 1)%Z (if eq_one val then Index index else sel)
  end.

(** Enumerating a string yields its characters, none of which equals 1. *)
Definition scan_value (v : value A) : selection :=
  match v with
  | VList l => scan_list l 1%Z (Unselected v)
  | VStr _ => Unselected v
  end.

(** [if value:]. *)
Definition truthy (sel : selection) : bool :=
  match sel with
  | Unselected (VList l) => match l with [] => false | _ => true end
  | Unselected (VStr s) => negb (String.eqb s "")
  | Index i => negb (Z.eqb i 0)
  end.

(** [mapping[value]]: a list is unhashable, a string is no key of a table of
    integer codes. *)
Definition subscript (mapping : table) (sel : selection) : result string :=
  match sel with
  | Unselected (VList _) => Raise TypeError
  | Unselected (VStr _) => Raise KeyError
  | Index i =>
      match table_get i mapping with
      | Some label => Ok label
      | None => Raise KeyError
      end
  end.

(** The body of the loop over [mappings.items()]. *)
Definition convert_key (field_updates : dict (value A)) (km : string * table)
    : result (dict (value A)) :=
  let key := fst km in
  let mapping := snd km in
  match dict_get key field_updates with
  | None => Ok field_updates
  | Some v =>
      if in_list key one_hot_keys then
        let sel := scan_value v in
        if truthy sel then
          label <- subscript mapping sel ;;
          Ok (dict_set key (VStr label) field_updates)
        else Ok field_updates
      else
        match v with
        | VList _ => Raise AttributeError
        | VStr s =>
            if isdigit s then
              match table_get (int_of_str s) mapping with
              | Some label => Ok (dict_set key (VStr label) field_updates)
              | None => Ok field_updates
              end
            else Ok field_updates
        end
  end.

Definition apply_conversions (field_updates : dict (value A))
    (mappings : dict table) : result (dict (value A)) :=
  fold_left (fun r km => fu <- r ;; convert_key fu km) mappings (Ok field_updates).

(** What one pass of the loop body leaves under [key] when the record holds
    [v] there (used to state what [convert_key] does). *)
Definition converted (key : string) (mapping : table) (v : value A)
    : result (value A) :=
  if in_list key one_hot_keys then
    let sel := scan_value v in
    if truthy sel then
      label <- subscript mapping sel ;;
      Ok (VStr label)
    else Ok v
  else
    match v with
    | VList _ => Raise AttributeError
    | VStr s =>
        if isdigit s then
          match table_get (int_of_str s) mapping with
          | Some label => Ok (VStr label)
          | None => Ok v
          end
        else Ok v
    end.

End Conversions.

(** Mappings for conversion of numerical values to strings. *)
Definition conversion_mappings : dict table :=
  [ ("flood_gas_type", [(1, "NG"); (2, "N2"); (3, "CO2")]%Z);
    ("upgrader_type",
      [(0, "None"); (1, "Delayed Coking"); (2, "Hydroconvention");
       (3, "Combined Hydroconversion and Fluid Coking")]%Z);
    ("gas_processing_path",
      [(1, "None"); (2, "Minimal"); (3, "Acid Gas"); (4, "Wet Gas");
       (5, "Acid Wet Gas"); (6, "Sour Gas Reinjection");
       (7, "CO2-EOR Membrane"); (8, "CO2-EOR Ryan Holmes")]%Z);
    ("ecosystem_richness",
      [(1, "Low carbon"); (2, "Med carbon"); (3, "High carbon")]%Z);
    ("field_development_intensity", [(1, "Low"); (2, "Med"); (3, "High")]%Z) ].


(** The table of [ecosystem_richness]. *)
Definition ecosystem_table : table :=
  [(1, "Low carbon"); (2, "Med carbon"); (3, "High carbon")]%Z.

(** ** Assembly of one column's record (the loop body of [main]) *)

(** Predefined parameters for the dictionary keys. *)
Definition parameters : list string :=
  [ "downhole_pump"; "water_reinjection"; "natural_gas_reinjection";
    "water_flooding"; "gas_lifting";
    "gas_flooding"; "steam_flooding"; "oil_sands_mine_upgrader";
    "oil_sands_mine_no_upgrader";
    "country"; "name"; "age"; "depth"; "oil_prod";
    "num_prod_wells"; "num_water_inj_wells"; "well_diam";
    "prod_index"; "res_press"; "res_temp"; "offshore";
    "API"; "gas_comp_N2"; "gas_comp_CO2"; "gas_comp_C1"; "gas_comp_C2";
    "gas_comp_C3"; "gas_comp_C4";
    "gas_comp_H2S"; "GOR"; "WOR"; "WIR"; "GLIR"; "GFIR";
    "flood_gas_type"; "frac_CO2_breakthrough"; "FILLER_source_of_CO2";
    "FILLER_perc_seq_credit"; "SOR"; "fraction_elec_onsite";
    "fraction_remaining_gas_inj"; "fraction_water_reinjected";
    "fraction_steam_cogen";
    "fraction_steam_solar"; "heater_treater"; "stabilizer_column";
    "upgrader_type";
    "gas_processing_path"; "FOR"; "frac_venting"; "fraction_diluent";
    "ecosystem_richness";
    "field_development_intensity"; "frac_transport_tanker";
    "frac_transport_barge";
    "frac_transport_pipeline"; "frac_transport_rail"; "frac_transport_truck";
    "transport_dist_tanker"; "transport_dist_barge";
    "transport_dist_pipeline"; "transport_dist_rail";
    "transport_dist_truck"; "ocean_tanker_size"; "small_sources_emissions" ].

(** Variables to be removed from each field dictionary. *)
Definition variables_to_remove : list string :=
  [ "ocean_tanker_size"; "small_sources_emissions"; "FILLER_source_of_CO2";
    "FILLER_perc_seq_credit"; "oil_sands_mine_no_upgrader";
    "oil_sands_mine_upgrader" ].

Definition indexes_to_pop : list nat := [52; 53; 54; 55].

(** [sorted(l, reverse=True)]. *)
Fixpoint insert_desc (x : nat) (l : list nat) : list nat :=
  match l with
  | [] => [x]
  | y :: l' => if y <=? x then x :: l else y :: insert_desc x l'
  end.

Definition sorted_reverse (l : list nat) : list nat := fold_right insert_desc [] l.

(** [l[a:b]] for positions that are not negative. *)
Definition slice {A : Type} (l : list A) (a b : nat) : list A :=
  firstn (b - a) (skipn a l).

(** [l.pop(index)], keeping the list that is left. *)
Definition pop {A : Type} (l : list A) (index : nat) : result (list A) :=
  if index <? length l then Ok (firstn index l ++ skipn (S index) l)
  else Raise IndexError.

Section Assembly.

Context {A : Type} `{PyCell A}.

(** ['' if pd.isna(v) else str(v)]. *)
Definition stringify (v : A) : string := if isna v then "" else py_str v.

(** [for index in sorted(indexes_to_pop, reverse=True): values.pop(index)]. *)
Definition pop_special (values : list A) : result (list A) :=
  fold_left (fun r index => l <- r ;; pop l index)
            (sorted_reverse indexes_to_pop) (Ok values).

(** The dictionary comprehension over [range(min(len(parameters), len(values)))]. *)
Definition zip_parameters (values : list A) : dict (value A) :=
  fold_left (fun d kv => dict_set (fst kv) (VStr (stringify (snd kv))) d)
            (combine parameters values) [].

(** The record of a column before conversion: positional zip, the two lists,
    removal of the unused variables. *)
Definition assemble (eco fdi values : list A) : dict (value A) :=
  let field_updates := zip_parameters values in
  let field_updates := dict_set "ecosystem_richness" (VList eco) field_updates in
  let field_updates :=
    dict_set "field_development_intensity" (VList fdi) field_updates in
  fold_left (fun d var => dict_del var d) variables_to_remove field_updates.

(** From the extracted values of a column to its record; [None] when every
    value is missing and the column is skipped. *)
Definition field_record (values : list A) : result (option (dict (value A))) :=
  let ecosystem_richness_values := slice values 51 54 in
  let field_development_intensity_values := slice values 54 57 in
  values <- pop_special values ;;
  if existsb (fun v => negb (isna v)) values then
    field_updates <-
      apply_conversions
        (assemble ecosystem_richness_values field_development_intensity_values
                  values)
        conversion_mappings ;;
    Ok (Some field_updates)
  else Ok None.

Definition process_column (sheet : DataFrame A) (col : nat)
    : result (option (dict (value A))) :=
  values <- extract_field_data sheet col ;;
  field_record values.

End Assembly.

(** The reading under which each one-hot list takes four raw slots and the
    slots of the lists, and only they, leave the sequence; stated for values
    that are pairwise distinct. *)
Definition four_slot_lists {A : Type} (values eco fdi popped : list A) : Prop :=
  length eco = 4 /\ length fdi = 4
  /\ forall x, In x values -> (In x popped <-> ~ (In x eco \/ In x fdi)).

(** ** Reading a string as a float: [float(value)]

    The number a string denotes is kept exact, as a decimal
    [mant * 10^exp10]; binary64 rounding (to nearest, ties to even) sends it
    to zero exactly when it is at most [2^-1075], half the least positive
    float. *)

Inductive parsed_float : Type :=
| PInf (neg : bool)
| PNan
| PDec (neg : bool) (mant : Z) (exp10 : Z).

Definition is_space (c : ascii) : bool :=
  let n := nat_of_ascii c in
  ((9 <=? n) && (n <=? 13)) || (n =? 32).

Fixpoint lstrip (s : string) : string :=
  match s with
  | String c s' => if is_space c then lstrip s' else s
  | EmptyString => EmptyString
  end.

Fixpoint rev_string (s acc : string) : string :=
  match s with
  | EmptyString => acc
  | String c s' => rev_string s' (String c acc)
  end.

Definition rstrip (s : string) : string :=
  rev_string (lstrip (rev_string s "")) "".

Definition strip (s : string) : string := rstrip (lstrip s).

Definition underscore : ascii := "_"%char.

(** Underscores may stand between two digits only; they are dropped before
    the number is read.  [prev] is the character just passed. *)
Fixpoint drop_underscores (prev : option ascii) (s : string) : option string :=
  match s with
  | EmptyString =>
      match prev with
      | Some p => if Ascii.eqb p underscore then None else Some EmptyString
      | None => Some EmptyString
      end
  | String c s' =>
      let prev_digit := match prev with Some p => is_digit p | None => false end in
      let prev_under :=
        match prev with Some p => Ascii.eqb p underscore | None => false end in
      if Ascii.eqb c underscore then
        if prev_digit then drop_underscores (Some c) s' else None
      else if prev_under && negb (is_digit c) then None
      else option_map (String c) (drop_underscores (Some c) s')
  end.

Definition parse_sign (s : string) : bool * string :=
  match s with
  | String "-"%char r => (true, r)
  | String "+"%char r => (false, r)
  | _ => (false, s)
  end.

(** The longest prefix of digits, and what follows it. *)
Fixpoint span_digits (s : string) : string * string :=
  match s with
  | String c s' =>
      if is_digit c then
        let (ds, rest) := span_digits s' in (String c ds, rest)
      else (EmptyString, s)
  | EmptyString => (EmptyString, EmptyString)
  end.

(** An exponent is read only when at least one digit follows the [e]. *)
Definition parse_exponent (s : string) : Z * string :=
  match s with
  | String c r =>
      if Ascii.eqb c "e"%char || Ascii.eqb c "E"%char then
        let (neg, r1) := parse_sign r in
        let (ds, r2) := span_digits r1 in
        match ds with
        | EmptyString => (0%Z, s)
        | _ => ((if neg then - int_of_str ds else int_of_str ds)%Z, r2)
        end
      else (0%Z, s)
  | EmptyString => (0%Z, s)
  end.

(** A decimal number that takes the whole string. *)
Definition parse_decimal (s : string) : option parsed_float :=
  let (neg, s1) := parse_sign s in
  let (ip, s2) := span_digits s1 in
  let (fp, s3) :=
    match s2 with
    | String "."%char r => span_digits r
    | _ => (EmptyString, s2)
    end in
  match (ip ++ fp)%string with
  | EmptyString => None
  | digits =>
      let (e, s4) := parse_exponent s3 in
      match s4 with
      | EmptyString =>
          Some (PDec neg (int_of_str digits) (e - Z.of_nat (String.length fp)))
      | _ => None
      end
  end.

Definition lower (c : ascii) : ascii :=
  let n := nat_of_ascii c in
  if (65 <=? n) && (n <=? 90) then ascii_of_nat (n + 32) else c.

Fixpoint lower_str (s : string) : string :=
  match s with
  | EmptyString => EmptyString
  | String c s' => String (lower c) (lower_str s')
  end.

Definition parse_inf_or_nan (s : string) : option parsed_float :=
  let (neg, s1) := parse_sign s in
  let l := lower_str s1 in
  if String.eqb l "inf" || String.eqb l "infinity" then Some (PInf neg)
  else if String.eqb l "nan" then Some PNan
  else None.

(** [float(s)]; [None] stands for [ValueError]. *)
Definition float_of_str (s : string) : option parsed_float :=
  match drop_underscores None s with
  | None => None
  | Some s1 =>
      match strip s1 with
      | EmptyString => None
      | s2 =>
          match parse_decimal s2 with
          | Some f => Some f
          | None => parse_inf_or_nan s2
          end
      end
  end.

(** [mant * 10^exp10 <= 2^-1075], for [mant >= 0]. *)
Definition rounds_to_zero (mant exp10 : Z) : bool :=
  (mant =? 0)%Z
  || ((exp10 <? 0)%Z && (mant * 2 ^ 1075 <=? 10 ^ (- exp10))%Z).

(** [gor_val in (0.0, 0, 0.00)]: the float compares equal to zero. *)
Definition is_zero (f : parsed_float) : bool :=
  match f with
  | PDec _ mant exp10 => rounds_to_zero mant exp10
  | _ => false
  end.

(** ** The XML tree *)

#[warnings="-register-all"]
Inductive Element : Type :=
| Elem (tag : string) (attrib : dict string) (text : option string)
       (children : list Element).

Definition tag (e : Element) : string :=
  match e with Elem t _ _ _ => t end.

Definition attrib (e : Element) : dict string :=
  match e with Elem _ a _ _ => a end.

Definition text (e : Element) : option string :=
  match e with Elem _ _ x _ => x end.

Definition children (e : Element) : list Element :=
  match e with Elem _ _ _ cs => cs end.

(** [e.get(k)]. *)
Definition get (e : Element) (k : string) : option string := dict_get k (attrib e).

Definition with_children (e : Element) (cs : list Element) : Element :=
  Elem (tag e) (attrib e) (text e) cs.

(** [e.append(c)]. *)
Definition append (e c : Element) : Element := with_children e (children e ++ [c]).

(** ** create_field_element

    The record reaches this function with a string under every name (see
    [field_record_strings]); on a string [pd.isna] is false and [str] is the
    identity, so the first line of the loop body leaves [value] as it is. *)

Definition epsilon : string := "0.00001".

(** The [GOR]/[WOR] fixup. *)
Definition written_value (key value : string) : string :=
  if in_list key ["GOR"; "WOR"] then
    let gor_val :=
      match float_of_str value with
      | Some f => f
      | None => PDec false 0 0
      end in
    if is_zero gor_val then epsilon else value
  else value.

Definition a_element (key value : string) : Element :=
  Elem "A" [("name", key)] (Some value) [].

(** The sub-elements one [key, value] pair adds to the field node. *)
Definition field_children (key value : string) : list Element :=
  let value := written_value key value in
  if in_list key ["fraction_diluent"; "heater_treater"] then
    let process_class :=
      if String.eqb key "fraction_diluent" then "HeavyOilDilution"
      else "CrudeOilDewatering" in
    [ Elem "Process" [("class", process_class); ("enabled", "false")] None [];
      Elem "Process" [("class", process_class)] None [a_element key value] ]
  else [a_element key value].

Definition create_field_element (field_name : string) (field_updates : dict string)
    : Element :=
  Elem "Field" [("name", field_name); ("modifies", "template")] None
       (Elem "Group" [] (Some "all") []
        :: flat_map (fun kv => field_children (fst kv) (snd kv)) field_updates).

Definition is_str {A : Type} (v : value A) : bool :=
  match v with
  | VStr _ => true
  | VList _ => false
  end.

(** What the assembled record holds: strings, and under the one-hot names
    lists that are not empty. *)
Definition assembled_value {A : Type} (k : string) (v : value A) : Prop :=
  is_str v = true
  \/ (In k one_hot_keys /\ exists l, v = VList l /\ l <> []).

(** The record of strings a converted record stands for, if every value is a
    string. *)
Fixpoint record_strings {A : Type} (d : dict (value A)) : option (dict string) :=
  match d with
  | [] => Some []
  | (k, VStr s) :: d' => option_map (cons (k, s)) (record_strings d')
  | (_, VList _) :: _ => None
  end.

(** ** The field nodes of the document

    A node found in the tree is known by its place: the child positions
    that lead to it from the root.  A parsed tree shares no node, so that a
    place stands for one object. *)

Definition ref : Type := list nat.

Definition under (i : nat) (l : list (ref * Element)) : list (ref * Element) :=
  map (fun re => (i :: fst re, snd re)) l.

(** [e.iter()]: the element and all that is below it, in document order,
    each with its place counted from [e]. *)
Fixpoint walk (e : Element) : list (ref * Element) :=
  match e with
  | Elem _ _ _ cs =>
      ([], e)
      :: (fix walk_from (i : nat) (cs : list Element) {struct cs}
            : list (ref * Element) :=
            match cs with
            | [] => []
            | c :: cs' => under i (walk c) ++ walk_from (S i) cs'
            end) 0 cs
  end.

Fixpoint walk_children (i : nat) (cs : list Element) : list (ref * Element) :=
  match cs with
  | [] => []
  | c :: cs' => under i (walk c) ++ walk_children (S i) cs'
  end.

(** The path [.//]: every node below the root, the root left out. *)
Definition descendants (root : Element) : list (ref * Element) :=
  walk_children 0 (children root).

Definition is_template_field (e : Element) : bool :=
  String.eqb (tag e) "Field"
  && match get e "modifies" with
     | Some m => String.eqb m "template"
     | None => false
     end.

Definition named (field_name : string) (e : Element) : bool :=
  match get e "name" with
  | Some n => String.eqb n field_name
  | None => false
  end.

(** [root.findall('.//Field[@modifies="template"]')]. *)
Definition findall_fields (root : Element) : list (ref * Element) :=
  filter (fun re => is_template_field (snd re)) (descendants root).

(** [root.find('.//Field[@name="..."][@modifies="template"]')], for a name
    that holds no double quote. *)
Definition find_field (root : Element) (field_name : string)
    : option (ref * Element) :=
  hd_error (filter (fun re => is_template_field (snd re)
                              && named field_name (snd re))
                   (descendants root)).

(** The name is spliced into the path between double quotes
    ([f'.//Field[@name="{field_name}"]...']).  A name without a double
    quote is one string of the path and is compared literally, as
    [find_field] does; with a double quote in it the path is another one
    (it raises [SyntaxError], or selects by another test), which
    [find_field] does not follow.  What is stated of the loop that replaces
    the fields is stated for names without a double quote. *)
Definition double_quote : ascii := "034"%char.

Fixpoint no_double_quote (s : string) : bool :=
  match s with
  | EmptyString => true
  | String c s' => negb (Ascii.eqb c double_quote) && no_double_quote s'
  end.

(** No field name of the run holds a double quote. *)
Definition names_plain {V : Type} (field_updates_dicts : dict V) : bool :=
  forallb no_double_quote (keys field_updates_dicts).

(** [field.get('name') in required_field_names]; a node without a name is
    in no set of names. *)
Definition required (required_field_names : list string) (field : Element) : bool :=
  match get field "name" with
  | Some n => in_list n required_field_names
  | None => false
  end.

(** The children of the root, each with the position it had when
    [findall] ran: the loop that removes stale fields holds the nodes found
    then, while the child list shrinks under it. *)
Definition tagged (cs : list Element) : list (nat * Element) :=
  combine (seq 0 (length cs)) cs.

(** [root.remove(field)] for a node found before the loop: [list.remove]
    takes the node out of the root's own child list and raises
    [ValueError] when it is not there, as for a node that lies deeper. *)
Definition remove_found (kids : list (nat * Element)) (r : ref)
    : result (list (nat * Element)) :=
  match r with
  | [i] =>
      if existsb (fun c => fst c =? i) kids
      then Ok (filter (fun c => negb (fst c =? i)) kids)
      else Raise ValueError
  | _ => Raise ValueError
  end.

(** The body of the loop that removes fields that are not part of the
    current run. *)
Definition remove_if_stale (required_field_names : list string)
    (st : result (list (nat * Element))) (field : ref * Element)
    : result (list (nat * Element)) :=
  kids <- st ;;
  if required required_field_names (snd field) then Ok kids
  else remove_found kids (fst field).

Definition remove_stale (root : Element) (required_field_names : list string)
    : result Element :=
  let existing_fields := findall_fields root in
  kids <- fold_left (remove_if_stale required_field_names) existing_fields
                    (Ok (tagged (children root))) ;;
  Ok (with_children root (map snd kids)).

(** [root.remove(field)] for a node just found in the tree as it is. *)
Definition root_remove (root : Element) (r : ref) : result Element :=
  match r with
  | [i] =>
      if i <? length (children root)
      then Ok (with_children root
                 (firstn i (children root) ++ skipn (S i) (children root)))
      else Raise ValueError
  | _ => Raise ValueError
  end.

(** One pass of the loop that updates or creates the field nodes. *)
Definition replace_field (root : Element) (field_name : string)
    (field_updates : dict string) : result Element :=
  root <- match find_field root field_name with
          | Some (r, _) => root_remove root r
          | None => Ok root
          end ;;
  Ok (append root (create_field_element field_name field_updates)).

Definition replace_step (st : result Element) (kv : string * dict string)
    : result Element :=
  root <- st ;;
  replace_field root (fst kv) (snd kv).

(** Lines 309-328 of [main]: the stale fields go, then every field of the
    run is replaced or added. *)
Definition reconcile_fields (root : Element) (field_updates_dicts : dict (dict string))
    : result Element :=
  root <- remove_stale root (keys field_updates_dicts) ;;
  fold_left replace_step field_updates_dicts (Ok root).

(** [gone names L i]: some stale node of [L] is the child of position [i]
    (used to state what the first loop removes). *)
Definition points_at (i : nat) (r : ref) : bool :=
  match r with
  | [j] => j =? i
  | _ => false
  end.

Definition gone (required_field_names : list string) (L : list (ref * Element))
    (i : nat) : bool :=
  existsb (fun f => negb (required required_field_names (snd f))
                    && points_at i (fst f)) L.

(** A child of the root stays through the first loop unless it is a
    template field whose name the run does not produce. *)
Definition kept (required_field_names : list string) (c : Element) : bool :=
  negb (is_template_field c && negb (required required_field_names c)).

(** ** The Analysis node

    [main] updates or creates the Analysis element before it turns to the
    fields.  The element is changed in place, wherever it lies in the
    tree. *)

(** Keys and values to be updated in the Analysis element. *)
Definition analysis_updates : dict string :=
  [ ("functional_unit", "oil"); ("GWP_horizon", "100"); ("GWP_version", "AR5") ].

Fixpoint update_nth (i : nat) (f : Element -> Element) (cs : list Element)
    {struct cs} : list Element :=
  match cs, i with
  | [], _ => []
  | c :: cs', 0 => f c :: cs'
  | c :: cs', S i' => c :: update_nth i' f cs'
  end.

(** The tree with the node at place [r] changed by [f]. *)
Fixpoint update_at (r : ref) (f : Element -> Element) (e : Element) : Element :=
  match r with
  | [] => f e
  | i :: r' => with_children e (update_nth i (update_at r' f) (children e))
  end.

Definition with_text (value : string) (e : Element) : Element :=
  Elem (tag e) (attrib e) (Some value) (children e).

(** [root.find('.//Analysis[@name="FUSE_run"]')]. *)
Definition find_analysis (root : Element) : option (ref * Element) :=
  hd_error (filter (fun re => String.eqb (tag (snd re)) "Analysis"
                              && named "FUSE_run" (snd re))
                   (descendants root)).

(** [any(group.text == 'all' for group in analysis.findall('Group'))]. *)
Definition group_exists (analysis : Element) : bool :=
  existsb (fun g => String.eqb (tag g) "Group"
                    && match text g with
                       | Some t => String.eqb t "all"
                       | None => false
                       end)
          (children analysis).

(** The position of the first child [A] with the given name:
    [analysis.find('A[@name="..."]')]. *)
Fixpoint find_setting (key : string) (cs : list Element) : option nat :=
  match cs with
  | [] => None
  | c :: cs' =>
      if String.eqb (tag c) "A" && named key c then Some 0
      else option_map S (find_setting key cs')
  end.

(** Update or create one [A] element within the Analysis element. *)
Definition upsert_setting (analysis : Element) (kv : string * string) : Element :=
  match find_setting (fst kv) (children analysis) with
  | Some i =>
      with_children analysis
        (update_nth i (with_text (snd kv)) (children analysis))
  | None => append analysis (Elem "A" [("name", fst kv)] (Some (snd kv)) [])
  end.

Definition upsert_settings (analysis : Element) : Element :=
  let analysis :=
    if group_exists analysis then analysis
    else append analysis (Elem "Group" [] (Some "all") []) in
  fold_left upsert_setting analysis_updates analysis.

Definition upsert_analysis (root : Element) : Element :=
  match find_analysis root with
  | Some (r, _) => update_at r upsert_settings root
  | None =>
      append root (upsert_settings (Elem "Analysis" [("name", "FUSE_run")] None []))
  end.

(** The merge of [main]: the Analysis node, then the fields. *)
Definition merge (root : Element) (field_updates_dicts : dict (dict string))
    : result Element :=
  reconcile_fields (upsert_analysis root) field_updates_dicts.

(** The template field nodes of a document, and their keys. *)
Definition template_fields (root : Element) : list Element :=
  map snd (findall_fields root).

Definition field_key (e : Element) : option string := get e "name".

Definition keys_unique (root : Element) : Prop :=
  NoDup (map field_key (template_fields root)).

(** The template fields with a given name. *)
Definition fields_keyed (field_name : string) (root : Element) : list Element :=
  filter (named field_name) (template_fields root).

(** The elements in and below a list of nodes, in document order. *)
Definition elements (cs : list Element) : list Element :=
  flat_map (fun c => map snd (walk c)) cs.

(** The keys of the template fields in and below a list of nodes. *)
Definition field_keys (cs : list Element) : list (option string) :=
  map field_key (filter is_template_field (elements cs)).

(** Every template field is a child of the root: none lies below a child. *)
Definition fields_flat (root : Element) : Prop :=
  forall c d, In c (children root) ->
              In d (elements (children c)) ->
              is_template_field d = false.

(** Every template field of the document bears a name of the run. *)
Definition all_required (required_field_names : list string) (root : Element)
    : Prop :=
  forall d, In d (template_fields root) ->
            required required_field_names d = true.

(** A change of a node that keeps its tag and attributes and the keys of
    the template fields below it. *)
Definition keeps_fields (g : Element -> Element) : Prop :=
  forall e, tag (g e) = tag e /\ attrib (g e) = attrib e
            /\ field_keys (children (g e)) = field_keys (children e).

(** ** What stays of the document

    The children of the root that are no template fields, and the nodes a
    run builds, in the order of its records. *)

Definition other_children (root : Element) : list Element :=
  filter (fun c => negb (is_template_field c)) (children root).

Definition created_fields (field_updates_dicts : dict (dict string)) : list Element :=
  map (fun kv => create_field_element (fst kv) (snd kv)) field_updates_dicts.

(** The same node but for its children. *)
Definition same_node (e e' : Element) : Prop :=
  tag e' = tag e /\ attrib e' = attrib e /\ text e' = text e.

(** ** Reading the Analysis node back *)

(** The test of [find('.//Analysis[@name="FUSE_run"]')]. *)
Definition is_analysis (e : Element) : bool :=
  String.eqb (tag e) "Analysis" && named "FUSE_run" e.

(** [analysis.find('A[@name="..."]').text], if there is such a child. *)
Definition read_setting (key : string) (analysis : Element) : option (option string) :=
  match find_setting key (children analysis) with
  | Some i => option_map text (nth_error (children analysis) i)
  | None => None
  end.

(** The Analysis node holds the group marker and reads the fixed settings. *)
Definition settled (analysis : Element) : Prop :=
  group_exists analysis = true
  /\ forall key value, In (key, value) analysis_updates ->
                       read_setting key analysis = Some (Some value).

(** The first Analysis node of a walk. *)
Definition first_analysis (l : list (ref * Element)) : option (ref * Element) :=
  hd_error (filter (fun re => is_analysis (snd re)) l).

(** No Analysis node of the run lies in or below a template field that is
    a child of the root. *)
Definition analysis_outside_fields (root : Element) : Prop :=
  forall c d, In c (children root) -> is_template_field c = true ->
              In d (elements [c]) -> is_analysis d = false.

(** ** export_name_api

    The loop that collects the two rows; writing them out as a CSV file is
    left to pandas. *)

(** One pass of the loop: the texts of the children [A] named [name] and
    [API], when the field has both. *)
Definition collect_name_api (rows : list (option string) * list (option string))
    (field : Element) : list (option string) * list (option string) :=
  match read_setting "name" field, read_setting "API" field with
  | Some name_text, Some api_text =>
      (fst rows ++ [name_text], snd rows ++ [api_text])
  | _, _ => rows
  end.

(** The lists [names] and [apis] when the loop is over. *)
Definition export_rows (root : Element) : list (option string) * list (option string) :=
  fold_left collect_name_api (template_fields root) ([], []).

(** What the records of a run hold under [name] and [API], for the records
    that hold both. *)
Definition run_name_api (field_updates_dicts : dict (dict string))
    : list (string * string) :=
  flat_map (fun kv => match dict_get "name" (snd kv), dict_get "API" (snd kv) with
                      | Some n, Some a => [(n, a)]
                      | _, _ => []
                      end)
           field_updates_dicts.

(** ** The loop over the columns of the sheet (lines 232-272 of [main])

    The cell of row 3 names the field.  A name that is not missing is a
    text, which is its own [str] and is the key of the record. *)

Section Columns.

Context {A : Type} `{PyCell A}.

(** [df.iloc[row, col]]: one cell, [IndexError] outside the sheet. *)
Definition iloc_cell (sheet : DataFrame A) (row col : nat) : result A :=
  if (row <? nrows sheet) && (col <? ncols sheet) then Ok (cell sheet row col)
  else Raise IndexError.

(** ['Field ' + str(500 + i)]. *)
Definition numbered_name (i : nat) : string :=
  String.append "Field " (str_of_int (Z.of_nat (500 + i))).

(** The body of the loop: the counter of unnamed columns and the records
    gathered so far. *)
Definition column_step (sheet : DataFrame A)
    (st : result (nat * dict (dict (value A)))) (col : nat)
    : result (nat * dict (dict (value A))) :=
  s <- st ;;
  field_name <- iloc_cell sheet 3 col ;;
  let i := if isna field_name then fst s + 1 else fst s in
  let field_name :=
    if isna field_name then numbered_name i else py_str field_name in
  record <- process_column sheet col ;;
  match record with
  | Some field_updates => Ok (i, dict_set field_name field_updates (snd s))
  | None => Ok (i, snd s)
  end.

(** [for col in range(7, df.shape[1])]. *)
Definition collect_columns (sheet : DataFrame A) : result (dict (dict (value A))) :=
  s <- fold_left (column_step sheet) (seq 7 (ncols sheet - 7)) (Ok (0, [])) ;;
  Ok (snd s).

(** The records as [create_field_element] reads them, when every value is a
    string. *)
Fixpoint records_strings (recs : dict (dict (value A)))
    : option (dict (dict string)) :=
  match recs with
  | [] => Some []
  | (n, fu) :: recs' =>
      match record_strings fu, records_strings recs' with
      | Some rec, Some rs => Some ((n, rec) :: rs)
      | _, _ => None
      end
  end.

End Columns.

(** The names a record keeps of the first [n] parameters. *)
Definition kept_parameters (n : nat) : list string :=
  filter (fun k => negb (in_list k variables_to_remove)) (firstn n parameters).

(** No string occurs twice. *)
Fixpoint distinct (l : list string) : bool :=
  match l with
  | [] => true
  | k :: l' => negb (in_list k l') && distinct l'
  end.

(** ** remove_excessive_newlines *)

Definition newline : ascii := "010"%char.

(** White space as [str.strip()] knows it, for the characters below 256. *)
Definition is_py_space (c : ascii) : bool :=
  let n := nat_of_ascii c in
  ((9 <=? n) && (n <=? 13)) || ((28 <=? n) && (n <=? 32))
  || (n =? 133) || (n =? 160).

Fixpoint str_lstrip (s : string) : string :=
  match s with
  | String c s' => if is_py_space c then str_lstrip s' else s
  | EmptyString => EmptyString
  end.

Fixpoint str_rstrip (s : string) : string :=
  match s with
  | EmptyString => EmptyString
  | String c s' =>
      match str_rstrip s' with
      | EmptyString => if is_py_space c then EmptyString else String c EmptyString
      | t => String c t
      end
  end.

(** [line.strip()]. *)
Definition str_strip (s : string) : string := str_rstrip (str_lstrip s).

(** [xml_str.split('\n')]: the line that is open, and the lines after it. *)
Fixpoint split_lines (s : string) : string * list string :=
  match s with
  | EmptyString => (EmptyString, [])
  | String c s' =>
      let (line, lines) := split_lines s' in
      if Ascii.eqb c newline then (EmptyString, line :: lines)
      else (String c line, lines)
  end.

Definition split_newline (s : string) : list string :=
  let (line, lines) := split_lines s in line :: lines.

(** ['\n'.join(lines)]. *)
Fixpoint join_newline (lines : list string) : string :=
  match lines with
  | [] => EmptyString
  | [line] => line
  | line :: lines' => String.append line (String newline (join_newline lines'))
  end.

Definition not_blank (line : string) : bool :=
  negb (String.eqb (str_strip line) "").

Definition remove_excessive_newlines (xml_str : string) : string :=
  let lines := split_newline xml_str in
  let filtered_lines := filter not_blank lines in
  join_newline filtered_lines.

Fixpoint no_newline (s : string) : bool :=
  match s with
  | EmptyString => true
  | String c s' => negb (Ascii.eqb c newline) && no_newline s'
  end.

(** ** Inputs on which the model follows the interpreter *)

(** The header cells of the field columns are missing or texts without a
    double quote: such a cell is its own [str], as a key of the records and
    in the path of [root.find]. *)
Definition header_plain (sheet : DataFrame xl_cell) : bool :=
  forallb (fun col => match cell sheet 3 col with
                      | NaN => true
                      | Text s => no_double_quote s
                      | Int _ => false
                      end)
          (seq 7 (ncols sheet - 7)).

Fixpoint all_ascii (s : string) : bool :=
  match s with
  | EmptyString => true
  | String c s' => (nat_of_ascii c <? 128) && all_ascii s'
  end.

(** Strings of which [isdigit()] holds only when they are made of the
    digits 0 to 9, and which [int()] then reads: ASCII text of at most 4300
    characters, the interpreter's limit on the digits of an integer
    string. *)
Definition int_reads (s : string) : bool :=
  all_ascii s && (String.length s <=? 4300).

(** The positions of the parameters that have a table of codes:
    [flood_gas_type], [upgrader_type] and [gas_processing_path]. *)
Definition coded_slots : list nat := [34; 46; 47].

(** ** Sample inputs *)

Definition labels_record : dict (value xl_cell) :=
  [ ("upgrader_type", VStr "2");
    ("ecosystem_richness", VList [Int 0; Int 0; Int 1]);
    ("field_development_intensity", VList [Int 1; Int 0; Int 0]) ].

Definition codes_record : dict (value xl_cell) :=
  [ ("flood_gas_type", VStr "2.0");
    ("upgrader_type", VStr "2");
    ("gas_processing_path", VStr "-2");
    ("ecosystem_richness", VList [Int 0; Int 1; Int 0]) ].

Definition codes_converted : dict (value xl_cell) :=
  [ ("flood_gas_type", VStr "2.0");
    ("upgrader_type", VStr "Hydroconvention");
    ("gas_processing_path", VStr "-2");
    ("ecosystem_richness", VStr "Med carbon") ].

(** A sheet of [n] rows and 8 columns whose cell in row [r] holds the
    integer [r], but for one missing cell, a code under [upgrader_type] and
    the two one-hot groups (rows 91-93 and 95-97 of the sheet's data). *)
Definition sample_cell (r c : nat) : xl_cell :=
  if (r =? 92) || (r =? 94) then Int 1
  else if (90 <=? r) && (r <=? 96) then Int 0
  else if r =? 20 then NaN
  else if r =? 70 then Int 2
  else Int (Z.of_nat r).

Definition sample_sheet (n : nat) : DataFrame xl_cell :=
  {| nrows := n; ncols := 8; cell := sample_cell |}.

(** Raw values that name their own position. *)
Definition numbered_values : list nat := seq 0 69.

Definition old_field (field_name api : string) : Element :=
  Elem "Field" [("name", field_name); ("modifies", "template")] None
       [Elem "Group" [] (Some "all") []; Elem "A" [("name", "API")] (Some api) []].

Definition analysis_node : Element :=
  Elem "Analysis" [("name", "FUSE_run")] None [Elem "Group" [] (Some "all") []].

(** A document written by an earlier run. *)
Definition sample_document : Element :=
  Elem "Model" [] None
       [ analysis_node; old_field "Alpha" "30"; old_field "Beta" "31";
         old_field "Gamma" "32" ].

(** A document in which two field nodes share the key [Alpha]. *)
Definition duplicated_document : Element :=
  Elem "Model" [] None
       [ analysis_node; old_field "Alpha" "30"; old_field "Alpha" "31" ].

(** A document with a template field below a node that is not the root. *)
Definition nested_document : Element :=
  Elem "Model" [] None
       [ analysis_node; Elem "Archive" [] None [old_field "Gamma" "32"] ].

Definition sample_records : dict (dict string) :=
  [ ("Beta", [("API", "35"); ("GOR", "0")]);
    ("Alpha", [("API", "36"); ("heater_treater", "1")]) ].

(** A document without an Analysis node, and one whose Analysis node lacks
    a setting. *)
Definition bare_document : Element := Elem "Model" [] None [old_field "Alpha" "30"].

Definition partial_document : Element :=
  Elem "Model" [] None
       [ Elem "Library" [] None
              [ Elem "Analysis" [("name", "FUSE_run")] None
                     [ Elem "A" [("name", "GWP_horizon")] (Some "20") [] ] ];
         old_field "Beta" "31" ].


(** ** Further sample inputs *)

(** A record whose one-hot list holds two elements equal to 1. *)
Definition two_ones_record : dict (value xl_cell) :=
  [ ("ecosystem_richness", VList [Int 1; Int 1; Int 0]) ].

(** The values of column 7 of a sheet of 120 rows. *)
Definition sample_values : list xl_cell :=
  match extract_field_data (sample_sheet 120) 7 with
  | Ok data => data
  | Raise _ => []
  end.

(** A column whose only cells lie in the raw slots 52 to 55. *)
Definition slots_only_values : list xl_cell :=
  repeat NaN 52 ++ repeat (Int 1) 4 ++ repeat NaN 13.

(** A sheet with two field columns: the first is named [Alpha], the second
    has no name. *)
Definition named_cell (r c : nat) : xl_cell :=
  if r =? 3 then (if c =? 7 then Text "Alpha" else NaN) else sample_cell r c.

Definition named_sheet (n : nat) : DataFrame xl_cell :=
  {| nrows := n; ncols := 9; cell := named_cell |}.

(** A sheet without field columns. *)
Definition narrow_sheet : DataFrame xl_cell :=
  {| nrows := 120; ncols := 7; cell := sample_cell |}.

(** Records with and without the names [name] and [API]. *)
Definition named_records : dict (dict string) :=
  [ ("Beta", [("name", "Beta"); ("API", "35")]);
    ("Alpha", [("name", "Alpha"); ("API", "36"); ("GOR", "0")]);
    ("Delta", [("API", "40")]) ].

(** An Analysis node with a setting the run does not name. *)
Definition custom_analysis : Element :=
  Elem "Analysis" [("name", "FUSE_run")] None
       [ Elem "A" [("name", "boundary")] (Some "Field") [] ].

(** A document whose Analysis node lies within a field node. *)
Definition buried_document : Element :=
  Elem "Model" [] None
       [ Elem "Field" [("name", "Alpha"); ("modifies", "template")] None
              [analysis_node] ].

(** A text with blank lines, and one without. *)
Definition spaced_text : string :=
  join_newline ["<Model>"; "   "; ""; "    <Field/>"; "</Model>"; ""].

Definition dense_text : string :=
  join_newline ["<Model>"; "    <Field/>"; "</Model>"].
(** * Properties *)

Unset Implicit Arguments.

(** ** Extraction: proofs *)

Section ExtractionFacts.

Context {A : Type}.
Variable sheet : DataFrame A.
Variable col : nat.
Hypothesis col_in_sheet : col < ncols sheet.

Lemma iloc_slice_in_sheet (start stop : nat) :
  iloc_slice sheet start stop col = Ok (iloc_rows sheet start stop col).
Proof using col_in_sheet.
  unfold iloc_slice.
  destruct (Nat.ltb_spec col (ncols sheet)) as [_ | Hge]; [reflexivity | lia].
Qed.

Lemma iloc_rows_length (start stop : nat) :
  length (iloc_rows sheet start stop col) = Nat.min stop (nrows sheet) - start.
Proof.
  unfold iloc_rows. now rewrite length_map, length_seq.
Qed.

Lemma extend_ranges_ok (rs : list (nat * nat)) (acc : list A) :
  fold_left (extend_range sheet col) rs (Ok acc)
  = Ok (acc ++ flat_map (fun rg => iloc_rows sheet (fst rg - 1) (snd rg) col) rs).
Proof using col_in_sheet.
  revert acc.
  induction rs as [| rg rs IH]; intros acc; cbn [fold_left flat_map].
  - now rewrite app_nil_r.
  - replace (extend_range sheet col (Ok acc) rg)
      with (Ok (acc ++ iloc_rows sheet (fst rg - 1) (snd rg) col)).
    + rewrite IH. now rewrite <- app_assoc.
    + unfold extend_range. simpl. now rewrite iloc_slice_in_sheet.
Qed.

Lemma flat_rows_length (rs : list (nat * nat)) :
  length (flat_map (fun rg => iloc_rows sheet (fst rg - 1) (snd rg) col) rs)
  = list_sum (map (range_got (nrows sheet)) rs).
Proof.
  induction rs as [| rg rs IH]; simpl; [reflexivity |].
  rewrite length_app, iloc_rows_length, IH. reflexivity.
Qed.

Lemma extract_field_data_ok :
  exists data, extract_field_data sheet col = Ok data
               /\ length data = extraction_length (nrows sheet).
Proof using col_in_sheet.
  unfold extract_field_data. rewrite extend_ranges_ok.
  eexists. split; [reflexivity |].
  cbn [app]. apply flat_rows_length.
Qed.

End ExtractionFacts.

Lemma schema_length_69 : schema_length = 69.
Proof. reflexivity. Qed.

Lemma ranges_end_le (rg : nat * nat) : In rg ranges -> snd rg <= 114.
Proof.
  unfold ranges. intros Hin.
  repeat (destruct Hin as [<- | Hin]; [simpl; lia |]).
  destruct Hin.
Qed.

Lemma extraction_length_full (n : nat) :
  114 <= n -> extraction_length n = schema_length.
Proof.
  intros H. unfold extraction_length, schema_length. f_equal.
  apply map_ext_in. intros rg Hin. apply ranges_end_le in Hin.
  unfold range_got, range_size. now rewrite Nat.min_l by lia.
Qed.

Lemma ranges_count : length ranges = 15.
Proof. reflexivity. Qed.

(** C8: for a column of a sheet whose rows cover the 15 ranges,
    [extract_field_data] returns a list of 69 values, the sum of the range
    sizes, whatever the cells hold (the type of the cells is arbitrary). *)
Theorem extract_field_data_length {A : Type} (sheet : DataFrame A) (col : nat) :
  col < ncols sheet ->
  114 <= nrows sheet ->
  exists data, extract_field_data sheet col = Ok data
               /\ length data = schema_length
               /\ schema_length = 69
               /\ length ranges = 15.
Proof.
  intros Hcol Hrows.
  destruct (extract_field_data_ok sheet col Hcol) as [data [Hd Hl]].
  exists data. split; [exact Hd |].
  split; [| split; [exact schema_length_69 | exact ranges_count]].
  rewrite Hl. now apply extraction_length_full.
Qed.

Lemma extract_field_data_length_witness :
  7 < ncols (sample_sheet 120) /\ 114 <= nrows (sample_sheet 120)
  /\ exists data, extract_field_data (sample_sheet 120) 7 = Ok data
                  /\ length data = 69.
Proof.
  assert (Hcol : 7 < ncols (sample_sheet 120)) by (vm_compute; lia).
  assert (Hrows : 114 <= nrows (sample_sheet 120)) by (vm_compute; lia).
  split; [exact Hcol | split; [exact Hrows |]].
  destruct (extract_field_data_length (sample_sheet 120) 7 Hcol Hrows)
    as [data [Hd [Hl [H69 _]]]].
  exists data. split; [exact Hd | now rewrite Hl].
Defined.

(** ** Dictionaries *)

Section DictFacts.

Context {V : Type}.

Lemma dict_get_set_same (k : string) (v : V) (d : dict V) :
  dict_get k (dict_set k v d) = Some v.
Proof.
  induction d as [| [k' v'] d IH]; simpl.
  - now rewrite String.eqb_refl.
  - destruct (String.eqb k k') eqn:E; simpl; rewrite E; [reflexivity | exact IH].
Qed.

Lemma dict_get_set_other (k k' : string) (v : V) (d : dict V) :
  k <> k' -> dict_get k (dict_set k' v d) = dict_get k d.
Proof.
  intros Hne.
  induction d as [| [k0 v0] d IH]; simpl.
  - destruct (String.eqb_spec k k'); [contradiction | reflexivity].
  - destruct (String.eqb_spec k' k0) as [-> | Hk0]; simpl.
    + destruct (String.eqb_spec k k0); [contradiction | reflexivity].
    + destruct (String.eqb_spec k k0); [reflexivity | exact IH].
Qed.

Lemma dict_get_del_other (k k' : string) (d : dict V) :
  k <> k' -> dict_get k (dict_del k' d) = dict_get k d.
Proof.
  intros Hne. unfold dict_del.
  induction d as [| [k0 v0] d IH]; simpl; [reflexivity |].
  destruct (String.eqb_spec k' k0) as [-> | Hk0]; simpl.
  - destruct (String.eqb_spec k k0); [contradiction | exact IH].
  - destruct (String.eqb_spec k k0); [reflexivity | exact IH].
Qed.

Lemma dict_get_del_same (k : string) (d : dict V) :
  dict_get k (dict_del k d) = None.
Proof.
  unfold dict_del.
  induction d as [| [k0 v0] d IH]; simpl; [reflexivity |].
  destruct (String.eqb_spec k k0) as [-> | Hk0]; simpl; [exact IH |].
  destruct (String.eqb_spec k k0); [contradiction | exact IH].
Qed.

Lemma dict_get_none_keys (k : string) (d : dict V) :
  dict_get k d = None <-> ~ In k (keys d).
Proof.
  induction d as [| [k0 v0] d IH]; simpl.
  - split; [intros _ [] | reflexivity].
  - destruct (String.eqb_spec k k0) as [-> | Hk0].
    + split; [discriminate | intros Hn; exfalso; apply Hn; now left].
    + rewrite IH. split.
      * intros Hn [Heq | Hin]; [now apply Hk0 | now apply Hn].
      * intros Hn Hin. apply Hn. now right.
Qed.

End DictFacts.

(** ** Conversions *)

Section ConversionFacts.

Context {A : Type} `{PyCell A}.

Lemma convert_key_absent (fu : dict (value A)) (key : string) (mapping : table) :
  dict_get key fu = None -> convert_key fu (key, mapping) = Ok fu.
Proof.
  intros Hget. unfold convert_key. cbn [fst snd]. now rewrite Hget.
Qed.

Lemma convert_key_raise (fu : dict (value A)) (key : string) (mapping : table)
    (v : value A) (e : exn) :
  dict_get key fu = Some v ->
  converted key mapping v = Raise e ->
  convert_key fu (key, mapping) = Raise e.
Proof.
  intros Hget. unfold convert_key, converted. cbn [fst snd]. rewrite Hget.
  destruct (in_list key one_hot_keys).
  - destruct (truthy (scan_value v)); [| discriminate].
    destruct (subscript mapping (scan_value v)); simpl; congruence.
  - destruct v as [s | l]; [| congruence].
    destruct (isdigit s); [| discriminate].
    destruct (table_get (int_of_str s) mapping); discriminate.
Qed.

Lemma convert_key_ok (fu : dict (value A)) (key : string) (mapping : table)
    (v v' : value A) :
  dict_get key fu = Some v ->
  converted key mapping v = Ok v' ->
  exists fu', convert_key fu (key, mapping) = Ok fu'
              /\ dict_get key fu' = Some v'
              /\ forall k, k <> key -> dict_get k fu' = dict_get k fu.
Proof.
  intros Hget. unfold convert_key, converted. cbn [fst snd]. rewrite Hget.
  assert (Hset : forall w, exists fu',
             Ok (dict_set key w fu) = Ok fu'
             /\ dict_get key fu' = Some w
             /\ forall k, k <> key -> dict_get k fu' = dict_get k fu).
  { intros w. eexists. split; [reflexivity | split].
    - apply dict_get_set_same.
    - intros k Hk. now apply dict_get_set_other. }
  assert (Hsame : forall w, Ok v = Ok w -> exists fu',
             Ok fu = Ok fu'
             /\ dict_get key fu' = Some w
             /\ forall k, k <> key -> dict_get k fu' = dict_get k fu).
  { intros w Hw. injection Hw as <-. exists fu. auto. }
  destruct (in_list key one_hot_keys).
  - destruct (truthy (scan_value v)); [| apply Hsame].
    destruct (subscript mapping (scan_value v)); simpl; [| discriminate].
    intros Hv. injection Hv as <-. apply Hset.
  - destruct v as [s | l]; [| discriminate].
    destruct (isdigit s); [| apply Hsame].
    destruct (table_get (int_of_str s) mapping); [| apply Hsame].
    intros Hv. injection Hv as <-. apply Hset.
Qed.

Lemma convert_key_inv (fu fu' : dict (value A)) (key : string) (mapping : table) :
  convert_key fu (key, mapping) = Ok fu' ->
  (forall k, k <> key -> dict_get k fu' = dict_get k fu)
  /\ (forall v, dict_get key fu = Some v ->
        exists v', converted key mapping v = Ok v' /\ dict_get key fu' = Some v')
  /\ (dict_get key fu = None -> fu' = fu).
Proof.
  intros Hc.
  destruct (dict_get key fu) as [v |] eqn:Hget.
  - destruct (converted key mapping v) as [v' | e] eqn:Hv.
    + destruct (convert_key_ok fu key mapping v v' Hget Hv) as [fu1 [H1 [H2 H3]]].
      rewrite Hc in H1. injection H1 as <-.
      split; [exact H3 | split; [| discriminate]].
      intros w Hw. injection Hw as <-. now exists v'.
    + rewrite (convert_key_raise fu key mapping v e Hget Hv) in Hc. discriminate.
  - rewrite (convert_key_absent fu key mapping Hget) in Hc. injection Hc as <-.
    split; [reflexivity | split; [discriminate | reflexivity]].
Qed.

Lemma conversions_after_raise (ms : dict table) (e : exn) :
  fold_left (fun r km => fu <- r ;; convert_key (A:=A) fu km) ms (Raise e) = Raise e.
Proof.
  induction ms as [| km ms IH]; simpl; [reflexivity | exact IH].
Qed.

Lemma apply_conversions_cons (fu : dict (value A)) (km : string * table)
    (ms : dict table) :
  apply_conversions fu (km :: ms)
  = (fu1 <- convert_key fu km ;; apply_conversions fu1 ms).
Proof.
  unfold apply_conversions. simpl.
  destruct (convert_key fu km) as [fu1 | e]; simpl; [reflexivity |].
  apply conversions_after_raise.
Qed.

Lemma apply_conversions_unmapped (ms : dict table) (fu fu' : dict (value A))
    (k : string) :
  apply_conversions fu ms = Ok fu' ->
  ~ In k (keys ms) ->
  dict_get k fu' = dict_get k fu.
Proof.
  revert fu.
  induction ms as [| [key m] ms IH]; intros fu Hrun Hk.
  - unfold apply_conversions in Hrun. simpl in Hrun. now injection Hrun as <-.
  - rewrite apply_conversions_cons in Hrun.
    destruct (convert_key fu (key, m)) as [fu1 | e] eqn:Hstep; [| discriminate].
    simpl in Hrun, Hk.
    apply convert_key_inv in Hstep. destruct Hstep as [Hother _].
    rewrite (IH fu1 Hrun); [| tauto].
    apply Hother. intros ->. tauto.
Qed.

Lemma apply_conversions_mapped (ms : dict table) (fu fu' : dict (value A))
    (k : string) (m : table) (v : value A) :
  NoDup (keys ms) ->
  apply_conversions fu ms = Ok fu' ->
  dict_get k ms = Some m ->
  dict_get k fu = Some v ->
  exists v', converted k m v = Ok v' /\ dict_get k fu' = Some v'.
Proof.
  revert fu.
  induction ms as [| [key m0] ms IH]; intros fu Hnd Hrun Hm Hv;
    [discriminate |].
  rewrite apply_conversions_cons in Hrun.
  destruct (convert_key fu (key, m0)) as [fu1 | e] eqn:Hstep; [| discriminate].
  simpl in Hrun, Hm, Hnd. inversion Hnd as [| ? ? Hnotin Hnd']; subst.
  apply convert_key_inv in Hstep. destruct Hstep as [Hother [Hsame _]].
  destruct (String.eqb_spec k key) as [-> | Hne].
  - injection Hm as <-.
    destruct (Hsame v Hv) as [v' [Hc Hg]].
    exists v'. split; [exact Hc |].
    now rewrite (apply_conversions_unmapped ms fu1 fu' key Hrun Hnotin).
  - apply (IH fu1 Hnd' Hrun Hm). now rewrite (Hother k Hne).
Qed.

Lemma apply_conversions_raises (ms : dict table) (fu : dict (value A))
    (k : string) (m : table) (v : value A) (e : exn) :
  NoDup (keys ms) ->
  dict_get k ms = Some m ->
  dict_get k fu = Some v ->
  converted k m v = Raise e ->
  exists e', apply_conversions fu ms = Raise e'.
Proof.
  revert fu.
  induction ms as [| [key m0] ms IH]; intros fu Hnd Hm Hv Hc; [discriminate |].
  rewrite apply_conversions_cons.
  simpl in Hm, Hnd. inversion Hnd as [| ? ? Hnotin Hnd']; subst.
  destruct (String.eqb_spec k key) as [-> | Hne].
  - injection Hm as <-.
    rewrite (convert_key_raise fu key m0 v e Hv Hc). simpl. now exists e.
  - destruct (convert_key fu (key, m0)) as [fu1 | e1] eqn:Hstep; simpl;
      [| now exists e1].
    apply convert_key_inv in Hstep. destruct Hstep as [Hother _].
    apply (IH fu1 Hnd' Hm); [| exact Hc]. now rewrite (Hother k Hne).
Qed.

Lemma scan_list_no_one (l : list A) (index : Z) (sel : selection) :
  forallb (fun val => negb (eq_one val)) l = true ->
  scan_list l index sel = sel.
Proof.
  revert index sel.
  induction l as [| val l IH]; intros index sel Hall; simpl in *; [reflexivity |].
  apply andb_true_iff in Hall. destruct Hall as [Hval Hall].
  apply negb_true_iff in Hval. rewrite Hval. now apply IH.
Qed.

End ConversionFacts.

Lemma conversion_mappings_keys : NoDup (keys conversion_mappings).
Proof.
  unfold conversion_mappings, keys. simpl.
  repeat (constructor; [simpl; intuition discriminate |]).
  constructor.
Qed.

(** ** One-hot lists *)

Section OneHot.

Context {A : Type} `{PyCell A}.

Lemma one_hot_key_cases (key : string) :
  In key one_hot_keys ->
  in_list key one_hot_keys = true
  /\ exists m, dict_get key conversion_mappings = Some m.
Proof.
  unfold one_hot_keys. intros [<- | [<- | []]]; split;
    solve [reflexivity | eexists; reflexivity].
Qed.

Lemma converted_without_one (key : string) (mapping : table) (l : list A) :
  In key one_hot_keys ->
  l <> [] ->
  forallb (fun val => negb (eq_one val)) l = true ->
  converted key mapping (VList l) = Raise TypeError.
Proof.
  intros Hkey Hne Hall.
  destruct (one_hot_key_cases key Hkey) as [Hin _].
  unfold converted. rewrite Hin. unfold scan_value.
  rewrite (scan_list_no_one l 1%Z _ Hall).
  destruct l as [| a l]; [contradiction | reflexivity].
Qed.

(** C2 (as the code behaves): a one-hot list that is not empty and holds no
    element equal to 1 is not passed through: the lookup [mapping[value]] is
    made with the list itself and raises [TypeError], so [apply_conversions]
    returns no record. *)
Theorem one_hot_without_one_raises (fu : dict (value A)) (key : string)
    (l : list A) :
  In key one_hot_keys ->
  dict_get key fu = Some (VList l) ->
  l <> [] ->
  forallb (fun val => negb (eq_one val)) l = true ->
  (forall mapping, convert_key fu (key, mapping) = Raise TypeError)
  /\ exists e, apply_conversions fu conversion_mappings = Raise e.
Proof.
  intros Hkey Hget Hne Hall. split.
  - intros mapping. apply (convert_key_raise fu key mapping (VList l)); [exact Hget |].
    now apply converted_without_one.
  - destruct (one_hot_key_cases key Hkey) as [_ [m Hm]].
    apply (apply_conversions_raises conversion_mappings fu key m (VList l) TypeError);
      [apply conversion_mappings_keys | exact Hm | exact Hget |].
    now apply converted_without_one.
Qed.

(** Only the empty list is left in place by the guard [if value:]. *)
Lemma one_hot_empty_passes (fu : dict (value A)) (key : string) (mapping : table) :
  In key one_hot_keys ->
  dict_get key fu = Some (VList []) ->
  convert_key fu (key, mapping) = Ok fu.
Proof.
  intros Hkey Hget.
  destruct (one_hot_key_cases key Hkey) as [Hin _].
  unfold convert_key. cbn [fst snd]. rewrite Hget, Hin. reflexivity.
Qed.

Lemma converted_last_of_three (key : string) (mapping : table) (l : list A)
    (label : string) :
  In key one_hot_keys ->
  map eq_one l = [false; false; true] ->
  table_get 3%Z mapping = Some label ->
  converted key mapping (VList l) = Ok (VStr label).
Proof.
  intros Hkey Hl Hlab.
  destruct (one_hot_key_cases key Hkey) as [Hin _].
  destruct l as [| a [| b [| c [| d l]]]]; try discriminate Hl.
  injection Hl as Ha Hb Hc.
  unfold converted. rewrite Hin. cbn [scan_value scan_list].
  rewrite Ha, Hb, Hc. cbn. now rewrite Hlab.
Qed.

Lemma converted_first_of_three (key : string) (mapping : table) (l : list A)
    (label : string) :
  In key one_hot_keys ->
  map eq_one l = [true; false; false] ->
  table_get 1%Z mapping = Some label ->
  converted key mapping (VList l) = Ok (VStr label).
Proof.
  intros Hkey Hl Hlab.
  destruct (one_hot_key_cases key Hkey) as [Hin _].
  destruct l as [| a [| b [| c [| d l]]]]; try discriminate Hl.
  injection Hl as Ha Hb Hc.
  unfold converted. rewrite Hin. cbn [scan_value scan_list].
  rewrite Ha, Hb, Hc. cbn. now rewrite Hlab.
Qed.

Lemma ecosystem_table_mapped :
  dict_get "ecosystem_richness" conversion_mappings = Some ecosystem_table.
Proof. reflexivity. Qed.

Lemma convert_key_label (fu : dict (value A)) (key : string) (mapping : table)
    (l : list A) (label : string) :
  dict_get key fu = Some (VList l) ->
  converted key mapping (VList l) = Ok (VStr label) ->
  convert_key fu (key, mapping) = Ok (dict_set key (VStr label) fu).
Proof.
  intros Hget. unfold convert_key, converted. cbn [fst snd]. rewrite Hget.
  destruct (in_list key one_hot_keys); [| discriminate].
  destruct (truthy (scan_value (VList l))); [| discriminate].
  destruct (subscript mapping (scan_value (VList l))); cbn [bind];
    [| discriminate].
  now intros [= <-].
Qed.

(** C7: a one-hot list under [ecosystem_richness] whose elements compare
    to 1 as those of [0,0,1] do becomes the label ['High carbon']
    (position 3 is the lookup code), and one like [1,0,0] becomes
    ['Low carbon']: the pass of [apply_conversions] over that key returns
    the record with the label in place, and every record the whole function
    returns holds it. *)
Theorem ecosystem_richness_labels (fu : dict (value A)) (l : list A)
    (label : string) :
  dict_get "ecosystem_richness" fu = Some (VList l) ->
  (map eq_one l = [false; false; true] /\ label = "High carbon")
  \/ (map eq_one l = [true; false; false] /\ label = "Low carbon") ->
  convert_key fu ("ecosystem_richness", ecosystem_table)
  = Ok (dict_set "ecosystem_richness" (VStr label) fu)
  /\ forall fu', apply_conversions fu conversion_mappings = Ok fu' ->
                 dict_get "ecosystem_richness" fu' = Some (VStr label).
Proof.
  intros Hget Hcase.
  assert (Hkey : In "ecosystem_richness" one_hot_keys) by now left.
  assert (Hconv : converted "ecosystem_richness" ecosystem_table (VList l)
                  = Ok (VStr label)).
  { destruct Hcase as [[Hl ->] | [Hl ->]].
    - now apply converted_last_of_three.
    - now apply converted_first_of_three. }
  split.
  - exact (convert_key_label fu "ecosystem_richness" ecosystem_table l label
             Hget Hconv).
  - intros fu' Hrun.
    destruct (apply_conversions_mapped conversion_mappings fu fu'
                "ecosystem_richness" ecosystem_table (VList l)
                conversion_mappings_keys Hrun ecosystem_table_mapped Hget)
      as [v' [Hv' Hg]].
    rewrite Hconv in Hv'. injection Hv' as <-. exact Hg.
Qed.

End OneHot.

Lemma one_hot_without_one_raises_witness :
  In "ecosystem_richness" one_hot_keys
  /\ apply_conversions [("ecosystem_richness", VList [Int 0; Int 0; Int 0])]
                       conversion_mappings
     = Raise TypeError
  /\ forall mapping,
       convert_key [("ecosystem_richness", VList [Int 0; Int 0; Int 0])]
                   ("ecosystem_richness", mapping)
       = Raise TypeError.
Proof.
  assert (Hkey : In "ecosystem_richness" one_hot_keys) by now left.
  split; [exact Hkey | split; [reflexivity |]].
  apply (one_hot_without_one_raises
           [("ecosystem_richness", VList [Int 0; Int 0; Int 0])]
           "ecosystem_richness" [Int 0; Int 0; Int 0] Hkey);
    [reflexivity | discriminate | reflexivity].
Defined.

Lemma ecosystem_richness_labels_witness :
  dict_get "ecosystem_richness" labels_record
  = Some (VList [Int 0; Int 0; Int 1])
  /\ apply_conversions labels_record conversion_mappings
     = Ok [ ("upgrader_type", VStr "Hydroconvention");
            ("ecosystem_richness", VStr "High carbon");
            ("field_development_intensity", VStr "Low") ]
  /\ dict_get "ecosystem_richness"
       [ ("upgrader_type", VStr "Hydroconvention");
         ("ecosystem_richness", VStr "High carbon");
         ("field_development_intensity", VStr (A:=xl_cell) "Low") ]
     = Some (VStr "High carbon").
Proof.
  split; [reflexivity | split; [reflexivity |]].
  apply (ecosystem_richness_labels labels_record [Int 0; Int 0; Int 1]
           "High carbon");
    [reflexivity | left; split; reflexivity | reflexivity].
Defined.

(** ** Scalar codes *)

Section ScalarCodes.

Context {A : Type} `{PyCell A}.

Lemma converted_scalar (key : string) (mapping : table) (s : string) :
  in_list key one_hot_keys = false ->
  converted (A:=A) key mapping (VStr s)
  = Ok (VStr (if isdigit s
              then match table_get (int_of_str s) mapping with
                   | Some label => label
                   | None => s
                   end
              else s)).
Proof.
  intros Hkey. unfold converted. rewrite Hkey.
  destruct (isdigit s); [| reflexivity].
  destruct (table_get (int_of_str s) mapping); reflexivity.
Qed.

(** C10: a scalar value is replaced only when it is a string of decimal
    digits whose integer is a key of the parameter's table, and then by the
    table's label; a string that [isdigit] rejects, such as ['2.0'] or
    ['-2'], is returned as it was. *)
Theorem scalar_replaced_only_if_digits (fu fu' : dict (value A)) (key s : string) :
  apply_conversions fu conversion_mappings = Ok fu' ->
  dict_get key fu = Some (VStr s) ->
  in_list key one_hot_keys = false ->
  exists s',
    dict_get key fu' = Some (VStr s')
    /\ (s' <> s ->
        isdigit s = true
        /\ exists mapping, dict_get key conversion_mappings = Some mapping
                           /\ table_get (int_of_str s) mapping = Some s')
    /\ (forall mapping label,
          dict_get key conversion_mappings = Some mapping ->
          isdigit s = true ->
          table_get (int_of_str s) mapping = Some label ->
          s' = label)
    /\ (isdigit s = false -> s' = s)
    /\ (s = "2.0" \/ s = "-2" -> s' = s).
Proof.
  intros Hrun Hget Hkey.
  assert (Hnodigit : s = "2.0" \/ s = "-2" -> isdigit s = false).
  { intros [-> | ->]; reflexivity. }
  destruct (dict_get key conversion_mappings) as [m |] eqn:Hm.
  - destruct (apply_conversions_mapped conversion_mappings fu fu' key m (VStr s)
                conversion_mappings_keys Hrun Hm Hget) as [v' [Hv' Hg]].
    rewrite (converted_scalar key m s Hkey) in Hv'. injection Hv' as <-.
    eexists. split; [exact Hg |].
    assert (Hno : isdigit s = false ->
                  (if isdigit s
                   then match table_get (int_of_str s) m with
                        | Some label => label
                        | None => s
                        end
                   else s) = s).
    { intros Hd. now rewrite Hd. }
    split; [| split; [| split]].
    + destruct (isdigit s); [| intros Hne; now contradiction Hne].
      destruct (table_get (int_of_str s) m) as [label |] eqn:Hl;
        [| intros Hne; now contradiction Hne].
      intros _. split; [reflexivity |]. exists m. now split.
    + intros mapping label Hmap Hd Hl. injection Hmap as <-.
      now rewrite Hd, Hl.
    + exact Hno.
    + intros Hs. apply Hno. now apply Hnodigit.
  - apply dict_get_none_keys in Hm.
    rewrite <- (apply_conversions_unmapped conversion_mappings fu fu' key Hrun Hm)
      in Hget.
    exists s. split; [exact Hget |].
    repeat split; try congruence; try contradiction; discriminate.
Qed.

End ScalarCodes.

Lemma scalar_replaced_only_if_digits_witness :
  apply_conversions codes_record conversion_mappings = Ok codes_converted
  /\ exists s', dict_get "flood_gas_type" codes_converted = Some (VStr s')
                /\ s' = "2.0".
Proof.
  assert (Hrun : apply_conversions codes_record conversion_mappings
                 = Ok codes_converted) by reflexivity.
  split; [exact Hrun |].
  destruct (scalar_replaced_only_if_digits codes_record codes_converted
              "flood_gas_type" "2.0" Hrun eq_refl eq_refl)
    as [s' [Hg [_ [_ [_ Hsame]]]]].
  exists s'. split; [exact Hg | apply Hsame; now left].
Defined.

(** ** The GOR and WOR fixup *)

Lemma epsilon_not_zero :
  float_of_str epsilon = Some (PDec false 1 (-5))
  /\ is_zero (PDec false 1 (-5)) = false.
Proof. split; vm_compute; reflexivity. Qed.

Lemma written_value_gor_wor (key value : string) :
  In key ["GOR"; "WOR"] ->
  written_value key value
  = match float_of_str value with
    | Some f => if is_zero f then epsilon else value
    | None => epsilon
    end.
Proof.
  intros [<- | [<- | []]]; unfold written_value; cbn [in_list existsb String.eqb];
    simpl; destruct (float_of_str value); reflexivity.
Qed.

Lemma written_value_not_zero (key value : string) :
  In key ["GOR"; "WOR"] ->
  exists f, float_of_str (written_value key value) = Some f /\ is_zero f = false.
Proof.
  intros Hkey. rewrite (written_value_gor_wor key value Hkey).
  destruct (float_of_str value) as [f |] eqn:Hf.
  - destruct (is_zero f) eqn:Hz.
    + eexists. exact epsilon_not_zero.
    + exists f. now split.
  - eexists. exact epsilon_not_zero.
Qed.

Lemma field_children_gor_wor (key value : string) :
  In key ["GOR"; "WOR"] ->
  field_children key value = [a_element key (written_value key value)].
Proof.
  intros [<- | [<- | []]]; reflexivity.
Qed.

Lemma field_children_leaf (k v : string) (e : Element) :
  In e (field_children k v) ->
  tag e = "A" ->
  e = a_element k (written_value k v).
Proof.
  unfold field_children.
  destruct (in_list k ["fraction_diluent"; "heater_treater"]).
  - intros [<- | [<- | []]]; discriminate.
  - intros [<- | []]. reflexivity.
Qed.

(** C1: in the node built from a record, the leaf written for [GOR] or
    [WOR] holds the constant ['0.00001'] when the record's string does not
    read as a float or reads as zero, and the record's string otherwise; the
    text of every such leaf reads as a float that is not zero. *)
Theorem gor_wor_never_zero (field_name : string) (field_updates : dict string)
    (key : string) :
  In key ["GOR"; "WOR"] ->
  (forall value, In (key, value) field_updates ->
     In (a_element key
           (match float_of_str value with
            | Some f => if is_zero f then "0.00001" else value
            | None => "0.00001"
            end))
        (children (create_field_element field_name field_updates)))
  /\ (forall e,
        In e (children (create_field_element field_name field_updates)) ->
        tag e = "A" ->
        get e "name" = Some key ->
        exists value written f,
          In (key, value) field_updates
          /\ text e = Some written
          /\ written = match float_of_str value with
                       | Some f => if is_zero f then "0.00001" else value
                       | None => "0.00001"
                       end
          /\ float_of_str written = Some f
          /\ is_zero f = false).
Proof.
  intros Hkey. split.
  - intros value Hin. cbn [create_field_element children]. right.
    apply in_flat_map. exists (key, value). split; [exact Hin |].
    cbn [fst snd]. rewrite (field_children_gor_wor key value Hkey).
    rewrite (written_value_gor_wor key value Hkey). now left.
  - intros e Hin Htag Hname.
    cbn [create_field_element children] in Hin.
    destruct Hin as [<- | Hin]; [discriminate |].
    apply in_flat_map in Hin. destruct Hin as [[k v] [Hkv He]].
    cbn [fst snd] in He.
    apply field_children_leaf in He; [| exact Htag]. subst e.
    unfold get in Hname. simpl in Hname. injection Hname as ->.
    destruct (written_value_not_zero key v Hkey) as [f [Hf Hz]].
    exists v, (written_value key v), f.
    split; [exact Hkv | split; [reflexivity | split; [| now split]]].
    apply (written_value_gor_wor key v Hkey).
Qed.

Lemma gor_wor_never_zero_witness :
  In "GOR" ["GOR"; "WOR"]
  /\ In (a_element "GOR" "0.00001")
        (children (create_field_element "Field 501"
                     [("API", "32"); ("GOR", "0.0"); ("WOR", "1.5")])).
Proof.
  split; [now left |].
  apply (proj1 (gor_wor_never_zero "Field 501"
                  [("API", "32"); ("GOR", "0.0"); ("WOR", "1.5")] "GOR"
                  (or_introl eq_refl)) "0.0").
  right. now left.
Defined.

(** ** Slices and pops *)

Section Pops.

Context {A : Type}.

Lemma pop_in_range (v : list A) (i : nat) :
  i < length v -> pop v i = Ok (firstn i v ++ skipn (S i) v).
Proof.
  intros Hi. unfold pop.
  destruct (Nat.ltb_spec i (length v)); [reflexivity | lia].
Qed.

Lemma pop_out_of_range (v : list A) (i : nat) :
  length v <= i -> pop v i = Raise IndexError.
Proof.
  intros Hi. unfold pop.
  destruct (Nat.ltb_spec i (length v)); [lia | reflexivity].
Qed.

(** Popping just below a gap widens the gap. *)
Lemma pop_cut (v : list A) (i j : nat) :
  i < j -> j <= length v ->
  pop (firstn (S i) v ++ skipn j v) i = Ok (firstn i v ++ skipn j v).
Proof.
  intros Hij Hj.
  assert (Hlen : length (firstn (S i) v) = S i) by (rewrite length_firstn; lia).
  rewrite pop_in_range by (rewrite length_app, Hlen; lia).
  f_equal. f_equal.
  - rewrite firstn_app, Hlen, firstn_firstn.
    replace (i - S i) with 0 by lia.
    replace (Nat.min i (S i)) with i by lia.
    cbn [firstn]. now rewrite app_nil_r.
  - rewrite skipn_app, Hlen.
    rewrite (skipn_all2 (n := S i) (firstn (S i) v)) by lia.
    replace (S i - S i) with 0 by lia. reflexivity.
Qed.

Lemma sorted_reverse_indexes : sorted_reverse indexes_to_pop = [55; 54; 53; 52].
Proof. reflexivity. Qed.

Lemma pop_special_ok (values : list A) :
  56 <= length values ->
  pop_special values = Ok (firstn 52 values ++ skipn 56 values).
Proof.
  intros Hlen. unfold pop_special. rewrite sorted_reverse_indexes.
  cbn [fold_left bind].
  rewrite (pop_in_range values 55) by lia. cbn [bind].
  rewrite (pop_cut values 54 56) by lia. cbn [bind].
  rewrite (pop_cut values 53 56) by lia. cbn [bind].
  rewrite (pop_cut values 52 56) by lia. reflexivity.
Qed.

Lemma pop_special_short (values : list A) :
  length values < 56 -> pop_special values = Raise IndexError.
Proof.
  intros Hlen. unfold pop_special. rewrite sorted_reverse_indexes.
  cbn [fold_left bind].
  rewrite (pop_out_of_range values 55) by lia. reflexivity.
Qed.

Lemma slice_nth (values : list A) (a b i : nat) :
  i < b - a -> nth_error (slice values a b) i = nth_error values (a + i).
Proof.
  intros Hi. unfold slice.
  rewrite nth_error_firstn.
  destruct (Nat.ltb_spec i (b - a)); [| lia].
  now rewrite nth_error_skipn.
Qed.

Lemma slice_length (values : list A) (a b : nat) :
  b <= length values -> length (slice values a b) = b - a.
Proof.
  intros Hb. unfold slice. rewrite length_firstn, length_skipn. lia.
Qed.

Lemma popped_nth_low (values : list A) (j : nat) :
  56 <= length values -> j < 52 ->
  nth_error (firstn 52 values ++ skipn 56 values) j = nth_error values j.
Proof.
  intros Hlen Hj.
  rewrite nth_error_app1 by (rewrite length_firstn; lia).
  rewrite nth_error_firstn.
  destruct (Nat.ltb_spec j 52); [reflexivity | lia].
Qed.

Lemma popped_nth_high (values : list A) (j : nat) :
  56 <= length values -> 52 <= j ->
  nth_error (firstn 52 values ++ skipn 56 values) j = nth_error values (j + 4).
Proof.
  intros Hlen Hj.
  assert (Hl : length (firstn 52 values) = 52) by (rewrite length_firstn; lia).
  rewrite nth_error_app2 by lia.
  rewrite Hl, nth_error_skipn. f_equal. lia.
Qed.

End Pops.

(** ** The one-hot slots of a column *)

Section Slots.

Context {A : Type} `{PyCell A}.

Lemma dict_get_after_removal {V : Type} (k : string) (vars : list string)
    (d : dict V) :
  ~ In k vars ->
  dict_get k (fold_left (fun d var => dict_del var d) vars d) = dict_get k d.
Proof.
  revert d.
  induction vars as [| var vars IH]; intros d Hk; cbn [fold_left];
    [reflexivity |].
  rewrite IH by (intros Hin; apply Hk; now right).
  apply dict_get_del_other. intros ->. apply Hk. now left.
Qed.

Lemma assemble_lists (eco fdi values : list A) :
  dict_get "ecosystem_richness" (assemble eco fdi values) = Some (VList eco)
  /\ dict_get "field_development_intensity" (assemble eco fdi values)
     = Some (VList fdi).
Proof.
  unfold assemble. split.
  - rewrite dict_get_after_removal
      by (unfold variables_to_remove; simpl; intuition discriminate).
    rewrite dict_get_set_other by discriminate.
    apply dict_get_set_same.
  - rewrite dict_get_after_removal
      by (unfold variables_to_remove; simpl; intuition discriminate).
    apply dict_get_set_same.
Qed.

(** C3 (as the code behaves): each one-hot list is made of three
    consecutive raw positions, 51-53 and 54-56; the four positions 52-55
    leave the sequence before the zip, so that raw positions 51 and 56
    remain and meet the names [ecosystem_richness] and
    [field_development_intensity], where the record then receives the two
    lists in their place. *)
Theorem one_hot_lists_three_slots (values : list A) :
  57 <= length values ->
  let eco := slice values 51 54 in
  let fdi := slice values 54 57 in
  length eco = 3 /\ length fdi = 3
  /\ (forall i, i < 3 -> nth_error eco i = nth_error values (51 + i))
  /\ (forall i, i < 3 -> nth_error fdi i = nth_error values (54 + i))
  /\ exists popped,
       pop_special values = Ok popped
       /\ length popped = length values - 4
       /\ (forall j, j < 52 -> nth_error popped j = nth_error values j)
       /\ (forall j, 52 <= j -> nth_error popped j = nth_error values (j + 4))
       /\ nth_error parameters 51 = Some "ecosystem_richness"
       /\ nth_error parameters 52 = Some "field_development_intensity"
       /\ dict_get "ecosystem_richness" (assemble eco fdi popped)
          = Some (VList eco)
       /\ dict_get "field_development_intensity" (assemble eco fdi popped)
          = Some (VList fdi).
Proof.
  intros Hlen eco fdi.
  split; [apply slice_length; lia |].
  split; [apply slice_length; lia |].
  split; [intros i Hi; apply slice_nth; lia |].
  split; [intros i Hi; apply slice_nth; lia |].
  exists (firstn 52 values ++ skipn 56 values).
  split; [apply pop_special_ok; lia |].
  split; [rewrite length_app, length_firstn, length_skipn; lia |].
  split; [intros j Hj; apply popped_nth_low; lia |].
  split; [intros j Hj; apply popped_nth_high; lia |].
  split; [reflexivity |].
  split; [reflexivity |].
  apply assemble_lists.
Qed.

End Slots.

Lemma one_hot_lists_three_slots_witness :
  57 <= length (map (fun n => Int (Z.of_nat n)) numbered_values)
  /\ length (slice (map (fun n => Int (Z.of_nat n)) numbered_values) 51 54) = 3.
Proof.
  split; [vm_compute; lia |].
  apply (one_hot_lists_three_slots
           (map (fun n => Int (Z.of_nat n)) numbered_values)).
  vm_compute. lia.
Defined.

(** C3 as stated fails on a sequence of 69 numbered values: the lists hold
    three values each, and the values of positions 51 and 56, which belong
    to the lists, are still in the sequence that is zipped. *)
Lemma one_hot_lists_not_four_slots :
  exists popped,
    pop_special numbered_values = Ok popped
    /\ slice numbered_values 51 54 = [51; 52; 53]
    /\ slice numbered_values 54 57 = [54; 55; 56]
    /\ In 51 popped /\ In 56 popped
    /\ ~ four_slot_lists numbered_values (slice numbered_values 51 54)
                         (slice numbered_values 54 57) popped.
Proof.
  eexists. split; [reflexivity |].
  split; [reflexivity |]. split; [reflexivity |].
  split; [vm_compute; tauto |]. split; [vm_compute; tauto |].
  intros [Hfour _]. vm_compute in Hfour. discriminate.
Qed.

(** ** Sheets shorter than the row ranges *)

Lemma extraction_length_mono (n m : nat) :
  n <= m -> extraction_length n <= extraction_length m.
Proof.
  intros Hnm. unfold extraction_length.
  induction ranges as [| rg rs IH]; cbn [map list_sum fold_right]; [lia |].
  assert (range_got n rg <= range_got m rg) by (unfold range_got; lia).
  unfold list_sum in IH. lia.
Qed.

Lemma extraction_length_marks :
  extraction_length 113 = 68 /\ extraction_length 95 = 55
  /\ extraction_length 96 = 56.
Proof. repeat split; reflexivity. Qed.

Section ShortSheets.

Context {A : Type} `{PyCell A}.

(** C9 (as the code behaves): a row range that reaches beyond the sheet
    does not make [extract_field_data] fail; the slice is cut to the rows
    there are and the result is shorter than the schema.  The column's
    processing then stops with [IndexError], at [values.pop], exactly when
    the sheet has fewer than 96 rows; from 96 rows on the pops succeed and
    the shortened values go on to the zip. *)
Theorem short_sheet_extraction (sheet : DataFrame A) (col : nat) :
  col < ncols sheet ->
  exists data,
    extract_field_data sheet col = Ok data
    /\ length data = extraction_length (nrows sheet)
    /\ ((exists rg, In rg ranges /\ nrows sheet < snd rg) ->
        length data < schema_length)
    /\ (nrows sheet < 96 ->
        pop_special data = Raise IndexError
        /\ process_column sheet col = Raise IndexError)
    /\ (96 <= nrows sheet ->
        pop_special data = Ok (firstn 52 data ++ skipn 56 data)).
Proof.
  intros Hcol.
  destruct (extract_field_data_ok sheet col Hcol) as [data [Hd Hl]].
  exists data. split; [exact Hd | split; [exact Hl |]].
  destruct extraction_length_marks as [H113 [H95 H96]].
  split; [| split].
  - intros [rg [Hrg Hn]]. apply ranges_end_le in Hrg.
    rewrite Hl, schema_length_69.
    pose proof (extraction_length_mono (nrows sheet) 113). lia.
  - intros Hn.
    assert (Hp : pop_special data = Raise IndexError).
    { apply pop_special_short. rewrite Hl.
      pose proof (extraction_length_mono (nrows sheet) 95). lia. }
    split; [exact Hp |].
    unfold process_column. rewrite Hd. cbn [bind].
    unfold field_record. now rewrite Hp.
  - intros Hn. apply pop_special_ok. rewrite Hl.
    pose proof (extraction_length_mono 96 (nrows sheet)). lia.
Qed.

End ShortSheets.

Lemma short_sheet_extraction_witness :
  7 < ncols (sample_sheet 100)
  /\ exists data, extract_field_data (sample_sheet 100) 7 = Ok data
                  /\ length data = extraction_length 100.
Proof.
  split; [vm_compute; lia |].
  destruct (short_sheet_extraction (sample_sheet 100) 7) as [data [Hd [Hl _]]].
  - vm_compute. lia.
  - exists data. split; [exact Hd | exact Hl].
Defined.

(** C9 as stated fails on a sheet of 100 rows, which three of the ranges
    overrun: the extraction returns 57 values instead of 69 and the column
    is processed to a record. *)
Lemma short_sheet_not_fatal :
  (exists rg, In rg ranges /\ nrows (sample_sheet 100) < snd rg)
  /\ (exists data, extract_field_data (sample_sheet 100) 7 = Ok data
                   /\ length data = 57)
  /\ is_ok (process_column (sample_sheet 100) 7) = true.
Proof.
  split; [exists (114, 114); split; [unfold ranges; simpl; tauto | simpl; lia] |].
  split; [eexists; split; reflexivity | reflexivity].
Qed.

(** ** Walking the tree *)

Lemma walk_unfold (e : Element) :
  walk e = ([], e) :: walk_children 0 (children e).
Proof.
  destruct e as [t a x cs]. reflexivity.
Qed.

Lemma in_under (i : nat) (l : list (ref * Element)) (r : ref) (d : Element) :
  In (r, d) (under i l) <-> exists r', r = i :: r' /\ In (r', d) l.
Proof.
  unfold under. rewrite in_map_iff. split.
  - intros [[r' d'] [Heq Hin]]. cbn [fst snd] in Heq.
    injection Heq as <- <-. now exists r'.
  - intros [r' [-> Hin]]. now exists (r', d).
Qed.

Lemma in_walk_children (i : nat) (cs : list Element) (r : ref) (d : Element) :
  In (r, d) (walk_children i cs)
  <-> exists j c r', r = (i + j) :: r' /\ nth_error cs j = Some c
                     /\ In (r', d) (walk c).
Proof.
  revert i.
  induction cs as [| c cs IH]; intros i; cbn [walk_children].
  - split; [intros [] |].
    intros [j [c [r' [_ [Hnth _]]]]]. destruct j; discriminate.
  - rewrite in_app_iff, in_under, IH. split.
    + intros [[r' [-> Hin]] | [j [c' [r' [-> [Hnth Hin]]]]]].
      * exists 0, c, r'. rewrite Nat.add_0_r. now repeat split.
      * exists (S j), c', r'. repeat split; [f_equal; lia | exact Hnth | exact Hin].
    + intros [j [c' [r' [-> [Hnth Hin]]]]].
      destruct j as [| j]; cbn [nth_error] in Hnth.
      * injection Hnth as <-. left. exists r'. rewrite Nat.add_0_r. now split.
      * right. exists j, c', r'. repeat split; [f_equal; lia | exact Hnth | exact Hin].
Qed.

Lemma in_walk_root (c d : Element) : In ([], d) (walk c) <-> d = c.
Proof.
  rewrite walk_unfold. cbn [In]. split.
  - intros [Heq | Hin]; [now injection Heq |].
    apply in_walk_children in Hin. destruct Hin as [j [c' [r' [Heq _]]]].
    discriminate.
  - intros ->. now left.
Qed.

(** The places of length one are those of the children. *)
Lemma in_walk_children_direct (cs : list Element) (i : nat) (d : Element) :
  In ([i], d) (walk_children 0 cs) <-> nth_error cs i = Some d.
Proof.
  rewrite in_walk_children. split.
  - intros [j [c [r' [Heq [Hnth Hin]]]]].
    cbn [Nat.add] in Heq. injection Heq as -> <-.
    apply in_walk_root in Hin. now subst.
  - intros Hnth. exists i, d, []. repeat split; [exact Hnth |].
    now apply in_walk_root.
Qed.

Lemma map_snd_under (i : nat) (l : list (ref * Element)) :
  map snd (under i l) = map snd l.
Proof.
  unfold under. rewrite map_map. reflexivity.
Qed.

Lemma walk_children_elements (i : nat) (cs : list Element) :
  map snd (walk_children i cs) = elements cs.
Proof.
  revert i. unfold elements.
  induction cs as [| c cs IH]; intros i; cbn [walk_children flat_map];
    [reflexivity |].
  now rewrite map_app, map_snd_under, IH.
Qed.

Lemma elements_app (cs1 cs2 : list Element) :
  elements (cs1 ++ cs2) = elements cs1 ++ elements cs2.
Proof. unfold elements. apply flat_map_app. Qed.

Lemma elements_cons (c : Element) (cs : list Element) :
  elements (c :: cs) = c :: elements (children c) ++ elements cs.
Proof.
  unfold elements at 1. cbn [flat_map].
  rewrite walk_unfold. cbn [map snd].
  now rewrite walk_children_elements.
Qed.

Lemma in_elements (cs : list Element) (d : Element) :
  In d (elements cs)
  <-> exists c, In c cs /\ (d = c \/ In d (elements (children c))).
Proof.
  induction cs as [| c cs IH].
  - split; [intros [] | intros [c [[] _]]].
  - rewrite elements_cons. cbn [In]. rewrite in_app_iff, IH. split.
    + intros [<- | [Hin | [c' [Hc' Hd]]]].
      * exists c. split; [now left | now left].
      * exists c. split; [now left | now right].
      * exists c'. split; [now right | exact Hd].
    + intros [c' [[<- | Hc'] [-> | Hd]]].
      * now left.
      * right. now left.
      * right. right. exists c'. split; [exact Hc' | now left].
      * right. right. exists c'. split; [exact Hc' | now right].
Qed.

Lemma filter_map_snd {X Y : Type} (p : Y -> bool) (l : list (X * Y)) :
  map snd (filter (fun xy => p (snd xy)) l) = filter p (map snd l).
Proof.
  induction l as [| [x y] l IH]; cbn [filter map snd]; [reflexivity |].
  destruct (p y); cbn [map snd]; now rewrite IH.
Qed.

Lemma template_fields_elements (root : Element) :
  template_fields root = filter is_template_field (elements (children root)).
Proof.
  unfold template_fields, findall_fields, descendants.
  now rewrite filter_map_snd, walk_children_elements.
Qed.

Lemma in_template_fields (root d : Element) :
  In d (template_fields root)
  <-> In d (elements (children root)) /\ is_template_field d = true.
Proof.
  rewrite template_fields_elements. apply filter_In.
Qed.

(** ** Removing the stale fields *)

Section Stale.

Variable names : list string.

Lemma stale_after_raise (L : list (ref * Element)) (e : exn) :
  fold_left (remove_if_stale names) L (Raise e) = Raise e.
Proof.
  induction L as [| f L IH]; cbn [fold_left]; [reflexivity | exact IH].
Qed.

Lemma filter_filter {X : Type} (p q : X -> bool) (l : list X) :
  filter p (filter q l) = filter (fun x => q x && p x) l.
Proof.
  induction l as [| x l IH]; cbn [filter]; [reflexivity |].
  destruct (q x); cbn [filter andb]; [destruct (p x) |]; now rewrite IH.
Qed.

Lemma stale_fold_ok (L : list (ref * Element)) (K K' : list (nat * Element)) :
  fold_left (remove_if_stale names) L (Ok K) = Ok K' ->
  K' = filter (fun c => negb (gone names L (fst c))) K
  /\ forall f, In f L -> required names (snd f) = false ->
               exists i, fst f = [i].
Proof.
  revert K.
  induction L as [| f L IH]; intros K Hfold; cbn [fold_left] in Hfold.
  - injection Hfold as <-. split; [| intros f []].
    cbn [gone existsb negb]. symmetry. apply forallb_filter_id.
    now apply forallb_forall.
  - unfold remove_if_stale at 2 in Hfold. cbn [bind] in Hfold.
    destruct (required names (snd f)) eqn:Hreq.
    + destruct (IH K Hfold) as [HK' Hrefs]. split.
      * rewrite HK'. apply filter_ext. intros c.
        unfold gone. cbn [existsb]. now rewrite Hreq.
      * intros f' [<- | Hin] Hst; [congruence | now apply Hrefs].
    + destruct (fst f) as [| i [| i' r]] eqn:Href; cbn [remove_found] in Hfold;
        try (rewrite stale_after_raise in Hfold; discriminate).
      destruct (existsb (fun c => fst c =? i) K);
        [| rewrite stale_after_raise in Hfold; discriminate].
      destruct (IH _ Hfold) as [HK' Hrefs]. split.
      * rewrite HK', filter_filter. apply filter_ext. intros c.
        unfold gone. cbn [existsb]. rewrite Hreq, Href. cbn [negb andb points_at].
        rewrite negb_orb. f_equal. f_equal. apply Nat.eqb_sym.
      * intros f' [<- | Hin] Hst; [now exists i | now apply Hrefs].
Qed.

Lemma in_tagged (cs : list Element) (j : nat) (c : Element) :
  In (j, c) (tagged cs) <-> nth_error cs j = Some c.
Proof.
  unfold tagged.
  assert (Hgen : forall s, In (j, c) (combine (seq s (length cs)) cs)
                           <-> s <= j /\ nth_error cs (j - s) = Some c).
  { induction cs as [| c0 cs IH]; intros s; cbn [length seq combine In].
    - split; [intros [] | intros [_ Hn]]. destruct (j - s); discriminate.
    - rewrite IH. split.
      + intros [Heq | [Hle Hn]].
        * injection Heq as <- <-. split; [lia |].
          now rewrite Nat.sub_diag.
        * split; [lia |]. replace (j - s) with (S (j - S s)) by lia. exact Hn.
      + intros [Hle Hn]. destruct (j - s) as [| k] eqn:Hk.
        * injection Hn as <-. left. f_equal. lia.
        * right. split; [lia |]. replace (j - S s) with k by lia. exact Hn. }
  rewrite Hgen, Nat.sub_0_r. split; [tauto | intros Hn; split; [lia | exact Hn]].
Qed.

Lemma map_snd_filter_tagged (p : nat * Element -> bool) (q : Element -> bool)
    (cs : list Element) :
  (forall j c, nth_error cs j = Some c -> p (j, c) = q c) ->
  map snd (filter p (tagged cs)) = filter q cs.
Proof.
  unfold tagged.
  assert (Hgen : forall s,
             (forall j c, nth_error cs j = Some c -> p (s + j, c) = q c) ->
             map snd (filter p (combine (seq s (length cs)) cs)) = filter q cs).
  { induction cs as [| c0 cs IH]; intros s Hpq; cbn [length seq combine filter];
      [reflexivity |].
    assert (H0 : p (s, c0) = q c0).
    { rewrite <- (Hpq 0 c0 eq_refl). f_equal. f_equal. lia. }
    rewrite H0.
    assert (Hrest : map snd (filter p (combine (seq (S s) (length cs)) cs))
                    = filter q cs).
    { apply IH. intros j c Hn. rewrite <- (Hpq (S j) c Hn). f_equal. f_equal. lia. }
    destruct (q c0); cbn [map snd]; now rewrite Hrest. }
  intros Hpq. apply Hgen. exact Hpq.
Qed.

Lemma gone_findall (root : Element) (j : nat) (c : Element) :
  nth_error (children root) j = Some c ->
  negb (gone names (findall_fields root) j) = kept names c.
Proof.
  intros Hn. unfold kept. f_equal.
  apply eq_true_iff_eq. unfold gone. rewrite existsb_exists, andb_true_iff. split.
  - intros [[r d] [Hin Hst]]. cbn [fst snd] in Hst.
    apply andb_true_iff in Hst. destruct Hst as [Hst Hpt].
    destruct r as [| i [| i' r]]; cbn [points_at] in Hpt; try discriminate.
    apply Nat.eqb_eq in Hpt. subst i.
    unfold findall_fields in Hin. apply filter_In in Hin.
    destruct Hin as [Hin Htpl]. cbn [snd] in Htpl.
    unfold descendants in Hin. apply in_walk_children_direct in Hin.
    rewrite Hn in Hin. injection Hin as ->. now split.
  - intros [Htpl Hst]. exists ([j], c). cbn [fst snd points_at]. split.
    + unfold findall_fields. apply filter_In. split; [| exact Htpl].
      unfold descendants. now apply in_walk_children_direct.
    + now rewrite Hst, Nat.eqb_refl.
Qed.

Lemma remove_stale_ok (root root' : Element) :
  remove_stale root names = Ok root' ->
  root' = with_children root (filter (kept names) (children root))
  /\ forall r d, In (r, d) (findall_fields root) ->
                 required names d = false -> exists i, r = [i].
Proof.
  unfold remove_stale. cbn zeta.
  destruct (fold_left (remove_if_stale names) (findall_fields root)
                      (Ok (tagged (children root)))) as [K' | e] eqn:Hfold;
    cbn [bind]; [| discriminate].
  intros Heq. injection Heq as <-.
  apply stale_fold_ok in Hfold. destruct Hfold as [-> Hrefs]. split.
  - f_equal. apply map_snd_filter_tagged.
    intros j c Hn. cbn [fst]. now apply gone_findall.
  - intros r d Hin Hst. apply (Hrefs (r, d) Hin Hst).
Qed.

(** After the first loop every template field left is one of the run. *)
Lemma remove_stale_required (root root' : Element) :
  remove_stale root names = Ok root' ->
  forall d, In d (template_fields root') -> required names d = true.
Proof.
  intros Hrun d Hd.
  apply remove_stale_ok in Hrun. destruct Hrun as [-> Hrefs].
  apply in_template_fields in Hd. destruct Hd as [Hd Htpl].
  cbn [with_children children] in Hd.
  apply in_elements in Hd. destruct Hd as [c [Hc Hd]].
  apply filter_In in Hc. destruct Hc as [Hc Hkept].
  destruct Hd as [-> | Hd].
  - unfold kept in Hkept. rewrite Htpl in Hkept. cbn [andb] in Hkept.
    now destruct (required names c).
  - destruct (required names d) eqn:Hreq; [reflexivity | exfalso].
    apply In_nth_error in Hc. destruct Hc as [j Hj].
    rewrite <- (walk_children_elements 0) in Hd.
    apply in_map_iff in Hd. destruct Hd as [[r' d'] [Heq Hin]].
    cbn [snd] in Heq. subst d'.
    assert (Hfound : In (j :: r', d) (findall_fields root)).
    { unfold findall_fields. apply filter_In. split; [| exact Htpl].
      unfold descendants. apply in_walk_children.
      exists j, c, r'. repeat split; [exact Hj |].
      rewrite walk_unfold. now right. }
    destruct (Hrefs _ _ Hfound Hreq) as [i Hi].
    apply in_walk_children in Hin. destruct Hin as [j' [c' [r'' [-> _]]]].
    discriminate.
Qed.

End Stale.

(** ** Replacing the fields of the run *)

Lemma in_list_In (k : string) (l : list string) : in_list k l = true <-> In k l.
Proof.
  unfold in_list. rewrite existsb_exists. split.
  - intros [x [Hin Heq]]. apply String.eqb_eq in Heq. now subst.
  - intros Hin. exists k. split; [exact Hin | apply String.eqb_refl].
Qed.

Lemma created_is_field (n : string) (rec : dict string) :
  is_template_field (create_field_element n rec) = true
  /\ named n (create_field_element n rec) = true
  /\ field_key (create_field_element n rec) = Some n.
Proof.
  unfold is_template_field, named, field_key, get. cbn.
  now rewrite String.eqb_refl.
Qed.

Lemma field_children_tags (k v : string) (c d : Element) :
  In c (field_children k v) ->
  d = c \/ In d (elements (children c)) ->
  tag d = "A" \/ tag d = "Process".
Proof.
  unfold field_children.
  destruct (in_list k ["fraction_diluent"; "heater_treater"]).
  - intros [<- | [<- | []]] [-> | Hd]; cbn in *; try tauto.
    destruct Hd as [<- | []]. now left.
  - intros [<- | []] [-> | Hd]; cbn in *; tauto.
Qed.

(** Nothing below a created field node is a field node. *)
Lemma created_inner_not_field (n : string) (rec : dict string) (d : Element) :
  In d (elements (children (create_field_element n rec))) ->
  is_template_field d = false.
Proof.
  intros Hd. apply in_elements in Hd. destruct Hd as [c [Hc Hd]].
  cbn [create_field_element children] in Hc.
  assert (Htag : tag d = "Group" \/ tag d = "A" \/ tag d = "Process").
  { destruct Hc as [<- | Hc].
    - destruct Hd as [-> | Hd]; [now left | destruct Hd].
    - apply in_flat_map in Hc. destruct Hc as [[k v] [_ Hc]].
      right. exact (field_children_tags k v c d Hc Hd). }
  unfold is_template_field.
  destruct Htag as [-> | [-> | ->]]; reflexivity.
Qed.

Lemma filter_none {X : Type} (p : X -> bool) (l : list X) :
  (forall x, In x l -> p x = false) -> filter p l = [].
Proof.
  induction l as [| x l IH]; intros Hp; cbn [filter]; [reflexivity |].
  rewrite (Hp x) by now left. apply IH. intros y Hy. apply Hp. now right.
Qed.

Lemma template_fields_created (n : string) (rec : dict string) :
  filter is_template_field (elements [create_field_element n rec])
  = [create_field_element n rec].
Proof.
  rewrite elements_cons. cbn [elements flat_map]. rewrite app_nil_r.
  cbn [filter].
  destruct (created_is_field n rec) as [-> _]. f_equal.
  apply filter_none.
  intros d Hd. exact (created_inner_not_field n rec d Hd).
Qed.

Lemma named_field_key (n : string) (d : Element) :
  named n d = true <-> field_key d = Some n.
Proof.
  unfold named, field_key. destruct (get d "name") as [m |].
  - rewrite String.eqb_eq. split; [now intros -> | now intros [= ->]].
  - split; discriminate.
Qed.

Lemma cut_at_split {X : Type} (l1 l2 : list X) (x : X) :
  firstn (length l1) (l1 ++ x :: l2) ++ skipn (S (length l1)) (l1 ++ x :: l2)
  = l1 ++ l2.
Proof.
  f_equal.
  - rewrite firstn_app, Nat.sub_diag, firstn_all. cbn [firstn].
    now rewrite app_nil_r.
  - rewrite skipn_app, skipn_all2 by lia.
    replace (S (length l1) - length l1) with 1 by lia. reflexivity.
Qed.

(** What one pass of the second loop does to the children of the root. *)
Lemma replace_field_ok (root root' : Element) (n : string) (rec : dict string) :
  replace_field root n rec = Ok root' ->
  ((forall d, In d (elements (children root)) ->
              is_template_field d = true -> named n d = false)
   /\ children root' = children root ++ [create_field_element n rec])
  \/ exists l1 c l2,
       children root = l1 ++ c :: l2
       /\ is_template_field c = true /\ named n c = true
       /\ children root' = (l1 ++ l2) ++ [create_field_element n rec].
Proof.
  unfold replace_field, find_field.
  destruct (filter _ (descendants root)) as [| [r d] rest] eqn:Hfilter;
    cbn [hd_error bind].
  - intros Heq. injection Heq as <-. left. split; [| reflexivity].
    intros d Hd Htpl.
    rewrite <- (walk_children_elements 0) in Hd.
    apply in_map_iff in Hd. destruct Hd as [[r d'] [Heq Hin]].
    cbn [snd] in Heq. subst d'.
    destruct (named n d) eqn:Hnamed; [exfalso | reflexivity].
    assert (Hmatch : In (r, d)
              (filter (fun re => is_template_field (snd re) && named n (snd re))
                      (descendants root))).
    { apply filter_In. split; [exact Hin |]. cbn [snd]. now rewrite Htpl, Hnamed. }
    rewrite Hfilter in Hmatch. destruct Hmatch.
  - assert (Hmatch : In (r, d)
              (filter (fun re => is_template_field (snd re) && named n (snd re))
                      (descendants root))).
    { rewrite Hfilter. now left. }
    apply filter_In in Hmatch. destruct Hmatch as [Hin Hpred].
    cbn [snd] in Hpred. apply andb_true_iff in Hpred. destruct Hpred as [Htpl Hnamed].
    destruct r as [| i [| i' r]]; cbn [root_remove bind]; try discriminate.
    destruct (i <? length (children root)); cbn [bind]; [| discriminate].
    unfold descendants in Hin. apply in_walk_children_direct in Hin.
    apply nth_error_split in Hin. destruct Hin as [l1 [l2 [Hcs Hlen]]].
    intros Heq. rewrite Hcs, <- Hlen, cut_at_split in Heq.
    injection Heq as <-. right.
    exists l1, d, l2. split; [exact Hcs |]. split; [exact Htpl |].
    split; [exact Hnamed |]. reflexivity.
Qed.

Lemma replace_after_raise (recs : dict (dict string)) (e : exn) :
  fold_left replace_step recs (Raise e) = Raise e.
Proof.
  induction recs as [| kv recs IH]; cbn [fold_left]; [reflexivity | exact IH].
Qed.

(** The elements of the tree after a pass are elements of the tree before
    it, or the new node, or below the new node. *)
Lemma replace_field_elements (root root' : Element) (n : string)
    (rec : dict string) (d : Element) :
  replace_field root n rec = Ok root' ->
  In d (elements (children root')) ->
  In d (elements (children root))
  \/ d = create_field_element n rec
  \/ In d (elements (children (create_field_element n rec))).
Proof.
  intros Hrun Hd.
  assert (Hnew : In d (elements [create_field_element n rec]) ->
                 d = create_field_element n rec
                 \/ In d (elements (children (create_field_element n rec)))).
  { rewrite elements_cons. cbn [elements flat_map]. rewrite app_nil_r.
    intros [<- | Hin]; [now left | now right]. }
  apply replace_field_ok in Hrun.
  destruct Hrun as [[_ Hcs] | [l1 [c [l2 [Hcs [_ [_ Hcs']]]]]]].
  - rewrite Hcs, elements_app, in_app_iff in Hd.
    destruct Hd as [Hd | Hd]; [now left | right; now apply Hnew].
  - rewrite Hcs', !elements_app, !in_app_iff in Hd.
    rewrite Hcs, elements_app, in_app_iff, elements_cons.
    destruct Hd as [[Hd | Hd] | Hd]; [left; now left | | right; now apply Hnew].
    left. right. right. apply in_app_iff. now right.
Qed.

Section Required.

Variable names : list string.

Lemma replace_field_required (root root' : Element) (n : string)
    (rec : dict string) :
  In n names ->
  all_required names root ->
  replace_field root n rec = Ok root' ->
  all_required names root'.
Proof.
  intros Hn Hall Hrun d Hd.
  apply in_template_fields in Hd. destruct Hd as [Hd Htpl].
  destruct (replace_field_elements root root' n rec d Hrun Hd) as [Hold | [-> | Hin]].
  - apply Hall. now apply in_template_fields.
  - unfold required.
    destruct (created_is_field n rec) as [_ [_ Hkey]].
    unfold field_key in Hkey. rewrite Hkey. now apply in_list_In.
  - rewrite (created_inner_not_field n rec d Hin) in Htpl. discriminate.
Qed.

Lemma replace_fold_required (recs : dict (dict string)) (root root' : Element) :
  (forall kv, In kv recs -> In (fst kv) names) ->
  all_required names root ->
  fold_left replace_step recs (Ok root) = Ok root' ->
  all_required names root'.
Proof.
  revert root.
  induction recs as [| [n rec] recs IH]; intros root Hnames Hall Hrun;
    cbn [fold_left] in Hrun.
  - now injection Hrun as <-.
  - unfold replace_step at 2 in Hrun. cbn [bind fst snd] in Hrun.
    destruct (replace_field root n rec) as [root1 | e] eqn:Hstep;
      [| rewrite replace_after_raise in Hrun; discriminate].
    apply (IH root1); [| | exact Hrun].
    + intros kv Hkv. apply Hnames. now right.
    + apply (replace_field_required root root1 n rec); [| exact Hall | exact Hstep].
      apply (Hnames (n, rec)). now left.
Qed.

End Required.

Lemma reconcile_fields_required (root root' : Element) (recs : dict (dict string)) :
  reconcile_fields root recs = Ok root' ->
  all_required (keys recs) root'.
Proof.
  unfold reconcile_fields.
  destruct (remove_stale root (keys recs)) as [root1 | e] eqn:Hstale;
    cbn [bind]; [| discriminate].
  intros Hrun.
  apply (replace_fold_required (keys recs) recs root1 root'); [| | exact Hrun].
  - intros kv Hkv. unfold keys. now apply in_map.
  - intros d Hd. exact (remove_stale_required (keys recs) root root1 Hstale d Hd).
Qed.

(** ** Documents whose fields are children of the root *)

Section Flat.

Variable names : list string.

Lemma tags_from (s : nat) (cs : list Element) (c : nat * Element) :
  In c (combine (seq s (length cs)) cs) -> s <= fst c.
Proof.
  revert s.
  induction cs as [| c0 cs IH]; intros s; cbn [length seq combine In];
    [intros [] |].
  intros [<- | Hin]; [cbn; lia |].
  apply IH in Hin. lia.
Qed.

Lemma filter_all {X : Type} (p : X -> bool) (l : list X) :
  (forall x, In x l -> p x = true) -> filter p l = l.
Proof.
  induction l as [| x l IH]; intros Hp; cbn [filter]; [reflexivity |].
  rewrite (Hp x) by now left. f_equal. apply IH. intros y Hy. apply Hp. now right.
Qed.

Lemma inner_not_found (i : nat) (c : Element) :
  (forall d, In d (elements (children c)) -> is_template_field d = false) ->
  filter (fun re => is_template_field (snd re))
         (under i (walk_children 0 (children c))) = [].
Proof.
  intros Hflat. apply filter_none. intros [r d] Hin. cbn [snd].
  apply in_under in Hin. destruct Hin as [r' [_ Hin]].
  apply Hflat. rewrite <- (walk_children_elements 0).
  apply in_map_iff. now exists (r', d).
Qed.

Lemma stale_fold_flat (cs : list Element) (i : nat) (done : list (nat * Element)) :
  (forall c d, In c cs -> In d (elements (children c)) ->
               is_template_field d = false) ->
  (forall c, In c done -> fst c < i) ->
  exists K',
    fold_left (remove_if_stale names)
              (filter (fun re => is_template_field (snd re)) (walk_children i cs))
              (Ok (done ++ combine (seq i (length cs)) cs))
    = Ok K'.
Proof.
  revert i done.
  induction cs as [| c cs IH]; intros i done Hflat Hdone.
  - cbn. eexists. reflexivity.
  - cbn [walk_children length seq combine].
    rewrite filter_app, fold_left_app, walk_unfold.
    cbn [under map fst snd]. fold (under i (walk_children 0 (children c))).
    cbn [filter].
    rewrite inner_not_found by (intros d Hd; apply (Hflat c d); [now left | exact Hd]).
    assert (Hkeep : exists K',
               fold_left (remove_if_stale names)
                 (filter (fun re => is_template_field (snd re))
                         (walk_children (S i) cs))
                 (Ok ((done ++ [(i, c)]) ++ combine (seq (S i) (length cs)) cs))
               = Ok K').
    { apply IH.
      - intros c' d Hc'. apply Hflat. now right.
      - intros c' Hc'. apply in_app_iff in Hc'.
        destruct Hc' as [Hc' | [<- | []]]; [apply Hdone in Hc'; lia | cbn; lia]. }
    rewrite <- app_assoc in Hkeep. cbn [app] in Hkeep.
    change (snd ([i], c)) with c.
    destruct (is_template_field c); cbn [fold_left]; [| exact Hkeep].
    unfold remove_if_stale at 2. cbn [bind fst snd].
    destruct (required names c); [exact Hkeep |].
    cbn [remove_found].
    assert (Hthere : existsb (fun k => fst k =? i)
                       (done ++ (i, c) :: combine (seq (S i) (length cs)) cs) = true).
    { apply existsb_exists. exists (i, c). split.
      - apply in_app_iff. right. now left.
      - apply Nat.eqb_refl. }
    rewrite Hthere.
    rewrite filter_app. cbn [filter fst]. rewrite Nat.eqb_refl. cbn [negb].
    rewrite (filter_all _ done).
    + rewrite (filter_all _ (combine (seq (S i) (length cs)) cs)).
      * apply IH; [| intros k Hk; apply Hdone in Hk; lia].
        intros c' d Hc'. apply Hflat. now right.
      * intros k Hk. apply tags_from in Hk.
        apply negb_true_iff, Nat.eqb_neq. lia.
    + intros k Hk. apply Hdone in Hk.
      apply negb_true_iff, Nat.eqb_neq. lia.
Qed.

Lemma remove_stale_total (root : Element) :
  fields_flat root ->
  exists root', remove_stale root names = Ok root' /\ fields_flat root'.
Proof.
  intros Hflat.
  destruct (stale_fold_flat (children root) 0 [] Hflat) as [K' HK'];
    [intros c [] |].
  unfold remove_stale, findall_fields, descendants. cbn zeta.
  unfold tagged. cbn [app] in HK'. rewrite HK'. cbn [bind].
  eexists. split; [reflexivity |].
  assert (Hok : remove_stale root names
                = Ok (with_children root (map snd K'))).
  { unfold remove_stale, findall_fields, descendants, tagged. cbn zeta.
    now rewrite HK'. }
  apply remove_stale_ok in Hok. destruct Hok as [Heq _].
  rewrite Heq. intros c d Hc. cbn [with_children children] in Hc.
  apply filter_In in Hc. apply Hflat. tauto.
Qed.

End Flat.

Lemma replace_field_total (root : Element) (n : string) (rec : dict string) :
  fields_flat root ->
  exists root', replace_field root n rec = Ok root' /\ fields_flat root'.
Proof.
  intros Hflat.
  assert (Hok : exists root', replace_field root n rec = Ok root').
  { unfold replace_field, find_field.
    destruct (filter _ (descendants root)) as [| [r d] rest] eqn:Hfilter;
      cbn [hd_error bind]; [eexists; reflexivity |].
    assert (Hmatch : In (r, d)
              (filter (fun re => is_template_field (snd re) && named n (snd re))
                      (descendants root))).
    { rewrite Hfilter. now left. }
    apply filter_In in Hmatch. destruct Hmatch as [Hin Hpred].
    cbn [snd] in Hpred. apply andb_true_iff in Hpred. destruct Hpred as [Htpl _].
    unfold descendants in Hin. apply in_walk_children in Hin.
    destruct Hin as [j [c [r' [-> [Hnth Hin]]]]].
    rewrite walk_unfold in Hin. destruct Hin as [Heq | Hin].
    - injection Heq as <- <-. cbn [Nat.add root_remove].
      assert (Hj : j < length (children root)).
      { apply nth_error_Some. congruence. }
      apply Nat.ltb_lt in Hj. rewrite Hj. cbn [bind]. eexists. reflexivity.
    - exfalso.
      assert (Hd : In d (elements (children c))).
      { rewrite <- (walk_children_elements 0). apply in_map_iff. now exists (r', d). }
      apply nth_error_In in Hnth.
      rewrite (Hflat c d Hnth Hd) in Htpl. discriminate. }
  destruct Hok as [root' Hrun]. exists root'. split; [exact Hrun |].
  intros c d Hc Hd.
  assert (Hc' : In c (children root) \/ c = create_field_element n rec).
  { apply replace_field_ok in Hrun.
    destruct Hrun as [[_ Hcs] | [l1 [c0 [l2 [Hcs [_ [_ Hcs']]]]]]].
    - rewrite Hcs in Hc. apply in_app_iff in Hc.
      destruct Hc as [Hc | [<- | []]]; [now left | now right].
    - rewrite Hcs' in Hc. rewrite Hcs. rewrite !in_app_iff in Hc.
      destruct Hc as [[Hc | Hc] | [<- | []]]; [left | left | now right].
      + apply in_app_iff. now left.
      + apply in_app_iff. right. now right. }
  destruct Hc' as [Hc' | ->].
  - exact (Hflat c d Hc' Hd).
  - exact (created_inner_not_field n rec d Hd).
Qed.

Lemma replace_fold_total (recs : dict (dict string)) (root : Element) :
  fields_flat root ->
  exists root', fold_left replace_step recs (Ok root) = Ok root'
                /\ fields_flat root'.
Proof.
  revert root.
  induction recs as [| [n rec] recs IH]; intros root Hflat; cbn [fold_left].
  - now exists root.
  - unfold replace_step at 2. cbn [bind fst snd].
    destruct (replace_field_total root n rec Hflat) as [root1 [Hstep Hflat1]].
    rewrite Hstep. now apply IH.
Qed.

Lemma reconcile_fields_total (root : Element) (recs : dict (dict string)) :
  fields_flat root ->
  exists root', reconcile_fields root recs = Ok root' /\ fields_flat root'.
Proof.
  intros Hflat. unfold reconcile_fields.
  destruct (remove_stale_total (keys recs) root Hflat) as [root1 [Hstale Hflat1]].
  rewrite Hstale. cbn [bind]. now apply replace_fold_total.
Qed.

(** ** Unique keys *)

Lemma NoDup_app_inv {X : Type} (l1 l2 : list X) :
  NoDup (l1 ++ l2) ->
  NoDup l1 /\ NoDup l2 /\ forall a, In a l1 -> ~ In a l2.
Proof.
  intros Hnd. split; [now apply NoDup_app_remove_r in Hnd |].
  split; [now apply NoDup_app_remove_l in Hnd |].
  induction l1 as [| x l1 IH]; [intros a [] |].
  cbn [app] in Hnd. inversion Hnd as [| ? ? Hx Hnd']; subst.
  intros a [<- | Ha].
  - intros Hin. apply Hx. apply in_app_iff. now right.
  - now apply IH.
Qed.

Lemma keys_unique_field_keys (root : Element) :
  keys_unique root <-> NoDup (field_keys (children root)).
Proof.
  unfold keys_unique, field_keys. now rewrite template_fields_elements.
Qed.

Lemma field_keys_app (cs1 cs2 : list Element) :
  field_keys (cs1 ++ cs2) = field_keys cs1 ++ field_keys cs2.
Proof.
  unfold field_keys. now rewrite elements_app, filter_app, map_app.
Qed.

Lemma field_keys_cons (c : Element) (cs : list Element) :
  field_keys (c :: cs) = field_keys [c] ++ field_keys cs.
Proof. apply (field_keys_app [c] cs). Qed.

Lemma field_keys_created (n : string) (rec : dict string) :
  field_keys [create_field_element n rec] = [Some n].
Proof.
  unfold field_keys. rewrite template_fields_created. cbn [map].
  now destruct (created_is_field n rec) as [_ [_ ->]].
Qed.

Lemma field_keys_head (c : Element) :
  is_template_field c = true -> In (field_key c) (field_keys [c]).
Proof.
  intros Htpl. unfold field_keys. rewrite elements_cons.
  cbn [filter]. rewrite Htpl. now left.
Qed.

Lemma in_field_keys (cs : list Element) (k : option string) :
  In k (field_keys cs)
  <-> exists d, In d (elements cs) /\ is_template_field d = true
                /\ field_key d = k.
Proof.
  unfold field_keys. rewrite in_map_iff. split.
  - intros [d [Hk Hd]]. apply filter_In in Hd. exists d. tauto.
  - intros [d [Hd [Htpl Hk]]]. exists d. split; [exact Hk |].
    apply filter_In. now split.
Qed.

Lemma field_keys_filter_incl (p : Element -> bool) (cs : list Element)
    (k : option string) :
  In k (field_keys (filter p cs)) -> In k (field_keys cs).
Proof.
  induction cs as [| c cs IH]; cbn [filter]; [intros [] |].
  rewrite (field_keys_cons c cs), in_app_iff.
  destruct (p c).
  - rewrite (field_keys_cons c (filter p cs)), in_app_iff.
    intros [Hk | Hk]; [now left | right; now apply IH].
  - intros Hk. right. now apply IH.
Qed.

Lemma field_keys_filter_nodup (p : Element -> bool) (cs : list Element) :
  NoDup (field_keys cs) -> NoDup (field_keys (filter p cs)).
Proof.
  induction cs as [| c cs IH]; cbn [filter]; [trivial |].
  rewrite (field_keys_cons c cs). intros Hnd.
  apply NoDup_app_inv in Hnd. destruct Hnd as [Hc [Hcs Hdisj]].
  destruct (p c); [| now apply IH].
  rewrite (field_keys_cons c (filter p cs)).
  apply NoDup_app; [exact Hc | now apply IH |].
  intros k Hk Hin. apply (Hdisj k Hk).
  now apply (field_keys_filter_incl p cs).
Qed.

Lemma remove_stale_unique (names : list string) (root root' : Element) :
  remove_stale root names = Ok root' ->
  keys_unique root -> keys_unique root'.
Proof.
  intros Hrun. apply remove_stale_ok in Hrun. destruct Hrun as [-> _].
  rewrite !keys_unique_field_keys. cbn [with_children children].
  apply field_keys_filter_nodup.
Qed.

Lemma replace_field_unique (root root' : Element) (n : string) (rec : dict string) :
  replace_field root n rec = Ok root' ->
  keys_unique root -> keys_unique root'.
Proof.
  intros Hrun. rewrite !keys_unique_field_keys. intros Hnd.
  apply replace_field_ok in Hrun.
  destruct Hrun as [[Hnone Hcs] | [l1 [c [l2 [Hcs [Htpl [Hnamed Hcs']]]]]]].
  - rewrite Hcs, field_keys_app, field_keys_created.
    apply NoDup_app; [exact Hnd | repeat constructor; intros [] |].
    intros k Hk [<- | []].
    apply in_field_keys in Hk. destruct Hk as [d [Hd [Hdt Hkey]]].
    apply named_field_key in Hkey. rewrite (Hnone d Hd Hdt) in Hkey. discriminate.
  - rewrite Hcs', !field_keys_app, field_keys_created.
    rewrite Hcs, field_keys_app, (field_keys_cons c l2) in Hnd.
    apply NoDup_app_inv in Hnd. destruct Hnd as [H1 [Hrest H1rest]].
    apply NoDup_app_inv in Hrest. destruct Hrest as [Hc [H2 Hc2]].
    assert (Hkey : In (Some n) (field_keys [c])).
    { apply named_field_key in Hnamed. rewrite <- Hnamed.
      now apply field_keys_head. }
    apply NoDup_app.
    + apply NoDup_app; [exact H1 | exact H2 |].
      intros k Hk Hin. apply (H1rest k Hk). apply in_app_iff. now right.
    + repeat constructor. intros [].
    + intros k Hk [<- | []]. apply in_app_iff in Hk. destruct Hk as [Hk | Hk].
      * apply (H1rest (Some n) Hk). apply in_app_iff. now left.
      * exact (Hc2 (Some n) Hkey Hk).
Qed.

Lemma replace_fold_unique (recs : dict (dict string)) (root root' : Element) :
  fold_left replace_step recs (Ok root) = Ok root' ->
  keys_unique root -> keys_unique root'.
Proof.
  revert root.
  induction recs as [| [n rec] recs IH]; intros root Hrun Hu;
    cbn [fold_left] in Hrun.
  - now injection Hrun as <-.
  - unfold replace_step at 2 in Hrun. cbn [bind fst snd] in Hrun.
    destruct (replace_field root n rec) as [root1 | e] eqn:Hstep;
      [| rewrite replace_after_raise in Hrun; discriminate].
    apply (IH root1 Hrun). exact (replace_field_unique root root1 n rec Hstep Hu).
Qed.

Lemma reconcile_fields_unique (root root' : Element) (recs : dict (dict string)) :
  keys_unique root ->
  reconcile_fields root recs = Ok root' ->
  keys_unique root'.
Proof.
  intros Hu. unfold reconcile_fields.
  destruct (remove_stale root (keys recs)) as [root1 | e] eqn:Hstale;
    cbn [bind]; [| discriminate].
  intros Hrun.
  apply (replace_fold_unique recs root1 root' Hrun).
  exact (remove_stale_unique (keys recs) root root1 Hstale Hu).
Qed.

(** ** Running the reconciliation twice *)

Lemma replace_field_adds (root root' : Element) (n : string) (rec : dict string) :
  replace_field root n rec = Ok root' ->
  In (create_field_element n rec) (children root').
Proof.
  intros Hrun. apply replace_field_ok in Hrun.
  destruct Hrun as [[_ Hcs] | [l1 [c [l2 [_ [_ [_ Hcs]]]]]]];
    rewrite Hcs; apply in_app_iff; right; now left.
Qed.

Lemma replace_field_keeps (root root' : Element) (n : string) (rec : dict string)
    (x : Element) :
  replace_field root n rec = Ok root' ->
  In x (children root) ->
  named n x = false ->
  In x (children root').
Proof.
  intros Hrun Hx Hname. apply replace_field_ok in Hrun.
  destruct Hrun as [[_ Hcs] | [l1 [c [l2 [Hcs [_ [Hnamed Hcs']]]]]]].
  - rewrite Hcs. apply in_app_iff. now left.
  - rewrite Hcs'. rewrite Hcs in Hx. apply in_app_iff. left.
    apply in_app_iff in Hx. apply in_app_iff.
    destruct Hx as [Hx | [-> | Hx]]; [now left | congruence | now right].
Qed.

Lemma replace_fold_keeps (recs : dict (dict string)) (root root' x : Element) :
  fold_left replace_step recs (Ok root) = Ok root' ->
  In x (children root) ->
  (forall n, In n (keys recs) -> named n x = false) ->
  In x (children root').
Proof.
  revert root.
  induction recs as [| [n rec] recs IH]; intros root Hrun Hx Hnames;
    cbn [fold_left] in Hrun.
  - now injection Hrun as <-.
  - unfold replace_step at 2 in Hrun. cbn [bind fst snd] in Hrun.
    destruct (replace_field root n rec) as [root1 | e] eqn:Hstep;
      [| rewrite replace_after_raise in Hrun; discriminate].
    apply (IH root1 Hrun).
    + apply (replace_field_keeps root root1 n rec x Hstep Hx).
      apply Hnames. now left.
    + intros m Hm. apply Hnames. now right.
Qed.

Lemma replace_fold_adds (recs : dict (dict string)) (root root' : Element) :
  NoDup (keys recs) ->
  fold_left replace_step recs (Ok root) = Ok root' ->
  forall n rec, In (n, rec) recs ->
                In (create_field_element n rec) (children root').
Proof.
  revert root.
  induction recs as [| [n0 rec0] recs IH]; intros root Hnd Hrun n rec Hin;
    [destruct Hin |].
  cbn [fold_left] in Hrun.
  unfold replace_step at 2 in Hrun. cbn [bind fst snd] in Hrun.
  destruct (replace_field root n0 rec0) as [root1 | e] eqn:Hstep;
    [| rewrite replace_after_raise in Hrun; discriminate].
  cbn [keys map fst] in Hnd. inversion Hnd as [| ? ? Hfresh Hnd']; subst.
  destruct Hin as [Heq | Hin].
  - injection Heq as -> ->.
    apply (replace_fold_keeps recs root1 root' _ Hrun).
    + exact (replace_field_adds root root1 n rec Hstep).
    + intros m Hm.
      destruct (named m (create_field_element n rec)) eqn:Hnamed; [| reflexivity].
      apply named_field_key in Hnamed.
      destruct (created_is_field n rec) as [_ [_ Hkey]].
      rewrite Hkey in Hnamed. injection Hnamed as ->. contradiction.
  - exact (IH root1 Hnd' Hrun n rec Hin).
Qed.

Lemma reconcile_fields_adds (root root' : Element) (recs : dict (dict string)) :
  NoDup (keys recs) ->
  reconcile_fields root recs = Ok root' ->
  forall n rec, In (n, rec) recs ->
                In (create_field_element n rec) (children root').
Proof.
  intros Hnd. unfold reconcile_fields.
  destruct (remove_stale root (keys recs)) as [root1 | e]; cbn [bind];
    [| discriminate].
  intros Hrun. exact (replace_fold_adds recs root1 root' Hnd Hrun).
Qed.

Lemma in_children_elements (cs : list Element) (c : Element) :
  In c cs -> In c (elements cs).
Proof.
  intros Hc. apply in_elements. exists c. split; [exact Hc | now left].
Qed.

Lemma only_field_keyed (l : list Element) (x : Element) (n : string) :
  NoDup (map field_key l) ->
  In x l ->
  field_key x = Some n ->
  filter (named n) l = [x].
Proof.
  induction l as [| y l IH]; intros Hnd Hx Hkey; [destruct Hx |].
  cbn [map] in Hnd. inversion Hnd as [| ? ? Hy Hnd']; subst.
  cbn [filter]. destruct Hx as [-> | Hx].
  - rewrite (proj2 (named_field_key n x) Hkey). f_equal.
    apply filter_none. intros z Hz.
    destruct (named n z) eqn:Hnz; [exfalso | reflexivity].
    apply named_field_key in Hnz. apply Hy.
    rewrite Hkey, <- Hnz. now apply in_map.
  - destruct (named n y) eqn:Hny.
    + exfalso. apply named_field_key in Hny. apply Hy.
      rewrite Hny, <- Hkey. now apply in_map.
    + now apply IH.
Qed.

Lemma created_only_keyed (root : Element) (n : string) (rec : dict string) :
  keys_unique root ->
  In (create_field_element n rec) (children root) ->
  fields_keyed n root = [create_field_element n rec].
Proof.
  intros Hu Hin. unfold fields_keyed.
  apply only_field_keyed; [exact Hu | |].
  - apply in_template_fields. split; [now apply in_children_elements |].
    now destruct (created_is_field n rec).
  - now destruct (created_is_field n rec) as [_ [_ Hkey]].
Qed.

(** ** The Analysis node leaves the fields alone *)

Lemma field_keys_single (e : Element) :
  field_keys [e]
  = (if is_template_field e then [field_key e] else [])
    ++ field_keys (children e).
Proof.
  unfold field_keys. rewrite elements_cons.
  change (elements []) with (@nil Element). rewrite app_nil_r.
  cbn [filter]. destruct (is_template_field e); reflexivity.
Qed.

Lemma keeps_fields_single (g : Element -> Element) (e : Element) :
  keeps_fields g -> field_keys [g e] = field_keys [e].
Proof.
  intros Hg. destruct (Hg e) as [Htag [Hattr Hkeys]].
  rewrite !field_keys_single, Hkeys.
  unfold is_template_field, field_key, get. now rewrite Htag, Hattr.
Qed.

Lemma field_keys_update_nth (g : Element -> Element) (i : nat) (cs : list Element) :
  keeps_fields g -> field_keys (update_nth i g cs) = field_keys cs.
Proof.
  intros Hg. revert i.
  induction cs as [| c cs IH]; intros i; [reflexivity |].
  destruct i as [| i]; cbn [update_nth].
  - rewrite (field_keys_cons (g c) cs), (field_keys_cons c cs).
    now rewrite (keeps_fields_single g c Hg).
  - rewrite (field_keys_cons c (update_nth i g cs)), (field_keys_cons c cs).
    now rewrite IH.
Qed.

Lemma keeps_fields_update_at (r : ref) (f : Element -> Element) :
  keeps_fields f -> keeps_fields (update_at r f).
Proof.
  intros Hf.
  induction r as [| i r IH]; intros e; cbn [update_at]; [apply Hf |].
  cbn [with_children tag attrib children].
  split; [reflexivity | split; [reflexivity |]].
  now apply field_keys_update_nth.
Qed.

Lemma keeps_fields_with_text (value : string) : keeps_fields (with_text value).
Proof. intros e. now destruct e. Qed.

Lemma field_keys_leaf (t : string) (a : dict string) (x : option string) :
  String.eqb t "Field" = false -> field_keys [Elem t a x []] = [].
Proof.
  intros Ht. rewrite field_keys_single.
  unfold is_template_field. cbn [tag children]. now rewrite Ht.
Qed.

Lemma keeps_fields_upsert_setting (kv : string * string) :
  keeps_fields (fun analysis => upsert_setting analysis kv).
Proof.
  intros e. unfold upsert_setting.
  destruct (find_setting (fst kv) (children e)) as [i |].
  - cbn [with_children tag attrib children].
    split; [reflexivity | split; [reflexivity |]].
    apply field_keys_update_nth, keeps_fields_with_text.
  - cbn [append with_children tag attrib children].
    split; [reflexivity | split; [reflexivity |]].
    rewrite field_keys_app, field_keys_leaf by reflexivity.
    apply app_nil_r.
Qed.

Lemma keeps_fields_fold (settings : dict string) :
  keeps_fields (fold_left upsert_setting settings).
Proof.
  induction settings as [| kv settings IH]; intros e; cbn [fold_left];
    [now repeat split |].
  destruct (IH (upsert_setting e kv)) as [Htag [Hattr Hkeys]].
  destruct (keeps_fields_upsert_setting kv e) as [Htag' [Hattr' Hkeys']].
  repeat split; congruence.
Qed.

Lemma keeps_fields_upsert_settings : keeps_fields upsert_settings.
Proof.
  intros e. unfold upsert_settings.
  destruct (group_exists e); [apply keeps_fields_fold |].
  destruct (keeps_fields_fold analysis_updates
              (append e (Elem "Group" [] (Some "all") [])))
    as [Htag [Hattr Hkeys]].
  rewrite Htag, Hattr, Hkeys.
  cbn [append with_children tag attrib children].
  split; [reflexivity | split; [reflexivity |]].
  rewrite field_keys_app, field_keys_leaf by reflexivity.
  apply app_nil_r.
Qed.

Lemma new_analysis_no_fields :
  field_keys [upsert_settings (Elem "Analysis" [("name", "FUSE_run")] None [])]
  = [].
Proof.
  rewrite (keeps_fields_single upsert_settings _ keeps_fields_upsert_settings).
  reflexivity.
Qed.

Lemma find_analysis_below (root : Element) (r : ref) (e : Element) :
  find_analysis root = Some (r, e) -> exists i r', r = i :: r'.
Proof.
  unfold find_analysis.
  destruct (filter _ (descendants root)) as [| [r0 e0] rest] eqn:Hfilter;
    cbn [hd_error]; [discriminate |].
  intros Heq. injection Heq as -> ->.
  assert (Hin : In (r, e) (descendants root)).
  { eapply proj1. apply filter_In. rewrite Hfilter. now left. }
  unfold descendants in Hin. apply in_walk_children in Hin.
  destruct Hin as [j [c [r' [-> _]]]]. now exists (0 + j), r'.
Qed.

Lemma upsert_analysis_keys (root : Element) :
  field_keys (children (upsert_analysis root)) = field_keys (children root).
Proof.
  unfold upsert_analysis.
  destruct (find_analysis root) as [[r e] |].
  - apply (keeps_fields_update_at r upsert_settings keeps_fields_upsert_settings).
  - cbn [append with_children children].
    rewrite field_keys_app, new_analysis_no_fields. apply app_nil_r.
Qed.

Lemma upsert_analysis_unique (root : Element) :
  keys_unique (upsert_analysis root) <-> keys_unique root.
Proof.
  now rewrite !keys_unique_field_keys, upsert_analysis_keys.
Qed.

Lemma fields_flat_keys (root : Element) :
  fields_flat root
  <-> forall c, In c (children root) -> field_keys (children c) = [].
Proof.
  unfold fields_flat, field_keys. split.
  - intros Hflat c Hc. rewrite filter_none; [reflexivity |].
    intros d Hd. exact (Hflat c d Hc Hd).
  - intros Hkeys c d Hc Hd.
    destruct (is_template_field d) eqn:Htpl; [exfalso | reflexivity].
    specialize (Hkeys c Hc). apply map_eq_nil in Hkeys.
    assert (Hin : In d (filter is_template_field (elements (children c))))
      by (apply filter_In; now split).
    rewrite Hkeys in Hin. destruct Hin.
Qed.

Lemma in_update_nth (g : Element -> Element) (i : nat) (cs : list Element)
    (c' : Element) :
  In c' (update_nth i g cs) ->
  In c' cs \/ exists c, In c cs /\ c' = g c.
Proof.
  revert i.
  induction cs as [| c cs IH]; intros i; [intros [] |].
  destruct i as [| i]; cbn [update_nth In].
  - intros [<- | Hin]; [right; exists c; split; [now left | reflexivity] |].
    left. now right.
  - intros [<- | Hin]; [left; now left |].
    destruct (IH i Hin) as [Hc | [c0 [Hc0 ->]]]; [left; now right |].
    right. exists c0. split; [now right | reflexivity].
Qed.

Lemma upsert_analysis_flat (root : Element) :
  fields_flat root -> fields_flat (upsert_analysis root).
Proof.
  rewrite !fields_flat_keys. intros Hflat c Hc.
  unfold upsert_analysis in Hc.
  destruct (find_analysis root) as [[r e] |] eqn:Hfind.
  - destruct (find_analysis_below root r e Hfind) as [i [r' ->]].
    cbn [update_at with_children children] in Hc.
    apply in_update_nth in Hc. destruct Hc as [Hc | [c0 [Hc0 ->]]];
      [now apply Hflat |].
    destruct (keeps_fields_update_at r' upsert_settings
                keeps_fields_upsert_settings c0) as [_ [_ ->]].
    now apply Hflat.
  - cbn [append with_children children] in Hc. apply in_app_iff in Hc.
    destruct Hc as [Hc | [<- | []]]; [now apply Hflat |].
    destruct (keeps_fields_upsert_settings
                (Elem "Analysis" [("name", "FUSE_run")] None []))
      as [_ [_ ->]].
    reflexivity.
Qed.

(** ** The merge *)

Lemma merge_total (root : Element) (recs : dict (dict string)) :
  fields_flat root ->
  exists root', merge root recs = Ok root' /\ fields_flat root'.
Proof.
  intros Hflat. unfold merge.
  apply reconcile_fields_total. now apply upsert_analysis_flat.
Qed.

Lemma merge_unique (root root' : Element) (recs : dict (dict string)) :
  keys_unique root ->
  merge root recs = Ok root' ->
  keys_unique root'.
Proof.
  intros Hu Hrun. unfold merge in Hrun.
  apply (reconcile_fields_unique (upsert_analysis root) root' recs);
    [| exact Hrun].
  now apply upsert_analysis_unique.
Qed.

Lemma merge_adds (root root' : Element) (recs : dict (dict string)) :
  NoDup (keys recs) ->
  merge root recs = Ok root' ->
  forall n rec, In (n, rec) recs ->
                In (create_field_element n rec) (children root').
Proof.
  intros Hnd Hrun. unfold merge in Hrun.
  exact (reconcile_fields_adds (upsert_analysis root) root' recs Hnd Hrun).
Qed.

(** The field node a merge leaves under a name of the run depends on the
    record alone, not on the document the merge started from. *)
Lemma merge_content_determined (root_a root_b out_a out_b : Element)
    (recs : dict (dict string)) :
  NoDup (keys recs) ->
  keys_unique root_a -> keys_unique root_b ->
  merge root_a recs = Ok out_a ->
  merge root_b recs = Ok out_b ->
  forall n, In n (keys recs) -> fields_keyed n out_a = fields_keyed n out_b.
Proof.
  intros Hnd Hua Hub Hra Hrb n Hn.
  apply in_map_iff in Hn. destruct Hn as [[n' rec] [Heq Hin]].
  cbn [fst] in Heq. subst n'.
  rewrite (created_only_keyed out_a n rec
             (merge_unique root_a out_a recs Hua Hra)
             (merge_adds root_a out_a recs Hnd Hra n rec Hin)).
  rewrite (created_only_keyed out_b n rec
             (merge_unique root_b out_b recs Hub Hrb)
             (merge_adds root_b out_b recs Hnd Hrb n rec Hin)).
  reflexivity.
Qed.

(** C4: after the merge no template field of the document bears a name
    outside the set the run produced; a field node that was in the document
    before, under a name that is not of the run, is therefore nowhere in
    it.  The merge returns a document whenever the template fields of the
    starting one are children of its root and no name of the run holds a
    double quote. *)
Theorem stale_fields_removed (root : Element) (field_updates_dicts : dict (dict string)) :
  (fields_flat root ->
   names_plain field_updates_dicts = true ->
   exists root', merge root field_updates_dicts = Ok root')
  /\ forall root',
       merge root field_updates_dicts = Ok root' ->
       (forall d, In d (template_fields root') ->
                  exists n, get d "name" = Some n
                            /\ In n (keys field_updates_dicts))
       /\ (forall d, In d (template_fields root) ->
                     required (keys field_updates_dicts) d = false ->
                     ~ In d (elements (children root'))).
Proof.
  split.
  - intros Hflat _.
    destruct (merge_total root field_updates_dicts Hflat) as [root' [Hrun _]].
    now exists root'.
  - intros root' Hrun. unfold merge in Hrun.
    pose proof (reconcile_fields_required (upsert_analysis root) root'
                  field_updates_dicts Hrun) as Hreq.
    split.
    + intros d Hd. specialize (Hreq d Hd). unfold required in Hreq.
      destruct (get d "name") as [n |]; [| discriminate].
      exists n. split; [reflexivity | now apply in_list_In].
    + intros d Hd Hstale Hin.
      apply in_template_fields in Hd. destruct Hd as [_ Htpl].
      assert (Hd' : In d (template_fields root'))
        by (apply in_template_fields; now split).
      rewrite (Hreq d Hd') in Hstale. discriminate.
Qed.

Lemma stale_fields_removed_witness :
  exists root',
    merge sample_document sample_records = Ok root'
    /\ ~ In (old_field "Gamma" "32") (elements (children root')).
Proof.
  eexists. split; [reflexivity |].
  apply (proj2 (stale_fields_removed sample_document sample_records) _ eq_refl).
  - apply in_template_fields. split; [| reflexivity].
    vm_compute. tauto.
  - reflexivity.
Defined.

(** C5 (as the code behaves): the merge keeps the keys of the field nodes
    unique; it does not make them so.  For names without a double quote,
    each pass deletes the first node that bears the key and appends the new
    one, so a document whose keys are unique is returned with unique keys,
    and the node built for a name of the run is then the only field node of
    that name. *)
Theorem keys_stay_unique (root root' : Element)
    (field_updates_dicts : dict (dict string)) :
  keys_unique root ->
  names_plain field_updates_dicts = true ->
  merge root field_updates_dicts = Ok root' ->
  keys_unique root'
  /\ (NoDup (keys field_updates_dicts) ->
      forall n rec, In (n, rec) field_updates_dicts ->
                    fields_keyed n root' = [create_field_element n rec]).
Proof.
  intros Hu _ Hrun.
  pose proof (merge_unique root root' field_updates_dicts Hu Hrun) as Hu'.
  split; [exact Hu' |].
  intros Hnd n rec Hin.
  apply (created_only_keyed root' n rec Hu').
  exact (merge_adds root root' field_updates_dicts Hnd Hrun n rec Hin).
Qed.

Lemma sample_document_unique : keys_unique sample_document.
Proof.
  unfold keys_unique. vm_compute.
  repeat (constructor; [simpl; intuition discriminate |]). constructor.
Qed.

Lemma sample_records_keys : NoDup (keys sample_records).
Proof.
  unfold sample_records, keys. cbn [map fst].
  repeat (constructor; [simpl; intuition discriminate |]). constructor.
Qed.

Lemma keys_stay_unique_witness :
  keys_unique sample_document
  /\ names_plain sample_records = true
  /\ exists root',
       merge sample_document sample_records = Ok root'
       /\ keys_unique root'.
Proof.
  split; [exact sample_document_unique |].
  split; [reflexivity |].
  eexists. split; [reflexivity |].
  apply (keys_stay_unique sample_document _ sample_records
           sample_document_unique eq_refl eq_refl).
Defined.

(** C5 as stated fails on a document that already holds two nodes under
    the key [Alpha]: the run replaces the first and leaves the second, so
    the merged document holds two field nodes with that key. *)
Lemma merged_keys_not_unique :
  exists root',
    merge duplicated_document sample_records = Ok root'
    /\ length (fields_keyed "Alpha" root') = 2
    /\ ~ keys_unique root'.
Proof.
  eexists. split; [reflexivity |]. split; [reflexivity |].
  intros Hu. unfold keys_unique in Hu. vm_compute in Hu.
  inversion Hu as [| ? ? Hnotin _]; subst. apply Hnotin.
  right. now left.
Qed.

(** C6 (as the code behaves): two runs of the merge with the same
    records, the second on the document the first returned.  When the keys
    of the starting document are unique and no name of the run holds a
    double quote, both runs leave for every field name of the run exactly
    one field node of that name, the node built from its record, so that
    the content under each name is the same after both runs; the order of
    the nodes is not stated.  Both runs return a document whenever the
    template fields of the starting one are children of its root. *)
Theorem rerun_same_fields (root : Element) (field_updates_dicts : dict (dict string)) :
  NoDup (keys field_updates_dicts) ->
  names_plain field_updates_dicts = true ->
  keys_unique root ->
  (fields_flat root ->
   exists root1 root2,
     merge root field_updates_dicts = Ok root1
     /\ merge root1 field_updates_dicts = Ok root2)
  /\ forall root1 root2,
       merge root field_updates_dicts = Ok root1 ->
       merge root1 field_updates_dicts = Ok root2 ->
       forall n rec,
         In (n, rec) field_updates_dicts ->
         In (create_field_element n rec) (children root1)
         /\ In (create_field_element n rec) (children root2)
         /\ fields_keyed n root1 = [create_field_element n rec]
         /\ fields_keyed n root2 = fields_keyed n root1.
Proof.
  intros Hnd _ Hu. split.
  - intros Hflat.
    destruct (merge_total root field_updates_dicts Hflat)
      as [root1 [Hrun1 Hflat1]].
    destruct (merge_total root1 field_updates_dicts Hflat1)
      as [root2 [Hrun2 _]].
    now exists root1, root2.
  - intros root1 root2 Hrun1 Hrun2 n rec Hin.
    pose proof (merge_adds root root1 field_updates_dicts Hnd Hrun1 n rec Hin)
      as Hin1.
    pose proof (merge_adds root1 root2 field_updates_dicts Hnd Hrun2 n rec Hin)
      as Hin2.
    split; [exact Hin1 | split; [exact Hin2 |]].
    pose proof (merge_unique root root1 field_updates_dicts Hu Hrun1) as Hu1.
    pose proof (merge_unique root1 root2 field_updates_dicts Hu1 Hrun2) as Hu2.
    rewrite (created_only_keyed root1 n rec Hu1 Hin1).
    rewrite (created_only_keyed root2 n rec Hu2 Hin2).
    now split.
Qed.

Lemma rerun_same_fields_witness :
  NoDup (keys sample_records)
  /\ names_plain sample_records = true
  /\ keys_unique sample_document
  /\ exists root1 root2,
       merge sample_document sample_records = Ok root1
       /\ merge root1 sample_records = Ok root2
       /\ fields_keyed "Beta" root1
          = [create_field_element "Beta" [("API", "35"); ("GOR", "0")]]
       /\ fields_keyed "Beta" root2 = fields_keyed "Beta" root1.
Proof.
  split; [exact sample_records_keys |].
  split; [reflexivity |].
  split; [exact sample_document_unique |].
  eexists. eexists. split; [reflexivity |]. split; [reflexivity |].
  destruct (proj2 (rerun_same_fields sample_document sample_records
                     sample_records_keys eq_refl sample_document_unique)
              _ _ eq_refl eq_refl "Beta" [("API", "35"); ("GOR", "0")])
    as [_ [_ [H1 H2]]]; [now left |].
  split; [exact H1 | exact H2].
Defined.

(** C6 as stated fails on a document that holds two nodes under the key
    [Alpha]: the first run replaces the first of them and leaves the
    second, the second run replaces that one, so the nodes of the name
    [Alpha] read the API values 31 and 36 after the first run and 36 and 36
    after the second. *)
Lemma rerun_differs_on_duplicates :
  exists root1 root2,
    merge duplicated_document sample_records = Ok root1
    /\ merge root1 sample_records = Ok root2
    /\ map (read_setting "API") (fields_keyed "Alpha" root1)
       = [Some (Some "31"); Some (Some "36")]
    /\ map (read_setting "API") (fields_keyed "Alpha" root2)
       = [Some (Some "36"); Some (Some "36")]
    /\ fields_keyed "Alpha" root2 <> fields_keyed "Alpha" root1.
Proof.
  eexists. eexists. split; [reflexivity |]. split; [reflexivity |].
  split; [reflexivity |]. split; [reflexivity |].
  intros Heq. apply (f_equal (map (read_setting "API"))) in Heq.
  vm_compute in Heq. discriminate.
Qed.

(** ** The records that reach [create_field_element] hold strings *)

Section DictShape.

Context {V : Type}.

Lemma dict_get_in (k : string) (v : V) (d : dict V) :
  dict_get k d = Some v -> In (k, v) d.
Proof.
  induction d as [| [k0 v0] d IH]; cbn [dict_get]; [discriminate |].
  destruct (String.eqb_spec k k0) as [-> | Hne].
  - intros [= ->]. now left.
  - intros Hget. right. now apply IH.
Qed.

Lemma in_dict_get (k : string) (v : V) (d : dict V) :
  NoDup (keys d) -> In (k, v) d -> dict_get k d = Some v.
Proof.
  induction d as [| [k0 v0] d IH]; intros Hnd Hin; [destruct Hin |].
  cbn [keys map fst] in Hnd. inversion Hnd as [| ? ? Hfresh Hnd']; subst.
  cbn [dict_get]. destruct Hin as [Heq | Hin].
  - injection Heq as -> ->. now rewrite String.eqb_refl.
  - destruct (String.eqb_spec k k0) as [-> | Hne]; [| now apply IH].
    exfalso. apply Hfresh. change k0 with (fst (k0, v)). now apply in_map.
Qed.

Lemma in_dict_set (k k' : string) (v v' : V) (d : dict V) :
  In (k', v') (dict_set k v d) -> In (k', v') d \/ (k' = k /\ v' = v).
Proof.
  induction d as [| [k0 v0] d IH]; cbn [dict_set].
  - intros [[= <- <-] | []]. now right.
  - destruct (String.eqb_spec k k0) as [-> | Hne].
    + intros [[= <- <-] | Hin]; [now right | left; now right].
    + intros [Heq | Hin]; [left; now left |].
      destruct (IH Hin) as [Hd | Hnew]; [left; now right | now right].
Qed.

Lemma dict_set_keys (k : string) (v : V) (d : dict V) :
  keys (dict_set k v d)
  = match dict_get k d with
    | Some _ => keys d
    | None => keys d ++ [k]
    end.
Proof.
  induction d as [| [k0 v0] d IH]; cbn [dict_set dict_get]; [reflexivity |].
  destruct (String.eqb_spec k k0) as [-> | Hne]; [reflexivity |].
  cbn [keys map fst]. unfold keys in IH. rewrite IH.
  now destruct (dict_get k d).
Qed.

Lemma dict_set_nodup (k : string) (v : V) (d : dict V) :
  NoDup (keys d) -> NoDup (keys (dict_set k v d)).
Proof.
  intros Hnd. rewrite dict_set_keys.
  destruct (dict_get k d) eqn:Hget; [exact Hnd |].
  apply NoDup_app; [exact Hnd | repeat constructor; intros [] |].
  intros a Ha [<- | []]. now apply dict_get_none_keys in Hget.
Qed.

Lemma dict_del_nodup (k : string) (d : dict V) :
  NoDup (keys d) -> NoDup (keys (dict_del k d)).
Proof.
  unfold dict_del, keys.
  induction d as [| [k0 v0] d IH]; cbn [filter map fst]; [trivial |].
  intros Hnd. inversion Hnd as [| ? ? Hfresh Hnd']; subst.
  destruct (negb (String.eqb k k0)); [| now apply IH].
  cbn [map fst]. constructor; [| now apply IH].
  intros Hin. apply Hfresh. apply in_map_iff in Hin.
  destruct Hin as [kv [Hk Hkv]]. apply filter_In in Hkv.
  apply in_map_iff. exists kv. tauto.
Qed.

End DictShape.

Section Strings.

Context {A : Type} `{PyCell A}.

Lemma zip_parameters_shape (values : list A) :
  NoDup (keys (zip_parameters values))
  /\ forall k v, In (k, v) (zip_parameters values) -> is_str v = true.
Proof.
  unfold zip_parameters.
  assert (Hgen : forall (l : list (string * A)) (d : dict (value A)),
             NoDup (keys d) ->
             (forall k v, In (k, v) d -> is_str v = true) ->
             NoDup (keys (fold_left
                            (fun d kv => dict_set (fst kv) (VStr (stringify (snd kv))) d)
                            l d))
             /\ forall k v,
                  In (k, v) (fold_left
                               (fun d kv => dict_set (fst kv) (VStr (stringify (snd kv))) d)
                               l d) ->
                  is_str v = true).
  { induction l as [| kv l IH]; intros d Hnd Hstr; cbn [fold_left];
      [now split |].
    apply IH; [now apply dict_set_nodup |].
    intros k v Hin. apply in_dict_set in Hin.
    destruct Hin as [Hin | [_ ->]]; [exact (Hstr k v Hin) | reflexivity]. }
  apply Hgen; [constructor | intros k v []].
Qed.

Lemma removal_shape (vars : list string) (d : dict (value A)) :
  NoDup (keys d) ->
  (forall k v, In (k, v) d -> assembled_value k v) ->
  NoDup (keys (fold_left (fun d var => dict_del var d) vars d))
  /\ forall k v, In (k, v) (fold_left (fun d var => dict_del var d) vars d) ->
                 assembled_value k v.
Proof.
  revert d.
  induction vars as [| var vars IH]; intros d Hnd Hshape; cbn [fold_left];
    [now split |].
  apply IH; [now apply dict_del_nodup |].
  intros k v Hin. unfold dict_del in Hin. apply filter_In in Hin.
  apply Hshape. tauto.
Qed.

Lemma assemble_shape (eco fdi values : list A) :
  eco <> [] -> fdi <> [] ->
  NoDup (keys (assemble eco fdi values))
  /\ forall k v, In (k, v) (assemble eco fdi values) -> assembled_value k v.
Proof.
  intros Heco Hfdi. unfold assemble.
  destruct (zip_parameters_shape values) as [Hnd Hstr].
  apply removal_shape; [now repeat apply dict_set_nodup |].
  intros k v Hin.
  apply in_dict_set in Hin. destruct Hin as [Hin | [-> ->]].
  - apply in_dict_set in Hin. destruct Hin as [Hin | [-> ->]].
    + left. exact (Hstr k v Hin).
    + right. split; [now left | now exists eco].
  - right. split; [right; now left | now exists fdi].
Qed.

Lemma scan_list_index (l : list A) (index : Z) (sel : selection) :
  scan_list l index sel = sel
  \/ exists j, (index <= j)%Z /\ scan_list l index sel = Index j.
Proof.
  revert index sel.
  induction l as [| val l IH]; intros index sel; cbn [scan_list]; [now left |].
  destruct (eq_one val).
  - right. destruct (IH (index + 1)%Z (Index index)) as [-> | [j [Hj ->]]].
    + exists index. split; [lia | reflexivity].
    + exists j. split; [lia | reflexivity].
  - destruct (IH (index + 1)%Z sel) as [-> | [j [Hj ->]]]; [now left |].
    right. exists j. split; [lia | reflexivity].
Qed.

Lemma converted_is_str (k : string) (m : table) (v v' : value A) :
  assembled_value k v ->
  converted k m v = Ok v' ->
  is_str v' = true.
Proof.
  intros Hshape. unfold converted.
  destruct (in_list k one_hot_keys) eqn:Hk.
  - destruct (truthy (scan_value v)) eqn:Htruthy.
    + destruct (subscript m (scan_value v)); cbn [bind]; [| discriminate].
      now intros [= <-].
    + intros [= <-].
      destruct Hshape as [Hstr | [_ [l [-> Hne]]]]; [exact Hstr | exfalso].
      cbn [scan_value] in Htruthy.
      destruct (scan_list_index l 1%Z (Unselected (VList l))) as [Hs | [j [Hj Hs]]];
        rewrite Hs in Htruthy; cbn [truthy] in Htruthy.
      * destruct l; [now apply Hne | discriminate].
      * apply negb_false_iff, Z.eqb_eq in Htruthy. lia.
  - destruct Hshape as [Hstr | [Hin _]].
    + destruct v as [s | l]; [| discriminate].
      destruct (isdigit s); [| now intros [= <-]].
      destruct (table_get (int_of_str s) m); now intros [= <-].
    + apply in_list_In in Hin. congruence.
Qed.

Lemma convert_key_keys (fu fu' : dict (value A)) (key : string) (m : table) :
  convert_key fu (key, m) = Ok fu' -> keys fu' = keys fu.
Proof.
  unfold convert_key. cbn [fst snd].
  destruct (dict_get key fu) as [v |] eqn:Hget; [| now intros [= <-]].
  assert (Hset : forall w, keys (dict_set key w fu) = keys fu).
  { intros w. rewrite dict_set_keys. now rewrite Hget. }
  destruct (in_list key one_hot_keys).
  - destruct (truthy (scan_value v)); [| now intros [= <-]].
    destruct (subscript m (scan_value v)); cbn [bind]; [| discriminate].
    intros [= <-]. apply Hset.
  - destruct v as [s | l]; [| discriminate].
    destruct (isdigit s); [| now intros [= <-]].
    destruct (table_get (int_of_str s) m); intros [= <-];
      [apply Hset | reflexivity].
Qed.

Lemma apply_conversions_keys (ms : dict table) (fu fu' : dict (value A)) :
  apply_conversions fu ms = Ok fu' -> keys fu' = keys fu.
Proof.
  revert fu.
  induction ms as [| [key m] ms IH]; intros fu Hrun.
  - unfold apply_conversions in Hrun. cbn in Hrun. now injection Hrun as <-.
  - rewrite apply_conversions_cons in Hrun.
    destruct (convert_key fu (key, m)) as [fu1 | e] eqn:Hstep; [| discriminate].
    cbn [bind] in Hrun. rewrite (IH fu1 Hrun).
    exact (convert_key_keys fu fu1 key m Hstep).
Qed.

Lemma conversions_give_strings (fu fu' : dict (value A)) :
  NoDup (keys fu) ->
  (forall k v, In (k, v) fu -> assembled_value k v) ->
  apply_conversions fu conversion_mappings = Ok fu' ->
  forall k v, In (k, v) fu' -> is_str v = true.
Proof.
  intros Hnd Hshape Hrun k v Hin.
  pose proof (apply_conversions_keys conversion_mappings fu fu' Hrun) as Hkeys.
  assert (Hget' : dict_get k fu' = Some v).
  { apply in_dict_get; [now rewrite Hkeys | exact Hin]. }
  assert (Hk : In k (keys fu)).
  { rewrite <- Hkeys. change k with (fst (k, v)). now apply in_map. }
  destruct (dict_get k fu) as [v0 |] eqn:Hget;
    [| now apply dict_get_none_keys in Hget].
  pose proof (Hshape k v0 (dict_get_in k v0 fu Hget)) as Hv0.
  destruct (dict_get k conversion_mappings) as [m |] eqn:Hm.
  - destruct (apply_conversions_mapped conversion_mappings fu fu' k m v0
                conversion_mappings_keys Hrun Hm Hget) as [v' [Hconv Hg]].
    rewrite Hget' in Hg. injection Hg as <-.
    exact (converted_is_str k m v0 v Hv0 Hconv).
  - apply dict_get_none_keys in Hm.
    rewrite (apply_conversions_unmapped conversion_mappings fu fu' k Hrun Hm)
      in Hget'.
    rewrite Hget in Hget'. injection Hget' as <-.
    destruct Hv0 as [Hstr | [Hone _]]; [exact Hstr | exfalso].
    apply Hm. destruct Hone as [<- | [<- | []]]; cbn; tauto.
Qed.

Lemma record_strings_total (d : dict (value A)) :
  (forall k v, In (k, v) d -> is_str v = true) ->
  exists rec, record_strings d = Some rec /\ keys rec = keys d.
Proof.
  induction d as [| [k v] d IH]; intros Hstr; [now exists [] |].
  destruct IH as [rec [Hrec Hkeys]].
  { intros k' v' Hin. apply (Hstr k' v'). now right. }
  destruct v as [s | l].
  - exists ((k, s) :: rec). cbn [record_strings]. rewrite Hrec.
    split; [reflexivity |]. cbn [keys map fst]. unfold keys in Hkeys.
    now rewrite Hkeys.
  - specialize (Hstr k (VList l) (or_introl eq_refl)). discriminate.
Qed.

Lemma slice_not_empty (values : list A) (a b : nat) :
  a < b -> a < length values -> slice values a b <> [].
Proof.
  intros Hab Ha Hempty.
  assert (Hlen : length (slice values a b) = 0) by now rewrite Hempty.
  unfold slice in Hlen. rewrite length_firstn, length_skipn in Hlen. lia.
Qed.

(** Every record that [field_record] returns is a record of strings: the
    two lists have been replaced by labels. *)
Lemma field_record_strings (values : list A) (fu : dict (value A)) :
  field_record values = Ok (Some fu) ->
  exists rec, record_strings fu = Some rec /\ keys rec = keys fu.
Proof.
  unfold field_record. cbn zeta.
  destruct (Nat.lt_ge_cases (length values) 56) as [Hshort | Hlen].
  - rewrite (pop_special_short values Hshort). discriminate.
  - rewrite (pop_special_ok values Hlen). cbn [bind].
    destruct (existsb _ _); [| discriminate].
    destruct (apply_conversions _ conversion_mappings) as [fu' | e] eqn:Hrun;
      cbn [bind]; [| discriminate].
    intros [= <-].
    apply record_strings_total.
    destruct (assemble_shape (slice values 51 54) (slice values 54 57)
                (firstn 52 values ++ skipn 56 values)) as [Hnd Hshape];
      [apply slice_not_empty; lia | apply slice_not_empty; lia |].
    exact (conversions_give_strings _ fu' Hnd Hshape Hrun).
Qed.

End Strings.

(** ** Concrete runs of the model *)

Example float_of_str_samples :
  map float_of_str
      ["0"; "0.0"; " -0 "; "0e5"; "1e-400"; "1_000.5"; "abc"; ""; "1e"; "nan";
       "-Infinity"; "12.5"]
  = [ Some (PDec false 0 0); Some (PDec false 0 (-1)); Some (PDec true 0 0);
      Some (PDec false 0 5); Some (PDec false 1 (-400));
      Some (PDec false 10005 (-1)); None; None; None; Some PNan;
      Some (PInf true); Some (PDec false 125 (-1)) ].
Proof. vm_compute. reflexivity. Qed.

Example written_value_samples :
  map (written_value "GOR")
      ["0"; "0.0"; " -0 "; "1e-400"; "abc"; ""; "nan"; "12.5"; "1e-323"]
  = ["0.00001"; "0.00001"; "0.00001"; "0.00001"; "0.00001"; "0.00001"; "nan";
     "12.5"; "1e-323"]
  /\ written_value "API" "0" = "0".
Proof. split; vm_compute; reflexivity. Qed.

Example apply_conversions_scalars :
  apply_conversions (A:=xl_cell)
    [("upgrader_type", VStr "9"); ("flood_gas_type", VStr "03");
     ("gas_processing_path", VStr "")]
    conversion_mappings
  = Ok [("upgrader_type", VStr "9"); ("flood_gas_type", VStr "CO2");
        ("gas_processing_path", VStr "")].
Proof. reflexivity. Qed.

Example process_column_full_sheet :
  exists fu,
    process_column (sample_sheet 120) 7 = Ok (Some fu)
    /\ length fu = 59
    /\ dict_get "age" fu = Some (VStr "")
    /\ dict_get "upgrader_type" fu = Some (VStr "Hydroconvention")
    /\ dict_get "ecosystem_richness" fu = Some (VStr "High carbon")
    /\ dict_get "field_development_intensity" fu = Some (VStr "Low")
    /\ dict_get "ocean_tanker_size" fu = None.
Proof. eexists. repeat split; vm_compute; reflexivity. Qed.

Example process_column_outside_sheet :
  process_column (sample_sheet 120) 8 = Raise IndexError.
Proof. reflexivity. Qed.

Example upsert_analysis_partial :
  upsert_analysis partial_document
  = Elem "Model" [] None
      [ Elem "Library" [] None
          [ Elem "Analysis" [("name", "FUSE_run")] None
              [ Elem "A" [("name", "GWP_horizon")] (Some "100") [];
                Elem "Group" [] (Some "all") [];
                Elem "A" [("name", "functional_unit")] (Some "oil") [];
                Elem "A" [("name", "GWP_version")] (Some "AR5") [] ] ];
        old_field "Beta" "31" ].
Proof. reflexivity. Qed.

Example merge_sample :
  merge sample_document sample_records
  = Ok (Elem "Model" [] None
          [ upsert_settings analysis_node;
            create_field_element "Beta" [("API", "35"); ("GOR", "0")];
            create_field_element "Alpha" [("API", "36"); ("heater_treater", "1")] ]).
Proof. reflexivity. Qed.

Example merge_nested_field_fails :
  merge nested_document sample_records = Raise ValueError.
Proof. reflexivity. Qed.

(** * Further properties of the code *)

(** ** The merge and the rest of the document *)

Lemma remove_stale_others (names : list string) (root root' : Element) :
  remove_stale root names = Ok root' ->
  other_children root' = other_children root.
Proof.
  intros Hrun. apply remove_stale_ok in Hrun. destruct Hrun as [-> _].
  unfold other_children. cbn [with_children children].
  rewrite filter_filter. apply filter_ext. intros c. unfold kept.
  destruct (is_template_field c); [| reflexivity].
  cbn [andb negb]. apply andb_false_r.
Qed.

Lemma replace_field_others (root root' : Element) (n : string) (rec : dict string) :
  replace_field root n rec = Ok root' ->
  other_children root' = other_children root.
Proof.
  intros Hrun. unfold other_children.
  destruct (created_is_field n rec) as [Hnew _].
  apply replace_field_ok in Hrun.
  destruct Hrun as [[_ Hcs] | [l1 [c [l2 [Hcs [Htpl [_ Hcs']]]]]]].
  - rewrite Hcs, filter_app. cbn [filter]. rewrite Hnew. cbn [negb].
    apply app_nil_r.
  - rewrite Hcs', Hcs, !filter_app. cbn [filter]. rewrite Hnew, Htpl. cbn [negb].
    apply app_nil_r.
Qed.

Lemma replace_fold_others (recs : dict (dict string)) (root root' : Element) :
  fold_left replace_step recs (Ok root) = Ok root' ->
  other_children root' = other_children root.
Proof.
  revert root.
  induction recs as [| [n rec] recs IH]; intros root Hrun; cbn [fold_left] in Hrun.
  - now injection Hrun as <-.
  - unfold replace_step at 2 in Hrun. cbn [bind fst snd] in Hrun.
    destruct (replace_field root n rec) as [root1 | e] eqn:Hstep;
      [| rewrite replace_after_raise in Hrun; discriminate].
    rewrite (IH root1 Hrun). exact (replace_field_others root root1 n rec Hstep).
Qed.

Lemma reconcile_fields_others (root root' : Element) (recs : dict (dict string)) :
  reconcile_fields root recs = Ok root' ->
  other_children root' = other_children root.
Proof.
  unfold reconcile_fields.
  destruct (remove_stale root (keys recs)) as [root1 | e] eqn:Hstale;
    cbn [bind]; [| discriminate].
  intros Hrun. rewrite (replace_fold_others recs root1 root' Hrun).
  exact (remove_stale_others (keys recs) root root1 Hstale).
Qed.

Lemma same_node_refl (e : Element) : same_node e e.
Proof. now repeat split. Qed.

Lemma same_node_trans (e1 e2 e3 : Element) :
  same_node e1 e2 -> same_node e2 e3 -> same_node e1 e3.
Proof.
  intros [H1 [H2 H3]] [H4 [H5 H6]]. repeat split; congruence.
Qed.

Lemma same_node_with_children (e : Element) (cs : list Element) :
  same_node e (with_children e cs).
Proof. now repeat split. Qed.

Lemma same_node_eq (e e' : Element) :
  same_node e e' -> e' = with_children e (children e').
Proof.
  destruct e as [t a x cs], e' as [t' a' x' cs'].
  intros [H1 [H2 H3]]. cbn in *. now subst.
Qed.

Lemma remove_stale_same (names : list string) (root root' : Element) :
  remove_stale root names = Ok root' -> same_node root root'.
Proof.
  intros Hrun. apply remove_stale_ok in Hrun. destruct Hrun as [-> _].
  apply same_node_with_children.
Qed.

Lemma replace_field_same (root root' : Element) (n : string) (rec : dict string) :
  replace_field root n rec = Ok root' -> same_node root root'.
Proof.
  unfold replace_field.
  destruct (find_field root n) as [[r d] |]; cbn [bind].
  - destruct r as [| i [| i' r]]; cbn [root_remove bind]; try discriminate.
    destruct (i <? length (children root)); cbn [bind]; [| discriminate].
    intros [= <-]. now repeat split.
  - intros [= <-]. now repeat split.
Qed.

Lemma replace_fold_same (recs : dict (dict string)) (root root' : Element) :
  fold_left replace_step recs (Ok root) = Ok root' -> same_node root root'.
Proof.
  revert root.
  induction recs as [| [n rec] recs IH]; intros root Hrun; cbn [fold_left] in Hrun.
  - injection Hrun as <-. apply same_node_refl.
  - unfold replace_step at 2 in Hrun. cbn [bind fst snd] in Hrun.
    destruct (replace_field root n rec) as [root1 | e] eqn:Hstep;
      [| rewrite replace_after_raise in Hrun; discriminate].
    apply (same_node_trans root root1 root').
    + exact (replace_field_same root root1 n rec Hstep).
    + exact (IH root1 Hrun).
Qed.

Lemma reconcile_fields_same (root root' : Element) (recs : dict (dict string)) :
  reconcile_fields root recs = Ok root' -> same_node root root'.
Proof.
  unfold reconcile_fields.
  destruct (remove_stale root (keys recs)) as [root1 | e] eqn:Hstale;
    cbn [bind]; [| discriminate].
  intros Hrun. apply (same_node_trans root root1 root').
  - exact (remove_stale_same (keys recs) root root1 Hstale).
  - exact (replace_fold_same recs root1 root' Hrun).
Qed.

(** ** The children of the root after a run on unique keys *)

Lemma no_other_keyed (l1 l2 : list Element) (c x : Element) (n : string) :
  NoDup (field_keys (l1 ++ c :: l2)) ->
  is_template_field c = true -> named n c = true ->
  In x (l1 ++ l2) ->
  is_template_field x && named n x = false.
Proof.
  intros Hnd Htpl Hnamed Hx.
  destruct (is_template_field x) eqn:Hxt; [| reflexivity].
  destruct (named n x) eqn:Hxn; [exfalso | reflexivity].
  rewrite field_keys_app, (field_keys_cons c l2) in Hnd.
  apply NoDup_app_inv in Hnd. destruct Hnd as [_ [Hrest H1rest]].
  apply NoDup_app_inv in Hrest. destruct Hrest as [_ [_ Hc2]].
  assert (Hkey : In (Some n) (field_keys [c])).
  { apply named_field_key in Hnamed. rewrite <- Hnamed. now apply field_keys_head. }
  assert (Hxkey : forall l, In x l -> In (Some n) (field_keys l)).
  { intros l Hl. apply in_field_keys. exists x.
    split; [now apply in_children_elements |].
    split; [exact Hxt | now apply named_field_key]. }
  apply in_app_iff in Hx. destruct Hx as [Hx | Hx].
  - apply (H1rest (Some n) (Hxkey l1 Hx)). apply in_app_iff. now left.
  - exact (Hc2 (Some n) Hkey (Hxkey l2 Hx)).
Qed.

Lemma required_cons (n : string) (names : list string) (c : Element) :
  required (n :: names) c = named n c || required names c.
Proof.
  unfold required, named. destruct (get c "name") as [m |]; [| reflexivity].
  unfold in_list. cbn [existsb]. reflexivity.
Qed.

Lemma replace_fold_closed (recs : dict (dict string)) (root root' : Element) :
  NoDup (keys recs) ->
  keys_unique root ->
  fold_left replace_step recs (Ok root) = Ok root' ->
  children root'
  = filter (fun c => negb (is_template_field c && required (keys recs) c))
           (children root)
    ++ created_fields recs.
Proof.
  revert root.
  induction recs as [| [n rec] recs IH]; intros root Hnd Hu Hrun;
    cbn [fold_left] in Hrun.
  - injection Hrun as <-. cbn [created_fields map]. rewrite app_nil_r.
    symmetry. apply filter_all. intros c _.
    unfold required, keys. cbn [map]. unfold in_list. cbn [existsb].
    destruct (get c "name"); now rewrite andb_false_r.
  - unfold replace_step at 2 in Hrun. cbn [bind fst snd] in Hrun.
    destruct (replace_field root n rec) as [root1 | e] eqn:Hstep;
      [| rewrite replace_after_raise in Hrun; discriminate].
    cbn [keys map fst] in Hnd. inversion Hnd as [| ? ? Hfresh Hnd']; subst.
    pose proof (replace_field_unique root root1 n rec Hstep Hu) as Hu1.
    rewrite (IH root1 Hnd' Hu1 Hrun).
    cbn [created_fields map fst snd keys]. fold (keys recs).
    fold (created_fields recs).
    change (create_field_element n rec :: created_fields recs)
      with ([create_field_element n rec] ++ created_fields recs).
    rewrite app_assoc. f_equal.
    assert (Hnewkept :
              negb (is_template_field (create_field_element n rec)
                    && required (keys recs) (create_field_element n rec)) = true).
    { destruct (created_is_field n rec) as [_ [_ Hkey]].
      unfold required. unfold field_key in Hkey. rewrite Hkey.
      destruct (in_list n (keys recs)) eqn:Hin.
      - apply in_list_In in Hin. contradiction.
      - now rewrite andb_false_r. }
    apply keys_unique_field_keys in Hu.
    apply replace_field_ok in Hstep.
    destruct Hstep as [[Hnone Hcs] | [l1 [c [l2 [Hcs [Htpl [Hnamed Hcs']]]]]]].
    + rewrite Hcs, filter_app. cbn [filter]. rewrite Hnewkept. f_equal.
      apply filter_ext_in. intros x Hx. rewrite required_cons.
      destruct (is_template_field x) eqn:Hxt; [| reflexivity].
      now rewrite (Hnone x (in_children_elements _ x Hx) Hxt).
    + rewrite Hcs', filter_app. cbn [filter]. rewrite Hnewkept. f_equal.
      rewrite Hcs in Hu |- *. rewrite !filter_app. cbn [filter].
      rewrite required_cons, Htpl, Hnamed. cbn [andb orb negb].
      assert (Hext : forall l, (forall x, In x l -> In x (l1 ++ l2)) ->
                filter (fun c0 => negb (is_template_field c0
                                        && required (keys recs) c0)) l
                = filter (fun c0 => negb (is_template_field c0
                                          && required (n :: keys recs) c0)) l).
      { intros l Hl. apply filter_ext_in. intros x Hx. rewrite required_cons.
        pose proof (no_other_keyed l1 l2 c x n Hu Htpl Hnamed (Hl x Hx)) as Hno.
        destruct (is_template_field x); [| reflexivity].
        cbn [andb] in Hno |- *. now rewrite Hno. }
      rewrite (Hext l1), (Hext l2); [reflexivity | |];
        intros x Hx; apply in_app_iff; tauto.
Qed.

Lemma reconcile_fields_closed (root root' : Element) (recs : dict (dict string)) :
  NoDup (keys recs) ->
  keys_unique root ->
  reconcile_fields root recs = Ok root' ->
  children root' = other_children root ++ created_fields recs.
Proof.
  intros Hnd Hu. unfold reconcile_fields.
  destruct (remove_stale root (keys recs)) as [root1 | e] eqn:Hstale;
    cbn [bind]; [| discriminate].
  intros Hrun.
  pose proof (remove_stale_unique (keys recs) root root1 Hstale Hu) as Hu1.
  rewrite (replace_fold_closed recs root1 root' Hnd Hu1 Hrun). f_equal.
  apply remove_stale_ok in Hstale. destruct Hstale as [-> _].
  cbn [with_children children]. unfold other_children.
  rewrite filter_filter. apply filter_ext. intros c. unfold kept.
  destruct (is_template_field c); [| reflexivity].
  cbn [andb]. now destruct (required (keys recs) c).
Qed.

Lemma created_fields_templates (recs : dict (dict string)) :
  filter is_template_field (elements (created_fields recs)) = created_fields recs.
Proof.
  induction recs as [| [n rec] recs IH]; [reflexivity |].
  cbn [created_fields map fst snd]. fold (created_fields recs).
  change (create_field_element n rec :: created_fields recs)
    with ([create_field_element n rec] ++ created_fields recs).
  now rewrite elements_app, filter_app, template_fields_created, IH.
Qed.

Lemma in_created_fields (recs : dict (dict string)) (n : string) :
  In n (keys recs) ->
  exists rec, In (create_field_element n rec) (created_fields recs).
Proof.
  intros Hn. apply in_map_iff in Hn. destruct Hn as [[n' rec] [Heq Hin]].
  cbn [fst] in Heq. subst n'. exists rec.
  unfold created_fields. apply in_map_iff. now exists (n, rec).
Qed.

(** After a run on unique keys the template fields of the document are the
    nodes the run built, and nothing else. *)
Lemma reconcile_fields_templates (root root' : Element) (recs : dict (dict string)) :
  NoDup (keys recs) ->
  keys_unique root ->
  reconcile_fields root recs = Ok root' ->
  filter is_template_field (elements (other_children root)) = []
  /\ template_fields root' = created_fields recs.
Proof.
  intros Hnd Hu Hrun.
  pose proof (reconcile_fields_closed root root' recs Hnd Hu Hrun) as Hcs.
  pose proof (reconcile_fields_unique root root' recs Hu Hrun) as Hu'.
  pose proof (reconcile_fields_required root root' recs Hrun) as Hreq.
  apply keys_unique_field_keys in Hu'. rewrite Hcs, field_keys_app in Hu'.
  apply NoDup_app_inv in Hu'. destruct Hu' as [_ [_ Hdisj]].
  assert (Hnone : filter is_template_field (elements (other_children root)) = []).
  { apply filter_none. intros d Hd.
    destruct (is_template_field d) eqn:Htpl; [exfalso | reflexivity].
    assert (Hin : In d (template_fields root')).
    { apply in_template_fields. split; [| exact Htpl].
      rewrite Hcs, elements_app. apply in_app_iff. now left. }
    specialize (Hreq d Hin). unfold required in Hreq.
    destruct (get d "name") as [n |] eqn:Hname; [| discriminate].
    apply in_list_In in Hreq.
    destruct (in_created_fields recs n Hreq) as [rec Hnew].
    apply (Hdisj (Some n)).
    - apply in_field_keys. exists d. now repeat split.
    - apply in_field_keys. exists (create_field_element n rec).
      split; [now apply in_children_elements |].
      destruct (created_is_field n rec) as [H1 [_ H3]]. now split. }
  split; [exact Hnone |].
  rewrite template_fields_elements, Hcs, elements_app, filter_app, Hnone.
  apply created_fields_templates.
Qed.

Lemma reconcile_fields_flat_after (root root' : Element) (recs : dict (dict string)) :
  NoDup (keys recs) ->
  keys_unique root ->
  reconcile_fields root recs = Ok root' ->
  fields_flat root'.
Proof.
  intros Hnd Hu Hrun.
  pose proof (reconcile_fields_closed root root' recs Hnd Hu Hrun) as Hcs.
  destruct (reconcile_fields_templates root root' recs Hnd Hu Hrun) as [Hnone _].
  intros c d Hc Hd. rewrite Hcs in Hc. apply in_app_iff in Hc.
  destruct Hc as [Hc | Hc].
  - destruct (is_template_field d) eqn:Htpl; [exfalso | reflexivity].
    assert (Hin : In d (filter is_template_field (elements (other_children root)))).
    { apply filter_In. split; [| exact Htpl].
      apply in_elements. exists c. split; [exact Hc | now right]. }
    rewrite Hnone in Hin. destruct Hin.
  - unfold created_fields in Hc. apply in_map_iff in Hc.
    destruct Hc as [[n rec] [<- _]]. cbn [fst snd] in Hd.
    exact (created_inner_not_field n rec d Hd).
Qed.

Lemma with_children_same (e : Element) : with_children e (children e) = e.
Proof. now destruct e. Qed.


Lemma reconcile_fields_again (root root1 : Element) (recs : dict (dict string)) :
  NoDup (keys recs) ->
  keys_unique root ->
  reconcile_fields root recs = Ok root1 ->
  reconcile_fields root1 recs = Ok root1.
Proof.
  intros Hnd Hu Hrun.
  pose proof (reconcile_fields_flat_after root root1 recs Hnd Hu Hrun) as Hflat.
  destruct (reconcile_fields_total root1 recs Hflat) as [root2 [Hrun2 _]].
  rewrite Hrun2. f_equal.
  pose proof (reconcile_fields_unique root root1 recs Hu Hrun) as Hu1.
  pose proof (reconcile_fields_closed root1 root2 recs Hnd Hu1 Hrun2) as Hcs2.
  pose proof (reconcile_fields_closed root root1 recs Hnd Hu Hrun) as Hcs1.
  rewrite (reconcile_fields_others root root1 recs Hrun), <- Hcs1 in Hcs2.
  rewrite (same_node_eq root1 root2 (reconcile_fields_same root1 root2 recs Hrun2)).
  rewrite Hcs2. apply with_children_same.
Qed.

(** ** The settings of the Analysis node *)

Lemma find_setting_some (key : string) (cs : list Element) (i : nat) :
  find_setting key cs = Some i ->
  exists c, nth_error cs i = Some c
            /\ String.eqb (tag c) "A" = true /\ named key c = true.
Proof.
  revert i.
  induction cs as [| c cs IH]; intros i; cbn [find_setting]; [discriminate |].
  destruct (String.eqb (tag c) "A" && named key c) eqn:Hc.
  - intros [= <-]. exists c. apply andb_true_iff in Hc. now split.
  - destruct (find_setting key cs) as [j |]; cbn [option_map]; [| discriminate].
    intros [= <-]. exact (IH j eq_refl).
Qed.

Lemma find_setting_update (key : string) (g : Element -> Element) (i : nat)
    (cs : list Element) :
  (forall c, tag (g c) = tag c /\ attrib (g c) = attrib c) ->
  find_setting key (update_nth i g cs) = find_setting key cs.
Proof.
  intros Hg. revert i.
  induction cs as [| c cs IH]; intros i; [reflexivity |].
  destruct i as [| i]; cbn [update_nth find_setting].
  - destruct (Hg c) as [Ht Ha]. unfold named, get. now rewrite Ht, Ha.
  - now rewrite IH.
Qed.

Lemma find_setting_app (key : string) (cs : list Element) (x : Element) :
  find_setting key (cs ++ [x])
  = match find_setting key cs with
    | Some i => Some i
    | None => if String.eqb (tag x) "A" && named key x
              then Some (length cs) else None
    end.
Proof.
  induction cs as [| c cs IH]; cbn [app find_setting length].
  - now destruct (String.eqb (tag x) "A" && named key x).
  - destruct (String.eqb (tag c) "A" && named key c); [reflexivity |].
    rewrite IH. destruct (find_setting key cs); [reflexivity |].
    now destruct (String.eqb (tag x) "A" && named key x).
Qed.

Lemma nth_error_update_same (g : Element -> Element) (i : nat) (cs : list Element) :
  nth_error (update_nth i g cs) i = option_map g (nth_error cs i).
Proof.
  revert i. induction cs as [| c cs IH]; intros [| i]; cbn; auto.
Qed.

Lemma nth_error_update_other (g : Element -> Element) (i j : nat)
    (cs : list Element) :
  i <> j -> nth_error (update_nth i g cs) j = nth_error cs j.
Proof.
  revert i j.
  induction cs as [| c cs IH]; intros [| i] [| j] Hne; cbn;
    solve [reflexivity | contradiction | apply IH; congruence].
Qed.

Lemma update_nth_fixed (g : Element -> Element) (i : nat) (cs : list Element)
    (c : Element) :
  nth_error cs i = Some c -> g c = c -> update_nth i g cs = cs.
Proof.
  revert i. induction cs as [| c0 cs IH]; intros [| i]; cbn; try discriminate.
  - intros [= ->] Hg. now rewrite Hg.
  - intros Hn Hg. now rewrite (IH i Hn Hg).
Qed.

Lemma with_text_shape (value : string) (c : Element) :
  tag (with_text value c) = tag c /\ attrib (with_text value c) = attrib c.
Proof. now destruct c. Qed.

Lemma named_same (k k' : string) (c : Element) :
  named k c = true -> named k' c = true -> k = k'.
Proof.
  unfold named. destruct (get c "name") as [m |]; [| discriminate].
  intros H1 H2. apply String.eqb_eq in H1, H2. congruence.
Qed.

Lemma new_setting_named (key value : string) :
  String.eqb (tag (Elem "A" [("name", key)] (Some value) [])) "A"
  && named key (Elem "A" [("name", key)] (Some value) []) = true.
Proof.
  unfold named, get. cbn. apply String.eqb_refl.
Qed.

Lemma read_setting_upsert_same (e : Element) (key value : string) :
  read_setting key (upsert_setting e (key, value)) = Some (Some value).
Proof.
  unfold upsert_setting, read_setting. cbn [fst snd].
  destruct (find_setting key (children e)) as [i |] eqn:Hfind.
  - cbn [with_children children].
    rewrite (find_setting_update key _ i _ (with_text_shape value)), Hfind.
    rewrite nth_error_update_same.
    destruct (find_setting_some key _ i Hfind) as [c [-> _]]. now destruct c.
  - cbn [append with_children children].
    rewrite find_setting_app, Hfind, (new_setting_named key value).
    rewrite nth_error_app2, Nat.sub_diag by lia. reflexivity.
Qed.

Lemma read_setting_upsert_other (e : Element) (key key' value : string) :
  key' <> key ->
  read_setting key' (upsert_setting e (key, value)) = read_setting key' e.
Proof.
  intros Hne. unfold upsert_setting, read_setting. cbn [fst snd].
  destruct (find_setting key (children e)) as [i |] eqn:Hfind.
  - cbn [with_children children].
    rewrite (find_setting_update key' _ i _ (with_text_shape value)).
    destruct (find_setting key' (children e)) as [j |] eqn:Hfind'; [| reflexivity].
    rewrite nth_error_update_other; [reflexivity |].
    intros ->.
    destruct (find_setting_some key _ j Hfind) as [c [Hc [_ Hn]]].
    destruct (find_setting_some key' _ j Hfind') as [c' [Hc' [_ Hn']]].
    rewrite Hc in Hc'. injection Hc' as <-.
    apply Hne. exact (named_same key' key c Hn' Hn).
  - cbn [append with_children children]. rewrite find_setting_app.
    destruct (find_setting key' (children e)) as [j |] eqn:Hfind'.
    + destruct (find_setting_some key' _ j Hfind') as [c [Hc _]].
      rewrite nth_error_app1; [reflexivity |].
      apply nth_error_Some. congruence.
    + replace (named key' (Elem "A" [("name", key)] (Some value) []))
        with false; [now rewrite andb_false_r |].
      unfold named, get. cbn.
      destruct (String.eqb_spec key key'); [congruence | reflexivity].
Qed.

Lemma group_test_update (value : string) (i : nat) (cs : list Element)
    (c : Element) :
  nth_error cs i = Some c ->
  String.eqb (tag c) "A" = true ->
  existsb (fun g => String.eqb (tag g) "Group"
                    && match text g with
                       | Some t => String.eqb t "all"
                       | None => false
                       end)
          (update_nth i (with_text value) cs)
  = existsb (fun g => String.eqb (tag g) "Group"
                      && match text g with
                         | Some t => String.eqb t "all"
                         | None => false
                         end) cs.
Proof.
  intros Hc Htag. revert i Hc.
  induction cs as [| c0 cs IH]; intros [| i] Hc; cbn in Hc |- *;
    try discriminate.
  - injection Hc as ->. destruct c as [t a x k]. cbn in Htag |- *.
    apply String.eqb_eq in Htag. subst t. reflexivity.
  - now rewrite (IH i Hc).
Qed.

Lemma group_exists_upsert (e : Element) (kv : string * string) :
  group_exists (upsert_setting e kv) = group_exists e.
Proof.
  unfold upsert_setting, group_exists.
  destruct (find_setting (fst kv) (children e)) as [i |] eqn:Hfind.
  - cbn [with_children children].
    destruct (find_setting_some _ _ i Hfind) as [c [Hc [Htag _]]].
    exact (group_test_update (snd kv) i (children e) c Hc Htag).
  - cbn [append with_children children]. rewrite existsb_app. cbn.
    apply orb_false_r.
Qed.

Lemma settings_fold_other (settings : dict string) (e : Element) (key : string) :
  ~ In key (keys settings) ->
  read_setting key (fold_left upsert_setting settings e) = read_setting key e.
Proof.
  revert e.
  induction settings as [| [k v] settings IH]; intros e Hk; cbn [fold_left];
    [reflexivity |].
  rewrite IH by (intros Hin; apply Hk; now right).
  apply read_setting_upsert_other. intros ->. apply Hk. now left.
Qed.

Lemma settings_fold_reads (settings : dict string) (e : Element) :
  NoDup (keys settings) ->
  forall key value, In (key, value) settings ->
    read_setting key (fold_left upsert_setting settings e) = Some (Some value).
Proof.
  revert e.
  induction settings as [| [k v] settings IH]; intros e Hnd key value Hin;
    [destruct Hin |].
  cbn [keys map fst] in Hnd. inversion Hnd as [| ? ? Hfresh Hnd']; subst.
  cbn [fold_left]. destruct Hin as [[= -> ->] | Hin].
  - rewrite settings_fold_other by exact Hfresh.
    apply read_setting_upsert_same.
  - now apply IH.
Qed.

Lemma settings_fold_group (settings : dict string) (e : Element) :
  group_exists (fold_left upsert_setting settings e) = group_exists e.
Proof.
  revert e.
  induction settings as [| kv settings IH]; intros e; cbn [fold_left];
    [reflexivity |].
  rewrite IH. apply group_exists_upsert.
Qed.

Lemma analysis_updates_keys : NoDup (keys analysis_updates).
Proof.
  unfold analysis_updates, keys. cbn [map fst].
  repeat (constructor; [simpl; intuition discriminate |]). constructor.
Qed.

Lemma upsert_settings_settled (e : Element) : settled (upsert_settings e).
Proof.
  unfold settled, upsert_settings. split.
  - rewrite settings_fold_group.
    destruct (group_exists e) eqn:Hg; [exact Hg |].
    unfold group_exists. cbn [append with_children children].
    rewrite existsb_app. cbn. apply orb_true_r.
  - intros key value Hin.
    now apply settings_fold_reads; [apply analysis_updates_keys |].
Qed.

Lemma upsert_setting_fixed (e : Element) (key value : string) :
  read_setting key e = Some (Some value) ->
  upsert_setting e (key, value) = e.
Proof.
  unfold read_setting, upsert_setting. cbn [fst snd].
  destruct (find_setting key (children e)) as [i |]; [| discriminate].
  destruct (nth_error (children e) i) as [c |] eqn:Hc; cbn [option_map];
    [| discriminate].
  intros [= Htext].
  rewrite (update_nth_fixed (with_text value) i (children e) c Hc).
  - apply with_children_same.
  - destruct c as [t a x k]. cbn in Htext |- *. now subst.
Qed.

Lemma settings_fold_fixed (settings : dict string) (e : Element) :
  (forall key value, In (key, value) settings ->
                     read_setting key e = Some (Some value)) ->
  fold_left upsert_setting settings e = e.
Proof.
  induction settings as [| [k v] settings IH]; intros Hreads; cbn [fold_left];
    [reflexivity |].
  rewrite (upsert_setting_fixed e k v) by (apply Hreads; now left).
  apply IH. intros key value Hin. apply Hreads. now right.
Qed.

Lemma settled_fixed (e : Element) : settled e -> upsert_settings e = e.
Proof.
  intros [Hgroup Hreads]. unfold upsert_settings. rewrite Hgroup.
  now apply settings_fold_fixed.
Qed.

(** ** Finding the Analysis node again *)

Lemma hd_error_app {X : Type} (l1 l2 : list X) :
  hd_error (l1 ++ l2)
  = match hd_error l1 with
    | Some x => Some x
    | None => hd_error l2
    end.
Proof. now destruct l1. Qed.

Lemma hd_error_filter_in {X : Type} (p : X -> bool) (l : list X) (x : X) :
  hd_error (filter p l) = Some x -> In x l /\ p x = true.
Proof.
  intros Hhd. apply filter_In.
  destruct (filter p l) as [| y l']; [discriminate |].
  injection Hhd as ->. now left.
Qed.

Lemma filter_under (p : Element -> bool) (k : nat) (l : list (ref * Element)) :
  filter (fun re => p (snd re)) (under k l)
  = under k (filter (fun re => p (snd re)) l).
Proof.
  induction l as [| [r e] l IH]; [reflexivity |].
  cbn [under map filter fst snd]. fold (under k l).
  destruct (p e); cbn [under map fst snd]; fold (under k l); now rewrite IH.
Qed.

Lemma hd_error_under (k : nat) (l : list (ref * Element)) :
  hd_error (under k l)
  = option_map (fun re => (k :: fst re, snd re)) (hd_error l).
Proof. now destruct l. Qed.

Lemma update_at_shape (r : ref) (f : Element -> Element) :
  (forall y, tag (f y) = tag y /\ attrib (f y) = attrib y) ->
  forall x, tag (update_at r f x) = tag x /\ attrib (update_at r f x) = attrib x.
Proof.
  intros Hf. destruct r as [| i r]; intros x; cbn [update_at]; [apply Hf |].
  now split.
Qed.

Lemma is_analysis_shape (x y : Element) :
  tag y = tag x /\ attrib y = attrib x -> is_analysis y = is_analysis x.
Proof.
  intros [Ht Ha]. unfold is_analysis, named, get. now rewrite Ht, Ha.
Qed.

Section FirstAnalysis.

Variable f : Element -> Element.
Hypothesis f_shape : forall y, tag (f y) = tag y /\ attrib (f y) = attrib y.

Lemma first_analysis_children_step (r' : ref)
    (IHr : forall x e, first_analysis (walk x) = Some (r', e) ->
                       first_analysis (walk (update_at r' f x)) = Some (r', f e))
    (cs : list Element) :
  forall k i e,
    first_analysis (walk_children k cs) = Some ((k + i) :: r', e) ->
    first_analysis (walk_children k (update_nth i (update_at r' f) cs))
    = Some ((k + i) :: r', f e).
Proof using f_shape.
  unfold first_analysis in *.
  induction cs as [| c cs IH]; intros k i e Hfirst; [discriminate |].
  cbn [walk_children] in Hfirst.
  rewrite filter_app, hd_error_app, filter_under, hd_error_under in Hfirst.
  destruct (hd_error (filter (fun re => is_analysis (snd re)) (walk c)))
    as [[r0 e0] |] eqn:Hc; cbn [option_map fst snd] in Hfirst.
  - injection Hfirst as Hk -> ->.
    assert (i = 0) by lia. subst i.
    cbn [update_nth walk_children].
    rewrite filter_app, hd_error_app, filter_under, hd_error_under.
    rewrite (IHr c e Hc). cbn [option_map fst snd].
    now rewrite Nat.add_0_r.
  - assert (Hin : In ((k + i) :: r', e) (walk_children (S k) cs))
      by exact (proj1 (hd_error_filter_in _ _ _ Hfirst)).
    apply in_walk_children in Hin. destruct Hin as [j [c' [r'' [Heq _]]]].
    injection Heq as Hk _.
    assert (i = S j) by lia. subst i.
    replace (k + S j) with (S k + j) in * by lia.
    cbn [update_nth walk_children].
    rewrite filter_app, hd_error_app, filter_under, hd_error_under, Hc.
    cbn [option_map]. exact (IH (S k) j e Hfirst).
Qed.

Lemma first_after_update (r : ref) :
  forall x e,
    first_analysis (walk x) = Some (r, e) ->
    first_analysis (walk (update_at r f x)) = Some (r, f e).
Proof using f_shape.
  induction r as [| i r' IHr]; intros x e Hfirst.
  - cbn [update_at]. unfold first_analysis in *.
    rewrite walk_unfold in Hfirst |- *. cbn [filter snd] in Hfirst |- *.
    rewrite (is_analysis_shape x (f x) (f_shape x)).
    destruct (is_analysis x).
    + cbn [hd_error] in Hfirst |- *. now injection Hfirst as <-.
    + exfalso.
      assert (Hin : In ([], e) (walk_children 0 (children x)))
        by exact (proj1 (hd_error_filter_in _ _ _ Hfirst)).
      apply in_walk_children in Hin. destruct Hin as [j [c [r' [Heq _]]]].
      discriminate.
  - cbn [update_at]. unfold first_analysis in Hfirst |- *.
    rewrite walk_unfold in Hfirst. rewrite walk_unfold.
    cbn [filter snd] in Hfirst |- *.
    rewrite (is_analysis_shape x
               (with_children x (update_nth i (update_at r' f) (children x)))
               (conj eq_refl eq_refl)).
    destruct (is_analysis x); [discriminate |].
    exact (first_analysis_children_step r' IHr (children x) 0 i e Hfirst).
Qed.

End FirstAnalysis.

Lemma update_at_fixed (f : Element -> Element) (r : ref) :
  forall x e, In (r, e) (walk x) -> f e = e -> update_at r f x = x.
Proof.
  induction r as [| i r IH]; intros x e Hin Hf; cbn [update_at].
  - apply in_walk_root in Hin. now subst.
  - rewrite walk_unfold in Hin. destruct Hin as [Heq | Hin]; [discriminate |].
    apply in_walk_children in Hin. destruct Hin as [j [c [r' [Heq [Hc Hin]]]]].
    cbn [Nat.add] in Heq. injection Heq as -> ->.
    rewrite (update_nth_fixed (update_at r' f) j (children x) c Hc).
    + apply with_children_same.
    + exact (IH c e Hin Hf).
Qed.

Lemma find_analysis_first (root : Element) :
  find_analysis root = first_analysis (descendants root).
Proof. reflexivity. Qed.

Lemma upsert_settings_shape (y : Element) :
  tag (upsert_settings y) = tag y /\ attrib (upsert_settings y) = attrib y.
Proof.
  destruct (keeps_fields_upsert_settings y) as [Ht [Ha _]]. now split.
Qed.

Lemma walk_children_app (k : nat) (l1 l2 : list Element) :
  walk_children k (l1 ++ l2)
  = walk_children k l1 ++ walk_children (k + length l1) l2.
Proof.
  revert k.
  induction l1 as [| c l1 IH]; intros k; cbn [app walk_children length].
  - now rewrite Nat.add_0_r.
  - rewrite IH, <- app_assoc. do 3 f_equal. lia.
Qed.

Lemma new_analysis_is_analysis :
  is_analysis (upsert_settings (Elem "Analysis" [("name", "FUSE_run")] None []))
  = true.
Proof.
  rewrite (is_analysis_shape _ _ (upsert_settings_shape _)). reflexivity.
Qed.

(** After the Analysis step the document holds an Analysis node, the first
    one in document order is the one the step worked on, and it is settled. *)
Lemma find_upserted (root : Element) :
  exists r e,
    find_analysis (upsert_analysis root) = Some (r, e)
    /\ settled e
    /\ match find_analysis root with
       | Some (r0, e0) => r = r0 /\ e = upsert_settings e0
       | None =>
           r = [length (children root)]
           /\ e = upsert_settings (Elem "Analysis" [("name", "FUSE_run")] None [])
       end.
Proof.
  unfold upsert_analysis.
  destruct (find_analysis root) as [[r0 e0] |] eqn:Hfind.
  - exists r0, (upsert_settings e0).
    split; [| split; [apply upsert_settings_settled | now split]].
    destruct (find_analysis_below root r0 e0 Hfind) as [i [r' ->]].
    rewrite find_analysis_first in Hfind |- *.
    cbn [update_at]. unfold descendants in Hfind |- *.
    cbn [with_children children].
    exact (first_analysis_children_step upsert_settings upsert_settings_shape r'
             (first_after_update upsert_settings upsert_settings_shape r')
             (children root) 0 i e0 Hfind).
  - eexists. eexists.
    split; [| split; [apply upsert_settings_settled | split; reflexivity]].
    rewrite find_analysis_first in Hfind |- *.
    unfold first_analysis, descendants in Hfind |- *.
    cbn [append with_children children].
    rewrite walk_children_app, filter_app, hd_error_app, Hfind.
    cbn [walk_children Nat.add]. rewrite app_nil_r, walk_unfold.
    cbn [under map fst snd filter].
    now rewrite new_analysis_is_analysis.
Qed.


Lemma settled_found_fixed (x : Element) (r : ref) (e : Element) :
  find_analysis x = Some (r, e) -> settled e -> upsert_analysis x = x.
Proof.
  intros Hfind Hsettled. unfold upsert_analysis. rewrite Hfind.
  apply (update_at_fixed upsert_settings r x e).
  - rewrite find_analysis_first in Hfind.
    apply hd_error_filter_in in Hfind. rewrite walk_unfold. right.
    exact (proj1 Hfind).
  - now apply settled_fixed.
Qed.

(** ** The merge run again *)

Lemma filter_map_analysis (l : list (ref * Element)) :
  map snd (filter (fun re => is_analysis (snd re)) l)
  = filter is_analysis (map snd l).
Proof.
  induction l as [| [r e] l IH]; [reflexivity |].
  cbn [filter map snd]. destruct (is_analysis e); cbn [map snd]; now rewrite IH.
Qed.

Lemma find_analysis_element (x : Element) :
  option_map snd (find_analysis x)
  = hd_error (filter is_analysis (elements (children x))).
Proof.
  rewrite find_analysis_first. unfold first_analysis, descendants.
  rewrite <- (walk_children_elements 0 (children x)), <- filter_map_analysis.
  now destruct (filter _ (walk_children 0 (children x))).
Qed.

Lemma analyses_outside (cs : list Element) :
  (forall c d, In c cs -> is_template_field c = true ->
               In d (elements [c]) -> is_analysis d = false) ->
  filter is_analysis
         (elements (filter (fun c => negb (is_template_field c)) cs))
  = filter is_analysis (elements cs).
Proof.
  induction cs as [| c cs IH]; intros Hout; [reflexivity |].
  assert (Hrest : forall c0 d, In c0 cs -> is_template_field c0 = true ->
                               In d (elements [c0]) -> is_analysis d = false).
  { intros c0 d Hc0. apply Hout. now right. }
  specialize (IH Hrest).
  change (c :: cs) with ([c] ++ cs) at 2. rewrite elements_app, filter_app.
  cbn [filter]. destruct (is_template_field c) eqn:Htpl; cbn [negb].
  - rewrite IH.
    rewrite (filter_none is_analysis (elements [c])); [reflexivity |].
    intros d Hd. exact (Hout c d (or_introl eq_refl) Htpl Hd).
  - change (c :: filter (fun c0 => negb (is_template_field c0)) cs)
      with ([c] ++ filter (fun c0 => negb (is_template_field c0)) cs).
    now rewrite elements_app, filter_app, IH.
Qed.

Lemma created_holds_no_analysis (n : string) (rec : dict string) (d : Element) :
  In d (elements [create_field_element n rec]) -> is_analysis d = false.
Proof.
  intros Hd. rewrite elements_cons in Hd. cbn [elements flat_map] in Hd.
  rewrite app_nil_r in Hd. destruct Hd as [<- | Hd]; [reflexivity |].
  apply in_elements in Hd. destruct Hd as [c [Hc Hd]].
  cbn [create_field_element children] in Hc.
  assert (Htag : tag d = "Group" \/ tag d = "A" \/ tag d = "Process").
  { destruct Hc as [<- | Hc].
    - destruct Hd as [-> | Hd]; [now left | destruct Hd].
    - apply in_flat_map in Hc. destruct Hc as [[k v] [_ Hc]].
      right. exact (field_children_tags k v c d Hc Hd). }
  unfold is_analysis.
  destruct Htag as [-> | [-> | ->]]; reflexivity.
Qed.

Lemma created_fields_no_analysis (recs : dict (dict string)) :
  filter is_analysis (elements (created_fields recs)) = [].
Proof.
  apply filter_none. intros d Hd. apply in_flat_map in Hd.
  destruct Hd as [c [Hc Hd]]. unfold created_fields in Hc.
  apply in_map_iff in Hc. destruct Hc as [[n rec] [<- _]].
  apply (created_holds_no_analysis n rec). cbn [elements flat_map fst snd].
  now rewrite app_nil_r.
Qed.

Lemma in_update_nth_at (g : Element -> Element) (i : nat) (cs : list Element)
    (c' : Element) :
  In c' (update_nth i g cs) ->
  In c' cs \/ exists c, nth_error cs i = Some c /\ c' = g c.
Proof.
  revert i.
  induction cs as [| c cs IH]; intros i; [intros [] |].
  destruct i as [| i]; cbn [update_nth In nth_error].
  - intros [<- | Hin]; [right; now exists c | left; now right].
  - intros [<- | Hin]; [left; now left |].
    destruct (IH i Hin) as [Hc | Hc]; [left; now right | now right].
Qed.

Lemma is_template_field_shape (x y : Element) :
  tag y = tag x /\ attrib y = attrib x ->
  is_template_field y = is_template_field x.
Proof.
  intros [Ht Ha]. unfold is_template_field, get. now rewrite Ht, Ha.
Qed.

Lemma upsert_analysis_outside (root : Element) :
  analysis_outside_fields root ->
  analysis_outside_fields (upsert_analysis root).
Proof.
  intros Hout c' d Hc' Htpl. unfold upsert_analysis in Hc'.
  destruct (find_analysis root) as [[r e] |] eqn:Hfind.
  - destruct (find_analysis_below root r e Hfind) as [i [r' ->]].
    cbn [update_at with_children children] in Hc'.
    apply in_update_nth_at in Hc'.
    destruct Hc' as [Hc' | [c [Hc ->]]]; [now apply Hout |].
    exfalso.
    rewrite (is_template_field_shape c _
               (update_at_shape r' upsert_settings upsert_settings_shape c))
      in Htpl.
    rewrite find_analysis_first in Hfind.
    apply hd_error_filter_in in Hfind. destruct Hfind as [Hin Hana].
    cbn [snd] in Hana. unfold descendants in Hin.
    apply in_walk_children in Hin.
    destruct Hin as [j [c0 [r0 [Heq [Hnth Hwalk]]]]].
    cbn [Nat.add] in Heq. injection Heq as <- <-.
    rewrite Hc in Hnth. injection Hnth as <-.
    assert (He : In e (elements [c])).
    { cbn [elements flat_map]. rewrite app_nil_r.
      apply in_map_iff. now exists (r', e). }
    rewrite (Hout c e (nth_error_In _ _ Hc) Htpl He) in Hana. discriminate.
  - cbn [append with_children children] in Hc'. apply in_app_iff in Hc'.
    destruct Hc' as [Hc' | [<- | []]]; [now apply Hout |].
    rewrite (is_template_field_shape _ _ (upsert_settings_shape _)) in Htpl.
    discriminate.
Qed.

Lemma merge_again (root root1 : Element) (recs : dict (dict string)) :
  NoDup (keys recs) ->
  keys_unique root ->
  analysis_outside_fields root ->
  merge root recs = Ok root1 ->
  merge root1 recs = Ok root1.
Proof.
  intros Hnd Hu Hout Hrun. unfold merge in Hrun |- *.
  apply upsert_analysis_unique in Hu. apply upsert_analysis_outside in Hout.
  destruct (find_upserted root) as [r [e [Hfind [Hsettled _]]]].
  pose proof (reconcile_fields_closed _ root1 recs Hnd Hu Hrun) as Hcs.
  assert (Hfix : upsert_analysis root1 = root1).
  { pose proof (find_analysis_element root1) as Hel.
    rewrite Hcs, elements_app, filter_app, created_fields_no_analysis,
      app_nil_r in Hel.
    unfold other_children in Hel.
    rewrite (analyses_outside (children (upsert_analysis root)) Hout),
      <- find_analysis_element, Hfind in Hel.
    destruct (find_analysis root1) as [[r1 e1] |] eqn:Hfind1;
      [| discriminate].
    cbn [option_map snd] in Hel. injection Hel as ->.
    exact (settled_found_fixed root1 r1 e Hfind1 Hsettled). }
  rewrite Hfix.
  exact (reconcile_fields_again (upsert_analysis root) root1 recs Hnd Hu Hrun).
Qed.

Lemma merged_outside (root root1 : Element) (recs : dict (dict string)) :
  NoDup (keys recs) ->
  keys_unique root ->
  merge root recs = Ok root1 ->
  analysis_outside_fields root1.
Proof.
  intros Hnd Hu Hrun. unfold merge in Hrun.
  apply upsert_analysis_unique in Hu.
  pose proof (reconcile_fields_closed _ root1 recs Hnd Hu Hrun) as Hcs.
  intros c d Hc Htpl Hd. rewrite Hcs in Hc. apply in_app_iff in Hc.
  destruct Hc as [Hc | Hc].
  - unfold other_children in Hc. apply filter_In in Hc.
    rewrite Htpl in Hc. now destruct Hc.
  - unfold created_fields in Hc. apply in_map_iff in Hc.
    destruct Hc as [[n rec] [<- _]].
    exact (created_holds_no_analysis _ _ d Hd).
Qed.

(** ** Lines of a text *)

Lemma join_newline_cons (line line' : string) (lines : list string) :
  join_newline (line :: line' :: lines)
  = String.append line (String newline (join_newline (line' :: lines))).
Proof. reflexivity. Qed.

Lemma join_newline_open (c : ascii) (line : string) (lines : list string) :
  join_newline (String c line :: lines) = String c (join_newline (line :: lines)).
Proof. destruct lines; reflexivity. Qed.

Lemma join_split_lines (s : string) :
  join_newline (fst (split_lines s) :: snd (split_lines s)) = s.
Proof.
  induction s as [| c s IH]; [reflexivity |].
  cbn [split_lines]. destruct (split_lines s) as [line lines].
  cbn [fst snd] in IH.
  destruct (Ascii.eqb_spec c newline) as [-> | _]; cbn [fst snd].
  - rewrite join_newline_cons, IH. reflexivity.
  - rewrite join_newline_open, IH. reflexivity.
Qed.

Lemma join_split (s : string) : join_newline (split_newline s) = s.
Proof.
  unfold split_newline. pose proof (join_split_lines s) as Hjoin.
  now destruct (split_lines s).
Qed.

Lemma split_lines_closed (line : string) :
  no_newline line = true -> split_lines line = (line, []).
Proof.
  induction line as [| c line IH]; [reflexivity |].
  cbn [no_newline split_lines]. intros Hno.
  apply andb_true_iff in Hno. destruct Hno as [Hc Hno].
  rewrite (IH Hno). apply negb_true_iff in Hc. now rewrite Hc.
Qed.

Lemma split_lines_append (line rest : string) :
  no_newline line = true ->
  split_lines (String.append line (String newline rest))
  = (line, split_newline rest).
Proof.
  induction line as [| c line IH]; cbn [no_newline String.append split_lines].
  - intros _. unfold split_newline. destruct (split_lines rest).
    now rewrite Ascii.eqb_refl.
  - intros Hno. apply andb_true_iff in Hno. destruct Hno as [Hc Hno].
    rewrite (IH Hno). apply negb_true_iff in Hc. now rewrite Hc.
Qed.

Lemma split_join (lines : list string) :
  lines <> [] ->
  forallb no_newline lines = true ->
  split_newline (join_newline lines) = lines.
Proof.
  induction lines as [| line lines IH]; [congruence |].
  intros _ Hno. cbn [forallb] in Hno.
  apply andb_true_iff in Hno. destruct Hno as [Hline Hno].
  destruct lines as [| line' lines].
  - cbn [join_newline]. unfold split_newline.
    now rewrite (split_lines_closed line Hline).
  - rewrite join_newline_cons. unfold split_newline at 1.
    rewrite (split_lines_append line _ Hline).
    rewrite IH; [reflexivity | discriminate | exact Hno].
Qed.

Lemma split_lines_no_newline (s : string) :
  no_newline (fst (split_lines s)) = true
  /\ forallb no_newline (snd (split_lines s)) = true.
Proof.
  induction s as [| c s [IH1 IH2]]; [now split |].
  cbn [split_lines]. destruct (split_lines s) as [line lines].
  cbn [fst snd] in IH1, IH2.
  destruct (Ascii.eqb c newline) eqn:Hc; cbn [fst snd forallb no_newline].
  - now rewrite IH1, IH2.
  - now rewrite Hc, IH1, IH2.
Qed.

Lemma split_newline_no_newline (s : string) :
  forallb no_newline (split_newline s) = true.
Proof.
  unfold split_newline. destruct (split_lines_no_newline s) as [H1 H2].
  destruct (split_lines s) as [line lines]. cbn [fst snd forallb] in *.
  now rewrite H1, H2.
Qed.

Lemma forallb_filter {X : Type} (p q : X -> bool) (l : list X) :
  forallb p l = true -> forallb p (filter q l) = true.
Proof.
  induction l as [| x l IH]; [reflexivity |].
  cbn [forallb filter]. intros Hp.
  apply andb_true_iff in Hp. destruct Hp as [Hx Hp].
  destruct (q x); cbn [forallb]; [rewrite Hx |]; now apply IH.
Qed.

Lemma filter_again {X : Type} (p : X -> bool) (l : list X) :
  filter p (filter p l) = filter p l.
Proof.
  rewrite filter_filter. apply filter_ext. intros x. now destruct (p x).
Qed.

(** The lines of the cleaned text. *)
Lemma cleaned_lines (xml_str : string) :
  split_newline (remove_excessive_newlines xml_str)
  = match filter not_blank (split_newline xml_str) with
    | [] => [EmptyString]
    | lines => lines
    end.
Proof.
  unfold remove_excessive_newlines.
  pose proof (forallb_filter no_newline not_blank (split_newline xml_str)
                (split_newline_no_newline xml_str)) as Hno.
  destruct (filter not_blank (split_newline xml_str)) as [| line lines] eqn:Hf;
    [reflexivity |].
  apply split_join; [discriminate | exact Hno].
Qed.


(** ** Reading a created field node back *)

Lemma read_setting_cons (k t : string) (a : dict string) (x : option string)
    (c : Element) (cs : list Element) :
  read_setting k (Elem t a x (c :: cs))
  = if String.eqb (tag c) "A" && named k c then Some (text c)
    else read_setting k (Elem t a x cs).
Proof.
  unfold read_setting. cbn [children find_setting].
  destruct (String.eqb (tag c) "A" && named k c); [reflexivity |].
  now destruct (find_setting k cs).
Qed.

Lemma written_value_other (k v : string) :
  in_list k ["GOR"; "WOR"] = false -> written_value k v = v.
Proof. intros Hk. unfold written_value. now rewrite Hk. Qed.

Lemma read_field_children (k t : string) (a : dict string) (x : option string)
    (rec : dict string) :
  read_setting k
    (Elem t a x (flat_map (fun kv => field_children (fst kv) (snd kv)) rec))
  = if in_list k ["fraction_diluent"; "heater_treater"] then None
    else option_map (fun v => Some (written_value k v)) (dict_get k rec).
Proof.
  induction rec as [| [k' v] rec IH].
  - cbn [flat_map dict_get option_map]. unfold read_setting.
    cbn [children find_setting].
    destruct (in_list k ["fraction_diluent"; "heater_treater"]); reflexivity.
  - cbn [flat_map fst snd dict_get]. unfold field_children at 1.
    destruct (in_list k' ["fraction_diluent"; "heater_treater"]) eqn:Hnested.
    + cbn [app]. rewrite !read_setting_cons. cbn [tag]. cbn [String.eqb andb].
      change (String.eqb "Process" "A") with false. cbn [andb].
      rewrite IH. destruct (String.eqb_spec k k') as [-> | _]; [| reflexivity].
      now rewrite Hnested.
    + cbn [app]. rewrite read_setting_cons. unfold a_element at 1 2.
      cbn [tag text]. unfold named, get. cbn [attrib dict_get].
      change (String.eqb "name" "name") with true.
      change (String.eqb "A" "A") with true. cbn [andb].
      rewrite (String.eqb_sym k' k).
      destruct (String.eqb_spec k k') as [-> | _]; [| exact IH].
      now rewrite Hnested.
Qed.

Lemma read_created (k field_name : string) (field_updates : dict string) :
  read_setting k (create_field_element field_name field_updates)
  = if in_list k ["fraction_diluent"; "heater_treater"] then None
    else option_map (fun v => Some (written_value k v)) (dict_get k field_updates).
Proof.
  unfold create_field_element. rewrite read_setting_cons. cbn [tag].
  change (String.eqb "Group" "A") with false. cbn [andb].
  apply read_field_children.
Qed.

(** ** The exported rows *)

Lemma collect_created (recs : dict (dict string))
    (names apis : list (option string)) :
  fold_left collect_name_api (created_fields recs) (names, apis)
  = (names ++ map (fun p => Some (fst p)) (run_name_api recs),
     apis ++ map (fun p => Some (snd p)) (run_name_api recs)).
Proof.
  revert names apis.
  induction recs as [| [n rec] recs IH]; intros names apis.
  - cbn. now rewrite !app_nil_r.
  - cbn [created_fields map fold_left fst snd]. fold (created_fields recs).
    unfold collect_name_api at 2. rewrite !read_created.
    change (in_list "name" ["fraction_diluent"; "heater_treater"]) with false.
    change (in_list "API" ["fraction_diluent"; "heater_treater"]) with false.
    cbn iota. unfold run_name_api. cbn [flat_map snd].
    fold (run_name_api recs).
    destruct (dict_get "name" rec) as [vn |]; cbn [option_map];
      [destruct (dict_get "API" rec) as [va |]; cbn [option_map] |].
    + rewrite IH. cbn [fst snd app map].
      rewrite (written_value_other "name" vn eq_refl),
        (written_value_other "API" va eq_refl), <- !app_assoc.
      reflexivity.
    + now rewrite IH.
    + now rewrite IH.
Qed.

Lemma collect_same_length (fields : list Element)
    (names apis : list (option string)) :
  length names = length apis ->
  length (fst (fold_left collect_name_api fields (names, apis)))
  = length (snd (fold_left collect_name_api fields (names, apis))).
Proof.
  revert names apis.
  induction fields as [| field fields IH]; intros names apis Hlen;
    [exact Hlen |].
  cbn [fold_left]. unfold collect_name_api at 2 4. cbn [fst snd].
  destruct (read_setting "name" field) as [n |];
    [destruct (read_setting "API" field) as [a |] |];
    apply IH; rewrite ?length_app; cbn [length]; lia.
Qed.

Lemma merge_templates (root root' : Element) (recs : dict (dict string)) :
  NoDup (keys recs) ->
  keys_unique root ->
  merge root recs = Ok root' ->
  children root' = other_children (upsert_analysis root) ++ created_fields recs
  /\ template_fields root' = created_fields recs.
Proof.
  intros Hnd Hu Hrun. unfold merge in Hrun.
  apply upsert_analysis_unique in Hu. split.
  - exact (reconcile_fields_closed _ root' recs Hnd Hu Hrun).
  - exact (proj2 (reconcile_fields_templates _ root' recs Hnd Hu Hrun)).
Qed.

(** ** The record of a column *)

Lemma distinct_NoDup (l : list string) : distinct l = true -> NoDup l.
Proof.
  induction l as [| k l IH]; cbn [distinct]; intros Hd; [constructor |].
  apply andb_true_iff in Hd. destruct Hd as [Hk Hd].
  constructor; [| now apply IH].
  intros Hin. apply in_list_In in Hin. rewrite Hin in Hk. discriminate.
Qed.

Lemma parameters_distinct : NoDup parameters.
Proof. apply distinct_NoDup. vm_compute. reflexivity. Qed.

Lemma keys_after_removal {V : Type} (vars : list string) (d : dict V) :
  keys (fold_left (fun d var => dict_del var d) vars d)
  = filter (fun k => negb (in_list k vars)) (keys d).
Proof.
  revert d.
  induction vars as [| var vars IH]; intros d; cbn [fold_left].
  - cbn [in_list existsb negb]. symmetry. apply filter_all. reflexivity.
  - rewrite IH. unfold dict_del, keys.
    assert (Hmap : forall l : dict V,
               map fst (filter (fun kv => negb (String.eqb var (fst kv))) l)
               = filter (fun k => negb (String.eqb var k)) (map fst l)).
    { induction l as [| [k v] l IHl]; [reflexivity |].
      cbn [filter map fst]. destruct (String.eqb var k); cbn [negb map fst];
        now rewrite IHl. }
    rewrite Hmap, filter_filter. apply filter_ext. intros k.
    unfold in_list. cbn [existsb]. rewrite (String.eqb_sym k var).
    now rewrite negb_orb.
Qed.

Section Records.

Context {A : Type} `{PyCell A}.

Lemma zip_fold_other (k : string) (ks : list string) (vs : list A)
    (d : dict (value A)) :
  ~ In k ks ->
  dict_get k (fold_left (fun d kv => dict_set (fst kv) (VStr (stringify (snd kv))) d)
                        (combine ks vs) d)
  = dict_get k d.
Proof.
  revert vs d.
  induction ks as [| k0 ks IH]; intros vs d Hk; [reflexivity |].
  destruct vs as [| v vs]; [reflexivity |].
  cbn [combine fold_left fst snd].
  rewrite IH by (intros Hin; apply Hk; now right).
  apply dict_get_set_other. intros ->. apply Hk. now left.
Qed.

Lemma zip_fold_get (ks : list string) (vs : list A) (d : dict (value A))
    (j : nat) (k : string) (v : A) :
  NoDup ks ->
  nth_error ks j = Some k ->
  nth_error vs j = Some v ->
  dict_get k (fold_left (fun d kv => dict_set (fst kv) (VStr (stringify (snd kv))) d)
                        (combine ks vs) d)
  = Some (VStr (stringify v)).
Proof.
  revert vs d j.
  induction ks as [| k0 ks IH]; intros vs d j Hnd Hk Hv;
    [destruct j; discriminate |].
  destruct vs as [| v0 vs]; [destruct j; discriminate |].
  inversion Hnd as [| ? ? Hnotin Hnd']; subst.
  cbn [combine fold_left fst snd].
  destruct j as [| j]; cbn [nth_error] in Hk, Hv.
  - injection Hk as ->. injection Hv as ->.
    rewrite (zip_fold_other k ks vs _ Hnotin). apply dict_get_set_same.
  - exact (IH vs _ j Hnd' Hk Hv).
Qed.

Lemma zip_fold_keys (ks : list string) (vs : list A) (d : dict (value A)) :
  NoDup (keys d ++ ks) ->
  keys (fold_left (fun d kv => dict_set (fst kv) (VStr (stringify (snd kv))) d)
                  (combine ks vs) d)
  = keys d ++ firstn (length vs) ks.
Proof.
  revert vs d.
  induction ks as [| k ks IH]; intros vs d Hnd.
  - cbn [combine fold_left]. now rewrite firstn_nil, app_nil_r.
  - destruct vs as [| v vs];
      [cbn [combine fold_left length firstn]; now rewrite app_nil_r |].
    cbn [combine fold_left fst snd length firstn].
    assert (Hnone : dict_get k d = None).
    { apply dict_get_none_keys. intros Hin.
      apply NoDup_remove_2 in Hnd. apply Hnd. apply in_app_iff. now left. }
    rewrite IH.
    + rewrite dict_set_keys, Hnone, <- app_assoc. reflexivity.
    + rewrite dict_set_keys, Hnone, <- app_assoc. exact Hnd.
Qed.

Lemma zip_parameters_keys (values : list A) :
  keys (zip_parameters values) = firstn (length values) parameters.
Proof.
  unfold zip_parameters.
  rewrite (zip_fold_keys parameters values []); [reflexivity |].
  exact parameters_distinct.
Qed.

Lemma firstn_more {X : Type} (n m : nat) (l : list X) :
  n <= m -> firstn m l = firstn n l ++ firstn (m - n) (skipn n l).
Proof.
  revert m l.
  induction n as [| n IH]; intros m l Hle.
  - now rewrite Nat.sub_0_r.
  - destruct m as [| m]; [lia |].
    destruct l as [| x l]; [now rewrite !firstn_nil |].
    cbn [firstn skipn Nat.sub app]. f_equal. apply IH. lia.
Qed.

Lemma assemble_keys (eco fdi values : list A) :
  52 <= length values ->
  keys (assemble eco fdi values)
  = kept_parameters (Nat.max (length values) 53).
Proof.
  intros Hlen. unfold assemble, kept_parameters.
  rewrite keys_after_removal. f_equal.
  assert (Heco : dict_get "ecosystem_richness" (zip_parameters values) <> None).
  { intros Hnone. apply dict_get_none_keys in Hnone. apply Hnone.
    rewrite zip_parameters_keys, (firstn_more 52 (length values)) by exact Hlen.
    apply in_app_iff. left. vm_compute. tauto. }
  rewrite !dict_set_keys.
  rewrite dict_get_set_other by discriminate.
  destruct (dict_get "ecosystem_richness" (zip_parameters values)) as [v |];
    [| congruence].
  destruct (Nat.eq_dec (length values) 52) as [Heq | Hne].
  - assert (Hnone : dict_get "field_development_intensity" (zip_parameters values)
                    = None).
    { apply dict_get_none_keys. rewrite zip_parameters_keys, Heq.
      vm_compute. intuition discriminate. }
    rewrite Hnone, zip_parameters_keys, Heq. reflexivity.
  - assert (Hfdi : dict_get "field_development_intensity" (zip_parameters values)
                   <> None).
    { intros Hnone. apply dict_get_none_keys in Hnone. apply Hnone.
      rewrite zip_parameters_keys, (firstn_more 53 (length values)) by lia.
      apply in_app_iff. left. vm_compute. tauto. }
    destruct (dict_get "field_development_intensity" (zip_parameters values));
      [| congruence].
    rewrite zip_parameters_keys. f_equal. lia.
Qed.

Lemma assemble_get (eco fdi values : list A) (j : nat) (k : string) (v : A) :
  nth_error parameters j = Some k ->
  j <> 51 -> j <> 52 ->
  in_list k variables_to_remove = false ->
  nth_error values j = Some v ->
  dict_get k (assemble eco fdi values) = Some (VStr (stringify v)).
Proof.
  intros Hk H51 H52 Hkeep Hv. unfold assemble.
  rewrite dict_get_after_removal.
  - assert (Hne : forall i k', nth_error parameters i = Some k' -> j <> i ->
                               k <> k').
    { intros i k' Hk' Hji ->. apply Hji.
      apply (proj1 (NoDup_nth_error parameters) parameters_distinct);
        [apply nth_error_Some; congruence | congruence]. }
    rewrite dict_get_set_other by (apply (Hne 52); [reflexivity | exact H52]).
    rewrite dict_get_set_other by (apply (Hne 51); [reflexivity | exact H51]).
    unfold zip_parameters.
    exact (zip_fold_get parameters values [] j k v parameters_distinct Hk Hv).
  - intros Hin. apply in_list_In in Hin. congruence.
Qed.

Lemma field_record_inv (values : list A) (fu : dict (value A)) :
  field_record values = Ok (Some fu) ->
  56 <= length values
  /\ apply_conversions
       (assemble (slice values 51 54) (slice values 54 57)
                 (firstn 52 values ++ skipn 56 values))
       conversion_mappings
     = Ok fu.
Proof.
  unfold field_record. cbn zeta.
  destruct (Nat.lt_ge_cases (length values) 56) as [Hshort | Hlen].
  - rewrite (pop_special_short values Hshort). discriminate.
  - rewrite (pop_special_ok values Hlen). cbn [bind].
    destruct (existsb _ _); [| discriminate].
    destruct (apply_conversions _ conversion_mappings) as [fu' | e];
      cbn [bind]; [| discriminate].
    intros [= <-]. now split.
Qed.

Lemma field_record_none (values : list A) :
  field_record values = Ok None
  <-> 56 <= length values
      /\ forallb isna (firstn 52 values ++ skipn 56 values) = true.
Proof.
  unfold field_record. cbn zeta.
  destruct (Nat.lt_ge_cases (length values) 56) as [Hshort | Hlen].
  - rewrite (pop_special_short values Hshort). cbn [bind].
    split; [discriminate | lia].
  - rewrite (pop_special_ok values Hlen). cbn [bind].
    assert (Hdual : forall l : list A,
               existsb (fun v => negb (isna v)) l = negb (forallb isna l)).
    { induction l as [| v l IH]; [reflexivity |].
      cbn [existsb forallb]. rewrite IH. now destruct (isna v). }
    rewrite Hdual.
    destruct (forallb isna (firstn 52 values ++ skipn 56 values)); cbn [negb].
    + now split.
    + destruct (apply_conversions _ conversion_mappings); cbn [bind];
        split; try discriminate; intros [_ Habs]; discriminate.
Qed.

End Records.

(** ** The records of a run *)

Section ColumnsFacts.

Context {A : Type} `{PyCell A}.

Variable sheet : DataFrame A.

Lemma columns_after_raise (cols : list nat) (e : exn) :
  fold_left (column_step sheet) cols (Raise e) = Raise e.
Proof. induction cols as [| col cols IH]; [reflexivity | exact IH]. Qed.

Lemma process_column_strings (col : nat) (fu : dict (value A)) :
  process_column sheet col = Ok (Some fu) ->
  exists rec, record_strings fu = Some rec /\ keys rec = keys fu.
Proof.
  unfold process_column.
  destruct (extract_field_data sheet col) as [values | e]; cbn [bind];
    [| discriminate].
  apply field_record_strings.
Qed.

Lemma column_step_shape (s s' : nat * dict (dict (value A))) (col : nat) :
  column_step sheet (Ok s) col = Ok s' ->
  NoDup (keys (snd s)) ->
  (forall n fu, In (n, fu) (snd s) -> exists rec, record_strings fu = Some rec) ->
  NoDup (keys (snd s'))
  /\ forall n fu, In (n, fu) (snd s') -> exists rec, record_strings fu = Some rec.
Proof.
  unfold column_step. cbn [bind].
  destruct (iloc_cell sheet 3 col) as [name | e]; cbn [bind]; [| discriminate].
  destruct (process_column sheet col) as [[fu |] | e] eqn:Hcol; cbn [bind];
    [| | discriminate].
  - intros [= <-] Hnd Hstr. cbn [snd]. split; [now apply dict_set_nodup |].
    intros n fu' Hin. apply in_dict_set in Hin.
    destruct Hin as [Hin | [_ ->]]; [exact (Hstr n fu' Hin) |].
    destruct (process_column_strings col fu Hcol) as [rec [Hrec _]].
    now exists rec.
  - intros [= <-] Hnd Hstr. now split.
Qed.

Lemma columns_fold_shape (cols : list nat) (s s' : nat * dict (dict (value A))) :
  fold_left (column_step sheet) cols (Ok s) = Ok s' ->
  NoDup (keys (snd s)) ->
  (forall n fu, In (n, fu) (snd s) -> exists rec, record_strings fu = Some rec) ->
  NoDup (keys (snd s'))
  /\ forall n fu, In (n, fu) (snd s') -> exists rec, record_strings fu = Some rec.
Proof.
  revert s.
  induction cols as [| col cols IH]; intros s; cbn [fold_left].
  - intros [= <-]. now split.
  - destruct (column_step sheet (Ok s) col) as [s1 | e] eqn:Hstep.
    + intros Hrun Hnd Hstr.
      destruct (column_step_shape s s1 col Hstep Hnd Hstr) as [Hnd1 Hstr1].
      exact (IH s1 Hrun Hnd1 Hstr1).
    + now rewrite columns_after_raise.
Qed.

Lemma records_strings_total (recs : dict (dict (value A))) :
  (forall n fu, In (n, fu) recs -> exists rec, record_strings fu = Some rec) ->
  exists strs, records_strings recs = Some strs /\ keys strs = keys recs.
Proof.
  induction recs as [| [n fu] recs IH]; intros Hstr.
  - now exists [].
  - destruct (Hstr n fu (or_introl eq_refl)) as [rec Hrec].
    destruct IH as [strs [Hstrs Hkeys]];
      [intros n' fu' Hin; apply (Hstr n' fu'); now right |].
    exists ((n, rec) :: strs). cbn [records_strings].
    rewrite Hrec, Hstrs. split; [reflexivity |].
    cbn [keys map fst]. f_equal. exact Hkeys.
Qed.

Lemma collect_columns_shape (recs : dict (dict (value A))) :
  collect_columns sheet = Ok recs ->
  NoDup (keys recs)
  /\ exists strs, records_strings recs = Some strs /\ keys strs = keys recs.
Proof.
  unfold collect_columns.
  destruct (fold_left (column_step sheet) (seq 7 (ncols sheet - 7)) (Ok (0, [])))
    as [s | e] eqn:Hfold; cbn [bind]; [| discriminate].
  intros [= <-].
  destruct (columns_fold_shape _ (0, []) s Hfold) as [Hnd Hstr];
    [constructor | intros n fu [] |].
  split; [exact Hnd | now apply records_strings_total].
Qed.

Lemma collect_columns_none :
  ncols sheet <= 7 -> collect_columns sheet = Ok [].
Proof.
  intros Hcols. unfold collect_columns.
  replace (ncols sheet - 7) with 0 by lia. reflexivity.
Qed.

Lemma collect_columns_short :
  nrows sheet < 96 -> 7 < ncols sheet ->
  collect_columns sheet = Raise IndexError.
Proof.
  intros Hrows Hcols. unfold collect_columns.
  destruct (ncols sheet - 7) as [| n] eqn:Hn; [lia |].
  cbn [seq fold_left].
  assert (Hstep : column_step sheet (Ok (0, [])) 7 = Raise IndexError).
  { unfold column_step. cbn [bind].
    destruct (iloc_cell sheet 3 7) as [name | e] eqn:Hname; cbn [bind].
    - destruct (extract_field_data_ok sheet 7 Hcols) as [data [Hd Hl]].
      unfold process_column. rewrite Hd. cbn [bind].
      unfold field_record. cbn zeta.
      rewrite pop_special_short; [reflexivity |].
      rewrite Hl. destruct extraction_length_marks as [_ [H95 _]].
      pose proof (extraction_length_mono (nrows sheet) 95). lia.
    - unfold iloc_cell in Hname.
      destruct ((3 <? nrows sheet) && (7 <? ncols sheet)); congruence. }
  rewrite Hstep, columns_after_raise. reflexivity.
Qed.

End ColumnsFacts.

(** ** Settings the run does not name *)

Lemma read_setting_group (key : string) (e : Element) :
  read_setting key (append e (Elem "Group" [] (Some "all") []))
  = read_setting key e.
Proof.
  unfold read_setting. cbn [append with_children children].
  rewrite find_setting_app. cbn [tag].
  change (String.eqb "Group" "A") with false. cbn [andb].
  destruct (find_setting key (children e)) as [i |] eqn:Hfind; [| reflexivity].
  destruct (find_setting_some key _ i Hfind) as [c [Hc _]].
  rewrite nth_error_app1; [reflexivity |].
  apply nth_error_Some. congruence.
Qed.


(** ** What the merge raises *)

Lemma stale_fold_raises (names : list string) (L : list (ref * Element))
    (st : result (list (nat * Element))) (e : exn) :
  (forall e0, st = Raise e0 -> e0 = ValueError) ->
  fold_left (remove_if_stale names) L st = Raise e ->
  e = ValueError.
Proof.
  revert st.
  induction L as [| f L IH]; intros st Hst; cbn [fold_left].
  - exact (Hst e).
  - apply IH. intros e0. unfold remove_if_stale.
    destruct st as [kids | e1]; cbn [bind]; [| exact (Hst e0)].
    destruct (required names (snd f)); [discriminate |].
    unfold remove_found.
    destruct (fst f) as [| i [| j r]]; try congruence.
    destruct (existsb _ kids); congruence.
Qed.

Lemma remove_stale_raises (root : Element) (names : list string) (e : exn) :
  remove_stale root names = Raise e -> e = ValueError.
Proof.
  unfold remove_stale. cbn zeta.
  destruct (fold_left _ (findall_fields root) _) as [kids | e0] eqn:Hfold;
    cbn [bind]; [discriminate |].
  intros [= <-].
  apply (stale_fold_raises names _ _ e0) in Hfold; [exact Hfold | discriminate].
Qed.

Lemma replace_field_raises (root : Element) (n : string) (rec : dict string)
    (e : exn) :
  replace_field root n rec = Raise e -> e = ValueError.
Proof.
  unfold replace_field.
  destruct (find_field root n) as [[r d] |]; cbn [bind]; [| discriminate].
  unfold root_remove.
  destruct r as [| i [| j r]]; cbn [bind]; try congruence.
  destruct (i <? length (children root)); cbn [bind]; congruence.
Qed.

Lemma replace_fold_raises (recs : dict (dict string)) (st : result Element)
    (e : exn) :
  (forall e0, st = Raise e0 -> e0 = ValueError) ->
  fold_left replace_step recs st = Raise e ->
  e = ValueError.
Proof.
  revert st.
  induction recs as [| [n rec] recs IH]; intros st Hst; cbn [fold_left].
  - exact (Hst e).
  - apply IH. intros e0. unfold replace_step.
    destruct st as [root | e1]; cbn [bind fst snd]; [| exact (Hst e0)].
    apply replace_field_raises.
Qed.

Lemma reconcile_fields_raises (root : Element) (recs : dict (dict string))
    (e : exn) :
  reconcile_fields root recs = Raise e -> e = ValueError.
Proof.
  unfold reconcile_fields.
  destruct (remove_stale root (keys recs)) as [root1 | e0] eqn:Hstale;
    cbn [bind].
  - apply replace_fold_raises. discriminate.
  - intros [= <-]. exact (remove_stale_raises root (keys recs) e0 Hstale).
Qed.


(** ** Which columns the conversion accepts *)

Section Accepted.

Context {A : Type} `{PyCell A}.

Lemma scan_list_last (l1 l2 : list A) (x : A) (index : Z) (sel : selection) :
  eq_one x = true ->
  forallb (fun val => negb (eq_one val)) l2 = true ->
  scan_list (l1 ++ x :: l2) index sel = Index (index + Z.of_nat (length l1)).
Proof.
  intros Hx Hrest. revert index sel.
  induction l1 as [| a l1 IH]; intros index sel.
  - cbn [app scan_list length]. rewrite Hx.
    rewrite (scan_list_no_one l2 _ _ Hrest). f_equal. cbn. lia.
  - cbn [app scan_list length]. rewrite IH. f_equal. lia.
Qed.

Lemma last_one_split (l : list A) :
  existsb eq_one l = true ->
  exists l1 x l2, l = l1 ++ x :: l2 /\ eq_one x = true
                  /\ forallb (fun val => negb (eq_one val)) l2 = true.
Proof.
  induction l as [| a l IH]; [discriminate |].
  cbn [existsb]. intros Hex.
  destruct (existsb eq_one l) eqn:Hl.
  - destruct (IH eq_refl) as [l1 [x [l2 [-> [Hx Hrest]]]]].
    now exists (a :: l1), x, l2.
  - rewrite orb_false_r in Hex. exists [], a, l.
    split; [reflexivity | split; [exact Hex |]].
    clear IH Hex. induction l as [| b l IHl]; [reflexivity |].
    cbn [existsb forallb] in *. apply orb_false_iff in Hl.
    destruct Hl as [Hb Hl]. rewrite Hb. now apply IHl.
Qed.

Lemma no_one_forallb (l : list A) :
  existsb eq_one l = false ->
  forallb (fun val => negb (eq_one val)) l = true.
Proof.
  induction l as [| b l IH]; [reflexivity |].
  cbn [existsb forallb]. intros Hl. apply orb_false_iff in Hl.
  destruct Hl as [Hb Hl]. rewrite Hb. now apply IH.
Qed.

Lemma converted_one_hot (key : string) (mapping : table) (l1 l2 : list A)
    (x : A) :
  In key one_hot_keys ->
  eq_one x = true ->
  forallb (fun val => negb (eq_one val)) l2 = true ->
  converted key mapping (VList (l1 ++ x :: l2))
  = match table_get (1 + Z.of_nat (length l1)) mapping with
    | Some label => Ok (VStr label)
    | None => Raise KeyError
    end.
Proof.
  intros Hkey Hx Hrest. apply in_list_In in Hkey.
  unfold converted. rewrite Hkey. cbn [scan_value].
  rewrite (scan_list_last l1 l2 x 1 _ Hx Hrest). cbn [truthy subscript].
  replace (1 + Z.of_nat (length l1) =? 0)%Z with false
    by (symmetry; apply Z.eqb_neq; lia).
  cbn [negb].
  now destruct (table_get (1 + Z.of_nat (length l1)) mapping).
Qed.

Lemma apply_conversions_total (ms : dict table) (fu : dict (value A)) :
  NoDup (keys ms) ->
  (forall k m v, In (k, m) ms -> dict_get k fu = Some v ->
                 exists v', converted k m v = Ok v') ->
  exists fu', apply_conversions fu ms = Ok fu'.
Proof.
  revert fu.
  induction ms as [| [key m] ms IH]; intros fu Hnd Hconv.
  - now exists fu.
  - rewrite apply_conversions_cons.
    cbn [keys map fst] in Hnd. inversion Hnd as [| ? ? Hfresh Hnd']; subst.
    destruct (dict_get key fu) as [v |] eqn:Hget.
    + destruct (Hconv key m v (or_introl eq_refl) Hget) as [v' Hv'].
      destruct (convert_key_ok fu key m v v' Hget Hv')
        as [fu1 [-> [_ Hother]]].
      cbn [bind]. apply IH; [exact Hnd' |].
      intros k m0 v0 Hin Hk. apply (Hconv k m0 v0); [now right |].
      rewrite <- Hk. symmetry. apply Hother. intros ->. apply Hfresh.
      change key with (fst (key, m0)). now apply in_map.
    + rewrite (convert_key_absent fu key m Hget). cbn [bind].
      apply IH; [exact Hnd' |].
      intros k m0 v0 Hin Hk. apply (Hconv k m0 v0); [now right | exact Hk].
Qed.

Lemma slice_short (values : list A) (a b : nat) :
  length (slice values a b) <= b - a.
Proof. unfold slice. apply firstn_le_length. Qed.

Lemma one_hot_accepted (key : string) (m : table) (l : list A) :
  In (key, m) [ ("ecosystem_richness",
                 [(1, "Low carbon"); (2, "Med carbon"); (3, "High carbon")]%Z);
                ("field_development_intensity",
                 [(1, "Low"); (2, "Med"); (3, "High")]%Z) ] ->
  length l <= 3 ->
  existsb eq_one l = true ->
  exists v', converted key m (VList l) = Ok v'.
Proof.
  intros Hkm Hlen Hone.
  destruct (last_one_split l Hone) as [l1 [x [l2 [-> [Hx Hrest]]]]].
  rewrite length_app in Hlen. cbn [length] in Hlen.
  assert (Hkey : In key one_hot_keys).
  { destruct Hkm as [[= <- _] | [[= <- _] | []]]; [now left | right; now left]. }
  rewrite (converted_one_hot key m l1 l2 x Hkey Hx Hrest).
  destruct l1 as [| a1 [| a2 [| a3 l1]]]; cbn [length] in Hlen |- *;
    [| | | lia];
    destruct Hkm as [[= <- <-] | [[= <- <-] | []]]; cbn; eexists; reflexivity.
Qed.

Lemma field_record_accepts (values : list A) :
  56 <= length values ->
  existsb eq_one (slice values 51 54) = true ->
  existsb eq_one (slice values 54 57) = true ->
  exists r, field_record values = Ok r.
Proof.
  intros Hlen Heco Hfdi. unfold field_record. cbn zeta.
  rewrite (pop_special_ok values Hlen). cbn [bind].
  destruct (existsb _ (firstn 52 values ++ skipn 56 values));
    [| now exists None].
  destruct (apply_conversions_total conversion_mappings
              (assemble (slice values 51 54) (slice values 54 57)
                        (firstn 52 values ++ skipn 56 values))
              conversion_mappings_keys) as [fu Hfu].
  - intros k m v Hin Hget.
    destruct (assemble_lists (slice values 51 54) (slice values 54 57)
                (firstn 52 values ++ skipn 56 values)) as [Hgeco Hgfdi].
    destruct (assemble_shape (slice values 51 54) (slice values 54 57)
                (firstn 52 values ++ skipn 56 values)) as [_ Hshape];
      [apply slice_not_empty; lia | apply slice_not_empty; lia |].
    pose proof (Hshape k v (dict_get_in k v _ Hget)) as Hv.
    unfold conversion_mappings in Hin.
    destruct Hin as [Hin | [Hin | [Hin | Hin]]].
    1-3: injection Hin as <- <-;
      destruct Hv as [Hstr | [Hone _]];
      [ destruct v as [s | l]; [| discriminate];
        rewrite converted_scalar by reflexivity; eexists; reflexivity
      | exfalso; destruct Hone as [Habs | [Habs | []]]; discriminate ].
    assert (Hv' : v = VList (slice values 51 54) \/ v = VList (slice values 54 57)).
    { destruct Hin as [[= <- _] | [[= <- _] | []]];
        [left; congruence | right; congruence]. }
    assert (Hl : exists l, v = VList l /\ length l <= 3 /\ existsb eq_one l = true).
    { destruct Hv' as [-> | ->]; eexists; (split; [reflexivity |]);
        (split; [apply (slice_short values) | assumption]). }
    destruct Hl as [l [-> [Hl3 Hl1]]].
    exact (one_hot_accepted k m l Hin Hl3 Hl1).
  - rewrite Hfu. cbn [bind]. now exists (Some fu).
Qed.

Lemma field_record_needs_ones (values : list A) (fu : dict (value A)) :
  field_record values = Ok (Some fu) ->
  existsb eq_one (slice values 51 54) = true
  /\ existsb eq_one (slice values 54 57) = true.
Proof.
  intros Hrun. apply field_record_inv in Hrun. destruct Hrun as [Hlen Hrun].
  destruct (assemble_lists (slice values 51 54) (slice values 54 57)
              (firstn 52 values ++ skipn 56 values)) as [Hgeco Hgfdi].
  assert (Hneed : forall key m l,
             In key one_hot_keys ->
             dict_get key conversion_mappings = Some m ->
             dict_get key (assemble (slice values 51 54) (slice values 54 57)
                                    (firstn 52 values ++ skipn 56 values))
             = Some (VList l) ->
             l <> [] ->
             existsb eq_one l = true).
  { intros key m l Hkey Hm Hget Hne.
    destruct (existsb eq_one l) eqn:Hone; [reflexivity | exfalso].
    pose proof (converted_without_one key m l Hkey Hne (no_one_forallb l Hone))
      as Hraise.
    destruct (apply_conversions_raises conversion_mappings _ key m (VList l)
                TypeError conversion_mappings_keys Hm Hget Hraise) as [e He].
    rewrite He in Hrun. discriminate. }
  split.
  - apply (Hneed "ecosystem_richness" _ _ (or_introl eq_refl) eq_refl Hgeco).
    apply slice_not_empty; lia.
  - apply (Hneed "field_development_intensity" _ _
             (or_intror (or_introl eq_refl)) eq_refl Hgfdi).
    apply slice_not_empty; lia.
Qed.

End Accepted.

Lemma created_fields_keys (recs : dict (dict string)) :
  map field_key (created_fields recs) = map Some (keys recs).
Proof.
  induction recs as [| [n rec] recs IH]; [reflexivity |].
  cbn [created_fields keys map fst snd]. f_equal. exact IH.
Qed.

(** ** Names without a double quote *)

Lemma no_double_quote_append (s1 s2 : string) :
  no_double_quote (String.append s1 s2)
  = no_double_quote s1 && no_double_quote s2.
Proof.
  induction s1 as [| c s1 IH]; [reflexivity |].
  cbn [String.append no_double_quote]. rewrite IH. apply andb_assoc.
Qed.

Lemma string_of_uint_plain (d : Decimal.uint) :
  no_double_quote (NilEmpty.string_of_uint d) = true.
Proof.
  induction d as [| d IH | d IH | d IH | d IH | d IH | d IH | d IH | d IH
                  | d IH | d IH];
    [reflexivity | cbn [NilEmpty.string_of_uint no_double_quote]; exact IH ..].
Qed.

Lemma str_of_int_plain (z : Z) : no_double_quote (str_of_int z) = true.
Proof.
  assert (Huint : forall d, no_double_quote (NilZero.string_of_uint d) = true).
  { intros d. unfold NilZero.string_of_uint.
    destruct d; try reflexivity; apply string_of_uint_plain. }
  unfold str_of_int, NilZero.string_of_int.
  destruct (Z.to_int z) as [d | d]; [apply Huint |].
  cbn [no_double_quote]. exact (Huint d).
Qed.

Lemma numbered_name_plain (i : nat) : no_double_quote (numbered_name i) = true.
Proof.
  unfold numbered_name. rewrite no_double_quote_append, str_of_int_plain.
  reflexivity.
Qed.

Lemma names_plain_set {V : Type} (k : string) (v : V) (d : dict V) :
  no_double_quote k = true ->
  names_plain d = true ->
  names_plain (dict_set k v d) = true.
Proof.
  intros Hk Hd. unfold names_plain in *. rewrite dict_set_keys.
  destruct (dict_get k d); [exact Hd |].
  rewrite forallb_app, Hd. cbn [forallb]. now rewrite Hk.
Qed.

Section PlainHeaders.

Variable sheet : DataFrame xl_cell.

Lemma column_step_plain (s s' : nat * dict (dict (value xl_cell))) (col : nat) :
  match cell sheet 3 col with
  | NaN => true
  | Text n => no_double_quote n
  | Int _ => false
  end = true ->
  column_step sheet (Ok s) col = Ok s' ->
  names_plain (snd s) = true ->
  names_plain (snd s') = true.
Proof.
  intros Hhead. unfold column_step, iloc_cell. cbn [bind].
  destruct ((3 <? nrows sheet) && (col <? ncols sheet)); cbn [bind];
    [| discriminate].
  destruct (process_column sheet col) as [[fu |] | e]; cbn [bind];
    [| | discriminate].
  - intros [= <-] Hplain. cbn [snd]. apply names_plain_set; [| exact Hplain].
    destruct (cell sheet 3 col) as [| z | n]; cbn [isna py_str xl_cell_PyCell];
      [apply numbered_name_plain | discriminate | exact Hhead].
  - now intros [= <-].
Qed.

Lemma columns_fold_plain (cols : list nat)
    (s s' : nat * dict (dict (value xl_cell))) :
  forallb (fun col => match cell sheet 3 col with
                      | NaN => true
                      | Text n => no_double_quote n
                      | Int _ => false
                      end) cols = true ->
  fold_left (column_step sheet) cols (Ok s) = Ok s' ->
  names_plain (snd s) = true ->
  names_plain (snd s') = true.
Proof.
  revert s.
  induction cols as [| col cols IH]; intros s Hhead; cbn [fold_left].
  - now intros [= <-].
  - cbn [forallb] in Hhead. apply andb_true_iff in Hhead.
    destruct Hhead as [Hcol Hrest].
    destruct (column_step sheet (Ok s) col) as [s1 | e] eqn:Hstep.
    + intros Hrun Hplain.
      exact (IH s1 Hrest Hrun (column_step_plain s s1 col Hcol Hstep Hplain)).
    + now rewrite columns_after_raise.
Qed.

Lemma collect_columns_plain (recs : dict (dict (value xl_cell))) :
  header_plain sheet = true ->
  collect_columns sheet = Ok recs ->
  names_plain recs = true.
Proof.
  intros Hhead. unfold collect_columns.
  destruct (fold_left (column_step sheet) (seq 7 (ncols sheet - 7)) (Ok (0, [])))
    as [s | e] eqn:Hfold; cbn [bind]; [| discriminate].
  intros [= <-].
  exact (columns_fold_plain _ (0, []) s Hhead Hfold eq_refl).
Qed.

End PlainHeaders.

(** * Properties of the functions beyond the claims *)

(** ** apply_conversions *)

(** X1: the conversion neither adds, drops nor reorders the names of a
    record, and a value under a name that has no table is left as it is. *)
Theorem conversions_keep_keys {A : Type} `{PyCell A}
    (field_updates field_updates' : dict (value A)) (mappings : dict table) :
  apply_conversions field_updates mappings = Ok field_updates' ->
  keys field_updates' = keys field_updates
  /\ forall k, ~ In k (keys mappings) ->
               dict_get k field_updates' = dict_get k field_updates.
Proof.
  intros Hrun. split.
  - exact (apply_conversions_keys mappings field_updates field_updates' Hrun).
  - intros k Hk.
    exact (apply_conversions_unmapped mappings field_updates field_updates' k
             Hrun Hk).
Qed.

Lemma conversions_keep_keys_witness :
  apply_conversions codes_record conversion_mappings = Ok codes_converted
  /\ keys codes_converted = keys codes_record.
Proof.
  assert (Hrun : apply_conversions codes_record conversion_mappings
                 = Ok codes_converted) by reflexivity.
  split; [exact Hrun |].
  exact (proj1 (conversions_keep_keys codes_record codes_converted
                  conversion_mappings Hrun)).
Defined.

(** X2: in a one-hot list the last element equal to 1 decides: the label
    is the one the table holds for its position (counted from 1), and the
    lookup raises [KeyError] when the table has no entry for it. *)
Theorem last_one_wins {A : Type} `{PyCell A}
    (field_updates : dict (value A)) (key : string) (mapping : table)
    (l1 l2 : list A) (x : A) :
  In key one_hot_keys ->
  dict_get key field_updates = Some (VList (l1 ++ x :: l2)) ->
  eq_one x = true ->
  forallb (fun val => negb (eq_one val)) l2 = true ->
  convert_key field_updates (key, mapping)
  = match table_get (1 + Z.of_nat (length l1)) mapping with
    | Some label => Ok (dict_set key (VStr label) field_updates)
    | None => Raise KeyError
    end.
Proof.
  intros Hkey Hget Hx Hrest.
  pose proof (converted_one_hot key mapping l1 l2 x Hkey Hx Hrest) as Hconv.
  destruct (table_get (1 + Z.of_nat (length l1)) mapping) as [label |].
  - exact (convert_key_label field_updates key mapping _ label Hget Hconv).
  - exact (convert_key_raise field_updates key mapping _ KeyError Hget Hconv).
Qed.

Lemma last_one_wins_witness :
  convert_key two_ones_record ("ecosystem_richness", ecosystem_table)
  = Ok [("ecosystem_richness", VStr "Med carbon")].
Proof.
  exact (last_one_wins two_ones_record "ecosystem_richness" ecosystem_table
           [Int 1] [Int 0] (Int 1) (or_introl eq_refl) eq_refl eq_refl eq_refl).
Defined.

(** ** create_field_element *)

(** X3: reading a created field node back.  [find('A[@name=k]')] on the
    node finds, for a name of the record other than [fraction_diluent] and
    [heater_treater], the element that holds the written value of the
    record (the value itself but for the [GOR]/[WOR] minimum); for these two
    names, whose element lies below a [Process] node, and for a name the
    record does not hold, it finds nothing. *)
Theorem created_field_reads_back (k field_name : string)
    (field_updates : dict string) :
  read_setting k (create_field_element field_name field_updates)
  = if in_list k ["fraction_diluent"; "heater_treater"] then None
    else option_map (fun v => Some (written_value k v))
                    (dict_get k field_updates).
Proof. apply read_created. Qed.

(** ** remove_excessive_newlines *)

(** X4: the lines of the cleaned text are the lines of the text that are
    not blank, in their order; when every line is blank the cleaned text is
    empty. *)
Theorem cleaned_text_lines (xml_str : string) :
  split_newline (remove_excessive_newlines xml_str)
  = match filter not_blank (split_newline xml_str) with
    | [] => [EmptyString]
    | lines => lines
    end
  /\ (filter not_blank (split_newline xml_str) = [] ->
      remove_excessive_newlines xml_str = EmptyString)
  /\ forall line, In line (split_newline (remove_excessive_newlines xml_str)) ->
                  not_blank line = true
                  \/ remove_excessive_newlines xml_str = EmptyString.
Proof.
  split; [apply cleaned_lines | split].
  - intros Hnone. unfold remove_excessive_newlines. now rewrite Hnone.
  - intros line. rewrite cleaned_lines.
    destruct (filter not_blank (split_newline xml_str)) as [| l ls] eqn:Hf.
    + intros _. right. unfold remove_excessive_newlines. now rewrite Hf.
    + intros Hin. left. rewrite <- Hf in Hin. apply filter_In in Hin.
      exact (proj2 Hin).
Qed.

(** X5: cleaning a cleaned text changes nothing. *)
Theorem cleaning_is_idempotent (xml_str : string) :
  remove_excessive_newlines (remove_excessive_newlines xml_str)
  = remove_excessive_newlines xml_str.
Proof.
  unfold remove_excessive_newlines at 1. rewrite cleaned_lines.
  unfold remove_excessive_newlines.
  destruct (filter not_blank (split_newline xml_str)) as [| line lines] eqn:Hf;
    [reflexivity |].
  now rewrite <- Hf, filter_again.
Qed.

(** X6: a text without a blank line is returned as it is. *)
Theorem dense_text_unchanged (xml_str : string) :
  forallb not_blank (split_newline xml_str) = true ->
  remove_excessive_newlines xml_str = xml_str.
Proof.
  intros Hall. unfold remove_excessive_newlines.
  rewrite filter_all; [apply join_split |].
  intros line Hin. exact (proj1 (forallb_forall _ _) Hall line Hin).
Qed.

Lemma dense_text_unchanged_witness :
  forallb not_blank (split_newline dense_text) = true
  /\ remove_excessive_newlines dense_text = dense_text
  /\ remove_excessive_newlines spaced_text = dense_text.
Proof.
  assert (Hall : forallb not_blank (split_newline dense_text) = true)
    by reflexivity.
  split; [exact Hall |].
  split; [exact (dense_text_unchanged dense_text Hall) | reflexivity].
Defined.

(** ** export_name_api *)

(** X7: the two rows handed to the CSV writer have the same length: a
    field contributes to both or to neither. *)
Theorem export_rows_same_length (root : Element) :
  length (fst (export_rows root)) = length (snd (export_rows root)).
Proof.
  unfold export_rows. now apply collect_same_length.
Qed.

(** X8: what is exported after a run.  On a document whose field keys are
    unique, and for field names without a double quote, the rows collected
    from the merged document are the values the records of the run hold
    under [name] and [API], in the order of the records; records that lack
    one of the two are left out, and nothing of the former document is
    exported. *)
Theorem export_after_merge (root root' : Element)
    (field_updates_dicts : dict (dict string)) :
  NoDup (keys field_updates_dicts) ->
  names_plain field_updates_dicts = true ->
  keys_unique root ->
  merge root field_updates_dicts = Ok root' ->
  export_rows root'
  = (map (fun p => Some (fst p)) (run_name_api field_updates_dicts),
     map (fun p => Some (snd p)) (run_name_api field_updates_dicts)).
Proof.
  intros Hnd _ Hu Hrun. unfold export_rows.
  rewrite (proj2 (merge_templates root root' field_updates_dicts Hnd Hu Hrun)).
  apply collect_created.
Qed.

Lemma named_records_keys : NoDup (keys named_records).
Proof.
  unfold named_records, keys. cbn [map fst].
  repeat (constructor; [simpl; intuition discriminate |]). constructor.
Qed.

Lemma export_after_merge_witness :
  exists root',
    merge sample_document named_records = Ok root'
    /\ export_rows root' = ([Some "Beta"; Some "Alpha"], [Some "35"; Some "36"]).
Proof.
  eexists. split; [reflexivity |].
  exact (export_after_merge sample_document _ named_records named_records_keys
           eq_refl sample_document_unique eq_refl).
Defined.

(** ** The records of the columns (the loop of main) *)

(** X9: a column is skipped exactly when its values suffice for the four
    pops and every value that is left after them is missing; the cells of
    the raw slots 52 to 55 are not looked at, so a column with data in these
    slots only is skipped as well. *)
Theorem empty_column_skipped {A : Type} `{PyCell A} (values : list A) :
  field_record values = Ok None
  <-> 56 <= length values
      /\ forallb isna (firstn 52 values ++ skipn 56 values) = true.
Proof. apply field_record_none. Qed.

Lemma empty_column_skipped_witness :
  field_record slots_only_values = Ok None.
Proof.
  apply (proj2 (empty_column_skipped slots_only_values)).
  split; [vm_compute; lia | reflexivity].
Defined.

(** X10: which columns the loop body accepts.  If the body returns (with
    a record, or skipping the column), the column has at least 56 values
    and either all values left after the pops are missing or each of the
    two one-hot lists holds an element equal to 1.  Conversely the body
    returns on such a column when the strings of the cells under the three
    names with a table of codes are ASCII text of at most 4300 characters,
    so that [int()] reads every one of them [isdigit()] accepts. *)
Theorem column_accepted {A : Type} `{PyCell A} (values : list A) :
  ((exists r, field_record values = Ok r) ->
   56 <= length values
   /\ (forallb isna (firstn 52 values ++ skipn 56 values) = true
       \/ (existsb eq_one (slice values 51 54) = true
           /\ existsb eq_one (slice values 54 57) = true)))
  /\ (56 <= length values ->
      forallb isna (firstn 52 values ++ skipn 56 values) = true
      \/ (existsb eq_one (slice values 51 54) = true
          /\ existsb eq_one (slice values 54 57) = true) ->
      (forall j v, In j coded_slots -> nth_error values j = Some v ->
                   int_reads (stringify v) = true) ->
      exists r, field_record values = Ok r).
Proof.
  split.
  - intros [[fu |] Hrun].
    + split; [exact (proj1 (field_record_inv values fu Hrun)) |].
      right. exact (field_record_needs_ones values fu Hrun).
    + apply field_record_none in Hrun. destruct Hrun as [Hlen Hall].
      split; [exact Hlen | now left].
  - intros Hlen [Hall | [Heco Hfdi]] _.
    + exists None. apply field_record_none. now split.
    + now apply field_record_accepts.
Qed.

Lemma column_accepted_witness :
  56 <= length sample_values
  /\ existsb eq_one (slice sample_values 51 54) = true
  /\ existsb eq_one (slice sample_values 54 57) = true
  /\ forallb (fun v => int_reads (stringify v)) sample_values = true
  /\ exists r, field_record sample_values = Ok r.
Proof.
  assert (Hlen : 56 <= length sample_values) by (vm_compute; lia).
  assert (Heco : existsb eq_one (slice sample_values 51 54) = true)
    by reflexivity.
  assert (Hfdi : existsb eq_one (slice sample_values 54 57) = true)
    by reflexivity.
  assert (Hint : forallb (fun v => int_reads (stringify v)) sample_values = true)
    by (vm_compute; reflexivity).
  split; [exact Hlen | split; [exact Heco | split; [exact Hfdi |]]].
  split; [exact Hint |].
  apply (proj2 (column_accepted sample_values) Hlen
               (or_intror (conj Heco Hfdi))).
  intros j v _ Hv.
  exact (proj1 (forallb_forall _ _) Hint v (nth_error_In _ _ Hv)).
Defined.

(** X11: the names of a record and their order.  A record holds the
    parameters met by the values left after the pops (at least the first
    53, the two one-hot names being set in any case), in the order of the
    parameter list, without the variables to be removed; a column of 69
    values yields the 59 names that are kept of the 65 parameters. *)
Theorem record_keys {A : Type} `{PyCell A} (values : list A)
    (field_updates : dict (value A)) :
  field_record values = Ok (Some field_updates) ->
  keys field_updates = kept_parameters (Nat.max (length values - 4) 53)
  /\ (69 <= length values -> keys field_updates = kept_parameters 65)
  /\ length (kept_parameters 65) = 59.
Proof.
  intros Hrun. apply field_record_inv in Hrun. destruct Hrun as [Hlen Hrun].
  assert (Hkeys : keys field_updates
                  = kept_parameters (Nat.max (length values - 4) 53)).
  { rewrite (apply_conversions_keys conversion_mappings _ field_updates Hrun).
    rewrite assemble_keys;
      rewrite length_app, length_firstn, length_skipn; [f_equal |]; lia. }
  split; [exact Hkeys | split; [| reflexivity]].
  intros Hfull. rewrite Hkeys. unfold kept_parameters. f_equal.
  rewrite !firstn_all2; [reflexivity | |];
    change (length parameters) with 65; lia.
Qed.

Lemma record_keys_witness :
  exists field_updates,
    field_record sample_values = Ok (Some field_updates)
    /\ keys field_updates = kept_parameters 65.
Proof.
  destruct (field_record sample_values) as [[field_updates |] | e] eqn:Hrun;
    [| vm_compute in Hrun; discriminate ..].
  exists field_updates. split; [reflexivity |].
  apply (proj1 (proj2 (record_keys sample_values field_updates Hrun))).
  vm_compute. lia.
Defined.

(** X12: the values of a record by position.  Under the parameter of
    position [j], other than the two one-hot names, the removed variables
    and the names with a conversion table, the record holds the string of
    the raw value of position [j] when [j] is below 52, and of position
    [j + 4] otherwise. *)
Theorem record_values_by_position {A : Type} `{PyCell A} (values : list A)
    (field_updates : dict (value A)) (j : nat) (k : string) (v : A) :
  field_record values = Ok (Some field_updates) ->
  nth_error parameters j = Some k ->
  j <> 51 -> j <> 52 ->
  in_list k variables_to_remove = false ->
  ~ In k (keys conversion_mappings) ->
  nth_error values (if j <? 52 then j else j + 4) = Some v ->
  dict_get k field_updates = Some (VStr (stringify v)).
Proof.
  intros Hrun Hk H51 H52 Hkeep Hplain Hv.
  apply field_record_inv in Hrun. destruct Hrun as [Hlen Hrun].
  rewrite (apply_conversions_unmapped conversion_mappings _ field_updates k
             Hrun Hplain).
  apply (assemble_get _ _ _ j k v Hk H51 H52 Hkeep).
  destruct (Nat.ltb_spec j 52) as [Hlow | Hhigh].
  - now rewrite popped_nth_low.
  - now rewrite popped_nth_high.
Qed.

Lemma record_values_by_position_witness :
  exists field_updates v,
    field_record sample_values = Ok (Some field_updates)
    /\ nth_error parameters 53 = Some "frac_transport_tanker"
    /\ nth_error sample_values 57 = Some v
    /\ dict_get "frac_transport_tanker" field_updates
       = Some (VStr (stringify v)).
Proof.
  destruct (field_record sample_values) as [[field_updates |] | e] eqn:Hrun;
    [| vm_compute in Hrun; discriminate ..].
  exists field_updates. eexists. split; [reflexivity |].
  split; [reflexivity |]. split; [vm_compute; reflexivity |].
  apply (record_values_by_position sample_values field_updates 53
           "frac_transport_tanker" _ Hrun eq_refl);
    [lia | lia | reflexivity | | reflexivity].
  vm_compute. intuition discriminate.
Defined.

(** X13: the records of a run fit the merge.  On a sheet whose field
    columns are headed by texts without a double quote or by missing cells,
    when the loop over the columns ends no two records share a name, no
    name holds a double quote and every record holds strings only; on a
    document whose template fields are children of the root under unique
    keys the merge then succeeds, and the template fields of the merged
    document bear the names of the records, in their order. *)
Theorem records_fit_merge (sheet : DataFrame xl_cell)
    (recs : dict (dict (value xl_cell))) :
  header_plain sheet = true ->
  collect_columns sheet = Ok recs ->
  NoDup (keys recs)
  /\ exists field_updates_dicts,
       records_strings recs = Some field_updates_dicts
       /\ keys field_updates_dicts = keys recs
       /\ names_plain field_updates_dicts = true
       /\ forall root,
            fields_flat root -> keys_unique root ->
            exists root',
              merge root field_updates_dicts = Ok root'
              /\ map field_key (template_fields root') = map Some (keys recs).
Proof.
  intros Hhead Hrun.
  destruct (collect_columns_shape sheet recs Hrun) as [Hnd [strs [Hstrs Hkeys]]].
  pose proof (collect_columns_plain sheet recs Hhead Hrun) as Hplain.
  split; [exact Hnd |].
  exists strs. split; [exact Hstrs | split; [exact Hkeys |]].
  split; [unfold names_plain in *; now rewrite Hkeys |].
  intros root Hflat Hu.
  destruct (merge_total root strs Hflat) as [root' [Hmerge _]].
  exists root'. split; [exact Hmerge |].
  rewrite <- Hkeys in Hnd.
  rewrite (proj2 (merge_templates root root' strs Hnd Hu Hmerge)), <- Hkeys.
  apply created_fields_keys.
Qed.

Lemma records_fit_merge_witness :
  header_plain (named_sheet 120) = true
  /\ exists recs,
       collect_columns (named_sheet 120) = Ok recs
       /\ keys recs = ["Alpha"; "Field 501"]
       /\ NoDup (keys recs).
Proof.
  assert (Hhead : header_plain (named_sheet 120) = true) by reflexivity.
  split; [exact Hhead |].
  destruct (collect_columns (named_sheet 120)) as [recs | e] eqn:Hrun;
    [| vm_compute in Hrun; discriminate].
  exists recs. split; [reflexivity |].
  split; [vm_compute in Hrun; injection Hrun as <-; reflexivity |].
  exact (proj1 (records_fit_merge (named_sheet 120) recs Hhead Hrun)).
Defined.

(** X14: a sheet with fewer than 96 rows that has a field column stops the
    run with [IndexError] at its first column, before the document is
    touched. *)
Theorem short_sheet_stops_run {A : Type} `{PyCell A} (sheet : DataFrame A) :
  nrows sheet < 96 -> 7 < ncols sheet ->
  collect_columns sheet = Raise IndexError.
Proof. apply collect_columns_short. Qed.

Lemma short_sheet_stops_run_witness :
  collect_columns (named_sheet 90) = Raise IndexError.
Proof.
  apply (short_sheet_stops_run (named_sheet 90)); vm_compute; lia.
Defined.

(** X15: a sheet without field columns yields no record, and the merge
    with no record leaves no template field in the document. *)
Theorem no_columns_no_fields {A : Type} `{PyCell A} (sheet : DataFrame A) :
  ncols sheet <= 7 ->
  collect_columns sheet = Ok []
  /\ forall root root', merge root [] = Ok root' -> template_fields root' = [].
Proof.
  intros Hcols. split; [now apply collect_columns_none |].
  intros root root' Hrun. unfold merge in Hrun.
  pose proof (reconcile_fields_required _ root' [] Hrun) as Hreq.
  destruct (template_fields root') as [| d ds] eqn:Hfields; [reflexivity |].
  specialize (Hreq d). rewrite Hfields in Hreq.
  specialize (Hreq (or_introl eq_refl)).
  unfold required in Hreq. cbn [keys map] in Hreq.
  destruct (get d "name"); discriminate.
Qed.

Lemma no_columns_no_fields_witness :
  collect_columns narrow_sheet = Ok []
  /\ exists root', merge sample_document [] = Ok root'
                   /\ template_fields root' = [].
Proof.
  assert (Hcols : ncols narrow_sheet <= 7) by (vm_compute; lia).
  split; [exact (proj1 (no_columns_no_fields narrow_sheet Hcols)) |].
  eexists. split; [reflexivity |].
  exact (proj2 (no_columns_no_fields narrow_sheet Hcols) sample_document _
           eq_refl).
Defined.

(** ** The Analysis node (lines 285-306 of main) *)

(** X16: after the Analysis step the document holds an Analysis node named
    [FUSE_run]; the first one in document order holds the group marker
    [all] and reads the three fixed settings. *)
Theorem analysis_settled (root : Element) :
  exists r analysis,
    find_analysis (upsert_analysis root) = Some (r, analysis)
    /\ group_exists analysis = true
    /\ read_setting "functional_unit" analysis = Some (Some "oil")
    /\ read_setting "GWP_horizon" analysis = Some (Some "100")
    /\ read_setting "GWP_version" analysis = Some (Some "AR5").
Proof.
  destruct (find_upserted root) as [r [e [Hfind [[Hgroup Hreads] _]]]].
  exists r, e. split; [exact Hfind | split; [exact Hgroup |]].
  repeat split; apply Hreads; unfold analysis_updates; simpl; tauto.
Qed.

(** X17: the Analysis step is idempotent: on a document it has been applied
    to, it changes nothing. *)
Theorem analysis_step_idempotent (root : Element) :
  upsert_analysis (upsert_analysis root) = upsert_analysis root.
Proof.
  destruct (find_upserted root) as [r [e [Hfind [Hsettled _]]]].
  exact (settled_found_fixed (upsert_analysis root) r e Hfind Hsettled).
Qed.

(** X18: a setting of the Analysis node under a name other than the three
    fixed ones reads after the step as it did before. *)
Theorem other_settings_kept (key : string) (analysis : Element) :
  ~ In key (keys analysis_updates) ->
  read_setting key (upsert_settings analysis) = read_setting key analysis.
Proof.
  intros Hkey. unfold upsert_settings.
  rewrite settings_fold_other by exact Hkey.
  destruct (group_exists analysis); [reflexivity | apply read_setting_group].
Qed.

Lemma other_settings_kept_witness :
  read_setting "boundary" (upsert_settings custom_analysis)
  = Some (Some "Field").
Proof.
  rewrite (other_settings_kept "boundary" custom_analysis);
    [reflexivity | vm_compute; intuition discriminate].
Defined.

(** ** The field nodes (lines 309-328 of main) *)

(** X19: the children of the root after a run.  On a document whose field
    keys are unique, and for field names without a double quote, the merged
    root holds its former children that are no template fields, in their
    order and with the Analysis step applied, followed by one new field node
    for each record, in the order of the records; the document holds no
    other template field. *)
Theorem fields_follow_records (root root' : Element)
    (field_updates_dicts : dict (dict string)) :
  NoDup (keys field_updates_dicts) ->
  names_plain field_updates_dicts = true ->
  keys_unique root ->
  merge root field_updates_dicts = Ok root' ->
  children root'
  = other_children (upsert_analysis root) ++ created_fields field_updates_dicts
  /\ template_fields root' = created_fields field_updates_dicts.
Proof.
  intros Hnd _ Hu Hrun.
  exact (merge_templates root root' field_updates_dicts Hnd Hu Hrun).
Qed.

Lemma fields_follow_records_witness :
  exists root',
    merge sample_document sample_records = Ok root'
    /\ template_fields root' = created_fields sample_records.
Proof.
  eexists. split; [reflexivity |].
  exact (proj2 (fields_follow_records sample_document _ sample_records
                  sample_records_keys eq_refl sample_document_unique eq_refl)).
Defined.

(** X20: for field names without a double quote, the two loops over the
    fields touch nothing else: the root keeps its tag, attributes and text,
    and its children that are no template fields stay, unchanged and in
    their order. *)
Theorem other_nodes_untouched (root root' : Element)
    (field_updates_dicts : dict (dict string)) :
  names_plain field_updates_dicts = true ->
  reconcile_fields root field_updates_dicts = Ok root' ->
  same_node root root' /\ other_children root' = other_children root.
Proof.
  intros _ Hrun. split.
  - exact (reconcile_fields_same root root' field_updates_dicts Hrun).
  - exact (reconcile_fields_others root root' field_updates_dicts Hrun).
Qed.

Lemma other_nodes_untouched_witness :
  exists root',
    reconcile_fields sample_document sample_records = Ok root'
    /\ other_children root' = [analysis_node].
Proof.
  eexists. split; [reflexivity |].
  exact (proj2 (other_nodes_untouched sample_document _ sample_records
                  eq_refl eq_refl)).
Defined.

Lemma sample_document_outside : analysis_outside_fields sample_document.
Proof.
  intros c d Hc Htpl Hd. cbn [sample_document children In] in Hc.
  repeat (destruct Hc as [<- | Hc];
          [ first [ now vm_compute in Htpl
                  | vm_compute in Hd;
                    repeat (destruct Hd as [<- | Hd]; [reflexivity |]);
                    destruct Hd ] |]).
  destruct Hc.
Qed.

(** X21: running the merge again changes nothing.  For field names without
    a double quote, on a document whose field keys are unique and whose
    Analysis node does not lie within a template field child of the root,
    the merged document is a fixed point of the merge with the same
    records. *)
Theorem rerun_changes_nothing (root root1 : Element)
    (field_updates_dicts : dict (dict string)) :
  NoDup (keys field_updates_dicts) ->
  names_plain field_updates_dicts = true ->
  keys_unique root ->
  analysis_outside_fields root ->
  merge root field_updates_dicts = Ok root1 ->
  merge root1 field_updates_dicts = Ok root1.
Proof.
  intros Hnd _ Hu Hout Hrun.
  exact (merge_again root root1 field_updates_dicts Hnd Hu Hout Hrun).
Qed.

Lemma rerun_changes_nothing_witness :
  exists root1,
    merge sample_document sample_records = Ok root1
    /\ merge root1 sample_records = Ok root1.
Proof.
  eexists. split; [reflexivity |].
  exact (rerun_changes_nothing sample_document _ sample_records
           sample_records_keys eq_refl sample_document_unique
           sample_document_outside eq_refl).
Defined.

(** X22: wherever the Analysis node lay, the second run settles the
    document: for field names without a double quote, on a document whose
    field keys are unique, a run on the merged document succeeds and its
    result is a fixed point of the merge. *)
Theorem second_rerun_settles (root root1 : Element)
    (field_updates_dicts : dict (dict string)) :
  NoDup (keys field_updates_dicts) ->
  names_plain field_updates_dicts = true ->
  keys_unique root ->
  merge root field_updates_dicts = Ok root1 ->
  exists root2,
    merge root1 field_updates_dicts = Ok root2
    /\ merge root2 field_updates_dicts = Ok root2.
Proof.
  intros Hnd _ Hu Hrun.
  pose proof (merge_unique root root1 field_updates_dicts Hu Hrun) as Hu1.
  pose proof (merged_outside root root1 field_updates_dicts Hnd Hu Hrun) as Hout1.
  assert (Hflat1 : fields_flat root1).
  { unfold merge in Hrun.
    apply (reconcile_fields_flat_after (upsert_analysis root) root1
             field_updates_dicts Hnd); [| exact Hrun].
    now apply upsert_analysis_unique. }
  destruct (merge_total root1 field_updates_dicts Hflat1) as [root2 [Hrun2 _]].
  exists root2. split; [exact Hrun2 |].
  exact (merge_again root1 root2 field_updates_dicts Hnd Hu1 Hout1 Hrun2).
Qed.

Lemma buried_document_unique : keys_unique buried_document.
Proof.
  unfold keys_unique. vm_compute.
  repeat (constructor; [simpl; intuition discriminate |]). constructor.
Qed.

Lemma second_rerun_settles_witness :
  exists root1 root2,
    merge buried_document sample_records = Ok root1
    /\ merge root1 sample_records = Ok root2
    /\ merge root2 sample_records = Ok root2
    /\ root1 <> root2.
Proof.
  destruct (merge buried_document sample_records) as [root1 | e] eqn:Hrun;
    [| vm_compute in Hrun; discriminate].
  destruct (second_rerun_settles buried_document root1 sample_records
              sample_records_keys eq_refl buried_document_unique Hrun)
    as [root2 [Hrun2 Hfix]].
  exists root1, root2. split; [reflexivity |].
  split; [exact Hrun2 | split; [exact Hfix |]].
  intros <-. vm_compute in Hrun. injection Hrun as <-.
  vm_compute in Hrun2. discriminate.
Defined.

(** X23: for field names without a double quote, the merge raises nothing
    but [ValueError], and only on a document that holds a template field
    below a child of the root. *)
Theorem merge_raises_value_error (root : Element)
    (field_updates_dicts : dict (dict string)) (e : exn) :
  names_plain field_updates_dicts = true ->
  merge root field_updates_dicts = Raise e ->
  e = ValueError /\ ~ fields_flat root.
Proof.
  intros _ Hrun. split.
  - unfold merge in Hrun.
    exact (reconcile_fields_raises _ field_updates_dicts e Hrun).
  - intros Hflat.
    destruct (merge_total root field_updates_dicts Hflat) as [root' [Hok _]].
    rewrite Hok in Hrun. discriminate.
Qed.

Lemma merge_raises_value_error_witness :
  merge nested_document sample_records = Raise ValueError
  /\ ~ fields_flat nested_document.
Proof.
  assert (Hrun : merge nested_document sample_records = Raise ValueError)
    by reflexivity.
  split; [exact Hrun |].
  exact (proj2 (merge_raises_value_error nested_document sample_records
                  ValueError eq_refl Hrun)).
Defined.

(** X24: a template field that lies below a child of the root and bears no
    name of the run makes the loop that removes stale fields fail:
    [root.remove] does not find the node among the children of the root and
    raises [ValueError]. *)
Theorem stale_field_below_raises (root : Element)
    (field_updates_dicts : dict (dict string))
    (i j : nat) (r : ref) (d : Element) :
  In (i :: j :: r, d) (findall_fields root) ->
  required (keys field_updates_dicts) d = false ->
  reconcile_fields root field_updates_dicts = Raise ValueError.
Proof.
  intros Hin Hstale. unfold reconcile_fields.
  destruct (remove_stale root (keys field_updates_dicts)) as [root1 | e]
    eqn:Hrun; cbn [bind].
  - exfalso. apply remove_stale_ok in Hrun. destruct Hrun as [_ Hdirect].
    destruct (Hdirect _ d Hin Hstale) as [i0 Habs]. discriminate.
  - now rewrite (remove_stale_raises root (keys field_updates_dicts) e Hrun).
Qed.

Lemma stale_field_below_raises_witness :
  In ([1; 0], old_field "Gamma" "32") (findall_fields nested_document)
  /\ reconcile_fields nested_document sample_records = Raise ValueError.
Proof.
  assert (Hin : In ([1; 0], old_field "Gamma" "32")
                   (findall_fields nested_document))
    by (vm_compute; tauto).
  split; [exact Hin |].
  exact (stale_field_below_raises nested_document sample_records 1 0 []
           (old_field "Gamma" "32") Hin eq_refl).
Defined.
